(** * Open-PDF-Editor: the annotation engine of [src/app.component.ts]

    A shallow embedding of the component's annotation model, history,
    pointer handlers, page-structure operations, export mapper and
    watermark placement, and the properties the specification states about
    them.

    Conventions of the embedding.
    - A JavaScript [number] is an exact rational ([Q]); rounding, NaN and
      the infinities of IEEE doubles are outside the model.  The watermark
      placement, which needs the sine and cosine of 45 degrees, is stated
      over the real numbers in its own module.
    - A JavaScript string is its sequence of UTF-16 code units.
    - Arrays are lists; the newest history entry is the last element, as
      in the source.  No handler mutates a page list or an annotation in
      place (each builds a copy with the spread operator), so values
      without sharing describe the arrays exactly.
    - A handler that raises a [TypeError], or that would store a value that
      is not an annotation, returns [None].
    - The document libraries (pdf.js, pdf-lib), the display's pixel ratio
      and the canvas text measurer are collaborators, gathered in a class;
      what the user answers to [confirm] is an argument of the operation
      that may ask.  Asynchronous operations are run to completion.
    - [confirm] and [alert] dialogs are returned as the list of dialogs
      shown, oldest first. *)

From Stdlib Require Import Reals Lra.
From Stdlib Require Import QArith Qminmax Lqa ZArith Lia String Ascii.
From stdpp Require Import list.

(** ** JavaScript strings and arrays *)

Module JS.

Definition jsstring := list N.

(** An ASCII literal as code units. *)
Definition lit (s : string) : jsstring :=
  map N_of_ascii (list_ascii_of_string s).

Arguments lit : simpl never.

(** ECMAScript [WhiteSpace] and [LineTerminator] code units, the ones
    [String.prototype.trim] strips. *)
Definition isWhiteSpace (c : N) : bool :=
  ((9 <=? c) && (c <=? 13) || (c =? 32) || (c =? 160) || (c =? 5760)
   || (8192 <=? c) && (c <=? 8202) || (c =? 8232) || (c =? 8233)
   || (c =? 8239) || (c =? 8287) || (c =? 12288) || (c =? 65279))%N.

Fixpoint trimStart (s : jsstring) : jsstring :=
  match s with
  | c :: s' => if isWhiteSpace c then trimStart s' else s
  | [] => []
  end.

Definition trimEnd (s : jsstring) : jsstring := rev (trimStart (rev s)).

Definition trim (s : jsstring) : jsstring := trimEnd (trimStart s).

(** [!s]: the empty string is the only falsy string. *)
Definition falsy (s : jsstring) : bool :=
  match s with [] => true | _ => false end.

Fixpoint startsWith (prefix s : jsstring) : bool :=
  match prefix, s with
  | [], _ => true
  | p :: prefix', c :: s' => (p =? c)%N && startsWith prefix' s'
  | _ :: _, [] => false
  end.

Fixpoint includes (sub s : jsstring) : bool :=
  startsWith sub s
  || match s with
     | [] => false
     | _ :: s' => includes sub s'
     end.

(** [s.replace(pat, repl)] with a string pattern: the first occurrence. *)
Fixpoint replace (pat repl s : jsstring) : jsstring :=
  if startsWith pat s then repl ++ drop (length pat) s
  else match s with
       | [] => []
       | c :: s' => c :: replace pat repl s'
       end.

(** [s.split('\n')]: always at least one piece, so the first piece is
    returned apart from the others. *)
Fixpoint split_lines (s : jsstring) : jsstring * list jsstring :=
  match s with
  | [] => ([], [])
  | c :: s' =>
      let '(first, others) := split_lines s' in
      if (c =? 10)%N then ([], first :: others) else (c :: first, others)
  end.

(** [arr.indexOf(v)]; [None] stands for the source's [-1]. *)
Fixpoint indexOf (v : nat) (arr : list nat) : option nat :=
  match arr with
  | [] => None
  | a :: arr' => if Nat.eqb a v then Some 0 else S <$> indexOf v arr'
  end.

(** [arr.splice(i, 1)] on a copy: the removed element, if any, and the
    remaining array. *)
Definition splice_remove {A} (i : nat) (arr : list A) : option A * list A :=
  (arr !! i, delete i arr).

(** [arr.splice(i, 0, v)] on a copy; a start beyond the end appends. *)
Definition splice_insert {A} (i : nat) (v : A) (arr : list A) : list A :=
  take i arr ++ v :: drop i arr.

(** [stack.slice(0, -1)]. *)
Definition slice_init {A} (stack : list A) : list A :=
  take (length stack - 1) stack.

(** [Math.max(first, ...others)]. *)
Definition Math_max (first : Q) (others : list Q) : Q :=
  fold_left Qmax others first.

End JS.

(** ** The annotation data model (document space, top-left origin) *)

Record Point := mkPoint { pt_x : Q; pt_y : Q }.

Record TextSettings := mkTextSettings {
  ts_font : JS.jsstring;
  ts_size : Q;
  ts_color : JS.jsstring;
  ts_bold : bool
}.

Record TextAnnotation := mkText {
  t_x : Q;
  t_y : Q;
  t_text : JS.jsstring;
  t_size : Q;
  t_color : JS.jsstring;
  t_font : JS.jsstring;
  t_bold : bool;
  t_width : Q;
  t_height : Q
}.

Record DrawAnnotation := mkDraw {
  d_path : list Point;
  d_color : JS.jsstring;
  d_lineWidth : Q
}.

Record ImageAnnotation := mkImage {
  i_x : Q;
  i_y : Q;
  i_width : Q;
  i_height : Q;
  i_imageData : JS.jsstring;
  i_originalAspectRatio : Q
}.

Inductive Annotation :=
| AText (t : TextAnnotation)
| ADraw (d : DrawAnnotation)
| AImage (i : ImageAnnotation).

(** [Annotation[][]]: one list per page, in lockstep with the page order. *)
Abbreviation Annotations := (list (list Annotation)).

Inductive Tab := TabEdit | TabOrganize | TabSecurity.

Inductive DragMode := DragMove | DragResize | DragNone.

Record Rect := mkRect { r_x : Q; r_y : Q; r_width : Q; r_height : Q }.

(** [textEditingState]: the overlay's anchor (logical space) and buffer. *)
Record TextEditingState := mkEditing {
  e_x : Q;
  e_y : Q;
  e_width : Q;
  e_text : JS.jsstring
}.

(** What the user is shown by [confirm] and [alert]. *)
Inductive Dialog :=
| ConfirmDiscardAnnotations
| AlertLoadFailed
| AlertLastPage
| AlertRotateFailed
| AlertDeleteFailed
| AlertDuplicateFailed
| AlertInsertFailed.

(** [JSON.parse(JSON.stringify(anns))]: a structural copy.  The JSON round
    trip is the identity on arrays and plain objects of strings, booleans
    and finite numbers, and values here are immutable, so the copy is the
    value. *)
Definition deepClone (anns : Annotations) : Annotations := anns.

(** ** Export: what [savePdf] asks pdf-lib to draw for the annotations *)

Inductive ImageFormat := Png | Jpg.

(** One command of the SVG path string built for a stroke: [M x y] or
    [L x y]. *)
Inductive SvgCommand :=
| SvgMoveTo (x y : Q)
| SvgLineTo (x y : Q).

(** The drawing calls, with the arguments handed to pdf-lib: page
    coordinates (bottom-left origin) for an image and a text, the commands
    of the path string for a stroke.  Colours are passed on as the stored
    strings. *)
Inductive DrawCall :=
| DrawImage (format : ImageFormat) (imageData : JS.jsstring)
    (x y width height : Q)
| DrawText (text : JS.jsstring) (x y : Q) (fontId : JS.jsstring) (size : Q)
    (color : JS.jsstring) (lineHeight : Q)
| DrawSvgPath (svgPath : list SvgCommand) (borderWidth : Q).

Definition exportFontId (ann : TextAnnotation) : JS.jsstring :=
  if t_bold ann
  then if JS.includes (JS.lit "Bold") (t_font ann) then t_font ann
       else t_font ann ++ JS.lit "-Bold"
  else JS.replace (JS.lit "-Bold") [] (t_font ann).

(** The body of the inner loop of [savePdf], as the arguments of the call
    it makes; [None] when the loop's own code raises ([ann.path[0]] of an
    empty path), which aborts the export.  The calls to pdf-lib that can
    raise as well (embedding the font or the image, encoding the text) are
    left to [savePdfAnnotation] below. *)
Definition exportAnnotation (pdfPageHeight : Q) (ann : Annotation)
    : option DrawCall :=
  match ann with
  | AImage ann =>
      Some (DrawImage
              (if JS.startsWith (JS.lit "data:image/png") (i_imageData ann)
               then Png else Jpg)
              (i_imageData ann) (i_x ann)
              (pdfPageHeight - i_y ann - i_height ann) (i_width ann)
              (i_height ann))
  | AText ann =>
      Some (DrawText (t_text ann) (t_x ann)
              (pdfPageHeight - t_y ann - t_size ann) (exportFontId ann)
              (t_size ann) (t_color ann) (t_size ann * 1.2))
  | ADraw ann =>
      match d_path ann with
      | [] => None
      | p0 :: rest =>
          Some (DrawSvgPath
                  (SvgMoveTo (pt_x p0) (pdfPageHeight - pt_y p0)
                   :: map (fun p => SvgLineTo (pt_x p) (pdfPageHeight - pt_y p))
                        rest)
                  (d_lineWidth ann))
      end
  end.

(** The outer loop: page [i] of the new document, of height
    [pageHeights !! i], receives the calls of [annotations()[i]]; a page
    without a list, or with an empty one, is skipped. *)
Fixpoint exportAnnotations (pageHeights : list Q) (anns : Annotations)
    : option (list (list DrawCall)) :=
  match pageHeights with
  | [] => Some []
  | pdfPageHeight :: pageHeights' =>
      calls ← mapM (exportAnnotation pdfPageHeight) (default [] (head anns));
      others ← exportAnnotations pageHeights' (tail anns);
      Some (calls :: others)
  end.

(** The point a path command draws to, and the position of a call. *)
Definition svg_point (c : SvgCommand) : Q * Q :=
  match c with SvgMoveTo x y | SvgLineTo x y => (x, y) end.

Definition call_x (c : DrawCall) : option Q :=
  match c with
  | DrawImage _ _ x _ _ _ | DrawText _ x _ _ _ _ _ => Some x
  | DrawSvgPath _ _ => None
  end.

Definition call_y (c : DrawCall) : option Q :=
  match c with
  | DrawImage _ _ _ y _ _ | DrawText _ _ y _ _ _ _ => Some y
  | DrawSvgPath _ _ => None
  end.

(** A stroke the export can draw: its path is not empty (strokes are
    stored only with two points or more). *)
Definition drawable (ann : Annotation) : Prop :=
  match ann with
  | ADraw d => d_path d <> []
  | _ => True
  end.

(** [call] is what [ann] exports to on a page of height [pdfPageHeight]:
    x kept and y = height - y - size for a text, y = height - y - height
    for an image, and each point of a stroke flipped on its own. *)
Definition exportedAs (pdfPageHeight : Q) (ann : Annotation) (call : DrawCall)
    : Prop :=
  match ann with
  | AText t =>
      call_x call = Some (t_x t)
      /\ call_y call = Some (pdfPageHeight - t_y t - t_size t)%Q
  | AImage i =>
      call_x call = Some (i_x i)
      /\ call_y call = Some (pdfPageHeight - i_y i - i_height i)%Q
  | ADraw d =>
      exists svgPath borderWidth,
        call = DrawSvgPath svgPath borderWidth
        /\ map svg_point svgPath
           = map (fun p => (pt_x p, (pdfPageHeight - pt_y p)%Q)) (d_path d)
  end.

(** The points a stroke's call draws through. *)
Definition svgPoints (call : DrawCall) : list (Q * Q) :=
  match call with
  | DrawSvgPath svgPath _ => map svg_point svgPath
  | _ => []
  end.

(** ** Watermark placement: live preview and export

    Both backends keep a current transformation matrix [a b c d e f] that
    sends a user-space point [(x, y)] to
    [(a x + c y + e, b x + d y + f)], and both concatenate a new transform
    on the user-space side.  The canvas bitmap has its origin at the top
    left with y pointing down; a PDF page has its origin at the bottom left
    with y pointing up. *)

Module Watermark.

Local Open Scope R_scope.

Record Affine := mkAffine {
  m_a : R; m_b : R; m_c : R; m_d : R; m_e : R; m_f : R
}.

Definition identity : Affine := mkAffine 1 0 0 1 0 0.

Definition apply (M : Affine) (p : R * R) : R * R :=
  (m_a M * fst p + m_c M * snd p + m_e M,
   m_b M * fst p + m_d M * snd p + m_f M).

(** [ctm] after [M]: the matrix of "apply [M], then [ctm]". *)
Definition concat (ctm M : Affine) : Affine :=
  mkAffine (m_a ctm * m_a M + m_c ctm * m_b M)
           (m_b ctm * m_a M + m_d ctm * m_b M)
           (m_a ctm * m_c M + m_c ctm * m_d M)
           (m_b ctm * m_c M + m_d ctm * m_d M)
           (m_a ctm * m_e M + m_c ctm * m_f M + m_e ctm)
           (m_b ctm * m_e M + m_d ctm * m_f M + m_f ctm).

(** [context.translate] and pdf-lib's [translate] operator. *)
Definition translate (tx ty : R) (ctm : Affine) : Affine :=
  concat ctm (mkAffine 1 0 0 1 tx ty).

(** [context.rotate] and pdf-lib's [rotateRadians] operator. *)
Definition rotate (angle : R) (ctm : Affine) : Affine :=
  concat ctm (mkAffine (cos angle) (sin angle) (- sin angle) (cos angle) 0 0).

Definition rotateDegrees (degrees : R) (ctm : Affine) : Affine :=
  rotate (degrees * PI / 180) ctm.

(** [drawWatermark]: the three context calls, on a context that starts
    from the identity. *)
Definition previewTransform (canvasWidth canvasHeight : R) : Affine :=
  let centerX := canvasWidth / 2 in
  let centerY := canvasHeight / 2 in
  translate (- centerX) (- centerY)
    (rotate (- PI / 4) (translate centerX centerY identity)).

(** [savePdf]: the operators pushed before the watermark text. *)
Definition exportTransform (width height : R) : Affine :=
  rotateDegrees 45 (translate (width / 2) (height / 2) identity).

(** The page location (document units, top-left origin) shown by a canvas
    pixel: [renderPage] sizes the canvas at [scale * pixelRatio] pixels per
    document unit. *)
Definition canvasToPage (scale pixelRatio : R) (p : R * R) : R * R :=
  (fst p / (scale * pixelRatio), snd p / (scale * pixelRatio)).

(** The same location for a point of PDF page space. *)
Definition pdfToPage (height : R) (p : R * R) : R * R :=
  (fst p, height - snd p).

(** The text's metrics per unit of font size, as the two font engines
    report them. *)
Record Metrics := mkMetrics {
  advance : R;       (* width of the text *)
  middle : R;        (* the canvas "middle" baseline above the alphabetic one *)
  ascent : R;        (* pdf-lib [heightAtSize(size)] *)
  totalHeight : R    (* pdf-lib [heightAtSize(size, {descender: true})] *)
}.

(** A point of the watermark text is named by its offset [(alpha, beta)]
    from the start of the baseline, in units of the font size, [alpha]
    along the text and [beta] towards its top: both engines draw outline
    fonts, scaled by the font size about the point the text is anchored
    at. *)

(** Preview: [fillText(text, centerX, centerY)] with [textAlign = 'center'],
    [textBaseline = 'middle'] and a font of
    [size * (scale / 1.5) * pixelRatio] pixels, on a canvas of
    [width * scale * pixelRatio] by [height * scale * pixelRatio] pixels. *)
Definition previewPoint (m : Metrics) (width height scale pixelRatio size : R)
    (alpha beta : R) : R * R :=
  let canvasWidth := width * scale * pixelRatio in
  let canvasHeight := height * scale * pixelRatio in
  let centerX := canvasWidth / 2 in
  let centerY := canvasHeight / 2 in
  let fontPx := size * (scale / 1.5) * pixelRatio in
  canvasToPage scale pixelRatio
    (apply (previewTransform canvasWidth canvasHeight)
       (centerX + (alpha - advance m / 2) * fontPx,
        centerY - (beta - middle m) * fontPx)).

(** Export: [drawText(text, {x: -textWidth / 2, y: yOffset, size})]. *)
Definition exportPoint (m : Metrics) (width height size : R)
    (alpha beta : R) : R * R :=
  let fontSize := size in
  let textWidth := advance m * fontSize in
  let ascent := ascent m * fontSize in
  let totalHeight := totalHeight m * fontSize in
  let descent := totalHeight - ascent in
  let yOffset := - (ascent - descent) / 2 in
  pdfToPage height
    (apply (exportTransform width height)
       (- textWidth / 2 + alpha * fontSize, yOffset + beta * fontSize)).

End Watermark.

(** ** Colours: [hexToRgb] *)

Module Colour.

(** The value [parseInt(_, 16)] gives one character that [[a-f\d]] matches
    under the [i] flag: a digit, or a letter a to f of either case. *)
Definition hexDigit (c : N) : option Z :=
  if ((48 <=? c) && (c <=? 57))%N then Some (Z.of_N c - 48)%Z
  else if ((97 <=? c) && (c <=? 102))%N then Some (Z.of_N c - 87)%Z
  else if ((65 <=? c) && (c <=? 70))%N then Some (Z.of_N c - 55)%Z
  else None.

(** One capture group [([a-f\d]{2})], read by [parseInt(_, 16)]. *)
Definition hexPair (high low : N) : option Z :=
  h ← hexDigit high; l ← hexDigit low; Some (16 * h + l)%Z.

(** [/^#?([a-f\d]{2})([a-f\d]{2})([a-f\d]{2})$/i.exec(hex)]: an optional
    number sign (code unit 35), then exactly six hexadecimal digits. *)
Definition execHex (hex : JS.jsstring) : option (Z * Z * Z) :=
  let digits :=
    match hex with
    | c :: rest => if (c =? 35)%N then rest else hex
    | [] => hex
    end in
  match digits with
  | [r1; r2; g1; g2; b1; b2] =>
      r ← hexPair r1 r2; g ← hexPair g1 g2; b ← hexPair b1 b2; Some (r, g, b)
  | _ => None
  end.

Record Rgb := mkRgb { rgb_r : Q; rgb_g : Q; rgb_b : Q }.

Definition hexToRgb (hex : JS.jsstring) : Rgb :=
  match execHex hex with
  | Some (r, g, b) =>
      mkRgb (inject_Z r / 255) (inject_Z g / 255) (inject_Z b / 255)
  | None => mkRgb 0 0 0
  end.

(** The other case of an ASCII letter; any other code unit is kept. *)
Definition swapCase (c : N) : N :=
  if ((97 <=? c) && (c <=? 122))%N then (c - 32)%N
  else if ((65 <=? c) && (c <=? 90))%N then (c + 32)%N
  else c.

(** Two code units that differ at most by the case of a letter. *)
Definition sameLetter (c c' : N) : Prop := c' = c \/ c' = swapCase c.

End Colour.

(** ** The signature pad *)

Module Signature.

Record Stroke := mkStroke { s_path : list Point; s_color : JS.jsstring }.

(** The signals and fields of the signature dialog. *)
Record Pad := mkPad {
  isSignatureModalOpen : bool;
  signaturePadPaths : list Stroke;
  signaturePadCurrentPath : list Point;
  isSigning : bool;
  signatureColor : JS.jsstring;
  signatureUndoStack : list (list Stroke);
  signatureRedoStack : list (list Stroke)
}.

Definition canUndoSignature (pad : Pad) : bool :=
  (0 <? length (signatureUndoStack pad))%nat.

Definition canRedoSignature (pad : Pad) : bool :=
  (0 <? length (signatureRedoStack pad))%nat.


Definition closeSignatureModal (pad : Pad) : Pad :=
  mkPad false (signaturePadPaths pad) (signaturePadCurrentPath pad)
    (isSigning pad) (signatureColor pad) (signatureUndoStack pad)
    (signatureRedoStack pad).

(** [pos] is [getSignatureMousePos]'s result ([None]: no canvas). *)
Definition onSignatureMouseDown (pos : option Point) (pad : Pad) : Pad :=
  match pos with
  | None => pad
  | Some pos =>
      mkPad (isSignatureModalOpen pad) (signaturePadPaths pad) [pos] true
        (signatureColor pad) (signatureUndoStack pad) (signatureRedoStack pad)
  end.

Definition onSignatureMouseMove (pos : option Point) (pad : Pad) : Pad :=
  if negb (isSigning pad) then pad
  else
    match pos with
    | None => pad
    | Some pos =>
        mkPad (isSignatureModalOpen pad) (signaturePadPaths pad)
          (signaturePadCurrentPath pad ++ [pos]) (isSigning pad)
          (signatureColor pad) (signatureUndoStack pad)
          (signatureRedoStack pad)
    end.

Definition onSignatureMouseUp (pad : Pad) : Pad :=
  if negb (isSigning pad) then pad
  else if (1 <? length (signaturePadCurrentPath pad))%nat
  then
    mkPad (isSignatureModalOpen pad)
      (signaturePadPaths pad
       ++ [mkStroke (signaturePadCurrentPath pad) (signatureColor pad)])
      [] false (signatureColor pad)
      (signatureUndoStack pad ++ [signaturePadPaths pad]) []
  else
    mkPad (isSignatureModalOpen pad) (signaturePadPaths pad) [] false
      (signatureColor pad) (signatureUndoStack pad) (signatureRedoStack pad).

Definition onSignatureMouseLeave (pad : Pad) : Pad :=
  if isSigning pad then onSignatureMouseUp pad else pad.

Definition undoSignature (pad : Pad) : Pad :=
  if negb (canUndoSignature pad) then pad
  else
    match last (signatureUndoStack pad) with
    | None => pad
    | Some lastState =>
        mkPad (isSignatureModalOpen pad) lastState
          (signaturePadCurrentPath pad) (isSigning pad) (signatureColor pad)
          (JS.slice_init (signatureUndoStack pad))
          (signatureRedoStack pad ++ [signaturePadPaths pad])
    end.

Definition redoSignature (pad : Pad) : Pad :=
  if negb (canRedoSignature pad) then pad
  else
    match last (signatureRedoStack pad) with
    | None => pad
    | Some nextState =>
        mkPad (isSignatureModalOpen pad) nextState
          (signaturePadCurrentPath pad) (isSigning pad) (signatureColor pad)
          (signatureUndoStack pad ++ [signaturePadPaths pad])
          (JS.slice_init (signatureRedoStack pad))
    end.

Definition clearSignature (pad : Pad) : Pad :=
  mkPad (isSignatureModalOpen pad) [] (signaturePadCurrentPath pad)
    (isSigning pad) (signatureColor pad)
    (if (0 <? length (signaturePadPaths pad))%nat
     then signatureUndoStack pad ++ [signaturePadPaths pad]
     else signatureUndoStack pad)
    [].

(** One stroke drawn on the pad: press at [start], move through [moves],
    release. *)
Definition drawStroke (start : Point) (moves : list Point) (pad : Pad) : Pad :=
  onSignatureMouseUp
    (foldl (fun pad pos => onSignatureMouseMove (Some pos) pad)
       (onSignatureMouseDown (Some start) pad) moves).

(** *** The bounding box of the ink: [getSignatureBounds] *)

(** The canvas bitmap as [getImageData] returns it: [w] by [h] pixels, four
    bytes (red, green, blue, alpha) a pixel, row after row. *)
Record Bitmap := mkBitmap { b_data : list Z; b_w : nat; b_h : nat }.

(** [imageData[(y * w + x) * 4 + 3] > 0]; a read past the end is
    [undefined], which is not greater than zero. *)
Definition inked (bitmap : Bitmap) (x y : nat) : bool :=
  match b_data bitmap !! ((y * b_w bitmap + x) * 4 + 3)%nat with
  | Some alpha => (0 <? alpha)%Z
  | None => false
  end.

(** The loop variables. *)
Record Scan := mkScan {
  minX : nat; minY : nat; maxX : nat; maxY : nat; foundPixel : bool
}.

(** The body of the inner loop. *)
Definition scanPixel (bitmap : Bitmap) (y : nat) (acc : Scan) (x : nat) : Scan :=
  if inked bitmap x y
  then mkScan (Nat.min (minX acc) x) (Nat.min (minY acc) y)
         (Nat.max (maxX acc) x) (Nat.max (maxY acc) y) true
  else acc.

Definition scanRow (bitmap : Bitmap) (acc : Scan) (y : nat) : Scan :=
  foldl (scanPixel bitmap y) acc (seq 0 (b_w bitmap)).

Definition scanBitmap (bitmap : Bitmap) : Scan :=
  foldl (scanRow bitmap) (mkScan (b_w bitmap) (b_h bitmap) 0 0 false)
    (seq 0 (b_h bitmap)).

(** [{x, y, width, height}] in pixels, or [None] for the source's [null]. *)
Record Bounds := mkBounds {
  bd_x : nat; bd_y : nat; bd_width : nat; bd_height : nat
}.

Definition getSignatureBounds (bitmap : Bitmap) : option Bounds :=
  let acc := scanBitmap bitmap in
  if negb (foundPixel acc) then None
  else Some (mkBounds (minX acc) (minY acc) (maxX acc - minX acc)
               (maxY acc - minY acc)).

(** [acc] sums up the ink among the pixels [seen]: while none is inked the
    loop variables have their initial values; afterwards they bound the
    inked pixels seen, and each bound is reached by one of them. *)
Definition sumsUp (bitmap : Bitmap) (seen : nat -> nat -> Prop) (acc : Scan)
    : Prop :=
  if foundPixel acc then
    (forall x y, seen x y -> inked bitmap x y = true ->
       (minX acc <= x <= maxX acc)%nat /\ (minY acc <= y <= maxY acc)%nat)
    /\ (exists y, seen (minX acc) y /\ inked bitmap (minX acc) y = true)
    /\ (exists y, seen (maxX acc) y /\ inked bitmap (maxX acc) y = true)
    /\ (exists x, seen x (minY acc) /\ inked bitmap x (minY acc) = true)
    /\ (exists x, seen x (maxY acc) /\ inked bitmap x (maxY acc) = true)
  else
    (forall x y, seen x y -> inked bitmap x y = false)
    /\ acc = mkScan (b_w bitmap) (b_h bitmap) 0 0 false.

End Signature.

(** ** Page numbers: live preview and export *)

Module PageNumbers.

Local Open Scope Q_scope.

Inductive Position :=
| TopLeft | TopCenter | TopRight
| MiddleLeft | MiddleCenter | MiddleRight
| BottomLeft | BottomCenter | BottomRight.

(** The string of a [PageNumberPosition]. *)
Definition positionId (position : Position) : JS.jsstring :=
  match position with
  | TopLeft => JS.lit "top-left"
  | TopCenter => JS.lit "top-center"
  | TopRight => JS.lit "top-right"
  | MiddleLeft => JS.lit "middle-left"
  | MiddleCenter => JS.lit "middle-center"
  | MiddleRight => JS.lit "middle-right"
  | BottomLeft => JS.lit "bottom-left"
  | BottomCenter => JS.lit "bottom-center"
  | BottomRight => JS.lit "bottom-right"
  end.

Inductive Margin := Small | Medium | Large.

(** [{ small: 18, medium: 36, large: 54 }[margin]]. *)
Definition marginValue (margin : Margin) : Q :=
  match margin with Small => 18 | Medium => 36 | Large => 54 end.

Record PageNumberSettings := mkSettings {
  visible : bool;
  position : Position;
  margin : Margin;
  startPage : Z
}.

Inductive TextAlign := AlignLeft | AlignCenter | AlignRight | AlignStart.

Inductive TextBaseline :=
| BaselineTop | BaselineMiddle | BaselineBottom | BaselineAlphabetic.

(** What the preview hands to the canvas: the number, the font size in
    device pixels, the anchor and how the text hangs on it.  The alignment
    and the baseline start from the values the previous call reset them to
    ([start], [alphabetic]). *)
Record FillText := mkFillText {
  ft_number : Z;
  ft_fontSize : Q;
  ft_x : Q;
  ft_y : Q;
  ft_textAlign : TextAlign;
  ft_textBaseline : TextBaseline
}.

(** The page-number part of [drawAnnotations], for the page shown at
    position [displayPageIndex] of the page order, on a canvas of
    [canvasWidth] by [canvasHeight] device pixels. *)
Definition previewPageNumber (settings : PageNumberSettings)
    (displayPageIndex : nat) (scale pixelRatio canvasWidth canvasHeight : Q)
    : option FillText :=
  if negb (visible settings) then None
  else
    let fontSize := 12 * scale * pixelRatio in
    let margin := marginValue (margin settings) * scale * pixelRatio in
    let id := positionId (position settings) in
    let '(textAlign, x) :=
      if JS.includes (JS.lit "left") id then (AlignLeft, margin)
      else if JS.includes (JS.lit "center") id
      then (AlignCenter, canvasWidth / 2)
      else if JS.includes (JS.lit "right") id
      then (AlignRight, canvasWidth - margin)
      else (AlignStart, 0) in
    let '(textBaseline, y) :=
      if JS.includes (JS.lit "top") id then (BaselineTop, margin)
      else if JS.includes (JS.lit "middle") id
      then (BaselineMiddle, canvasHeight / 2)
      else if JS.includes (JS.lit "bottom") id
      then (BaselineBottom, canvasHeight - margin)
      else (BaselineAlphabetic, 0) in
    Some (mkFillText (Z.of_nat displayPageIndex + startPage settings)%Z fontSize
            x y textAlign textBaseline).

(** What the export hands to pdf-lib for page [i]: the number, the left end
    of the text and its baseline, at size 12. *)
Record DrawNumber := mkDrawNumber {
  dn_number : Z;
  dn_x : Q;
  dn_y : Q;
  dn_size : Q
}.

(** The page-number loop body of [savePdf], for page [i] of [width] by
    [height] points, [textWidth] being the width of the number at that
    size. *)
Definition exportPageNumber (settings : PageNumberSettings) (i : nat)
    (width height textWidth : Q) : option DrawNumber :=
  if negb (visible settings) then None
  else
    let margin := marginValue (margin settings) in
    let fontSize := 12 in
    let id := positionId (position settings) in
    let x :=
      if JS.includes (JS.lit "left") id then margin
      else if JS.includes (JS.lit "center") id then (width - textWidth) / 2
      else if JS.includes (JS.lit "right") id
      then width - textWidth - margin
      else 0 in
    let y :=
      if JS.includes (JS.lit "top") id then height - fontSize - margin
      else if JS.includes (JS.lit "middle") id then (height - fontSize) / 2
      else if JS.includes (JS.lit "bottom") id then margin
      else 0 in
    Some (mkDrawNumber (Z.of_nat i + startPage settings)%Z x y fontSize).

(** Where a text of width [textWidth] starts when the canvas draws it at
    [x] under [textAlign] (left-to-right text). *)
Definition canvasLeftEnd (textAlign : TextAlign) (x textWidth : Q) : Q :=
  match textAlign with
  | AlignLeft | AlignStart => x
  | AlignCenter => x - textWidth / 2
  | AlignRight => x - textWidth
  end.

(** How far above its bottom an em box of [fontSize] is hung on the anchor
    under [textBaseline]: by its top, its middle or its bottom. *)
Definition hangingHeight (textBaseline : TextBaseline) (fontSize : Q) : Q :=
  match textBaseline with
  | BaselineTop => fontSize
  | BaselineMiddle => fontSize / 2
  | BaselineBottom | BaselineAlphabetic => 0
  end.

End PageNumbers.

(** ** Live preview: what [drawAnnotations] asks the canvas to draw *)

(** The canvas calls for the annotations, with the coordinates in device
    pixels (top-left origin, y pointing down). *)
Inductive CanvasCall :=
| CanvasDrawImage (imageData : JS.jsstring) (x y width height : Q)
| CanvasFillText (line : JS.jsstring) (x y : Q) (bold : bool) (fontPx : Q)
    (fontFamily color : JS.jsstring)
| CanvasStroke (points : list (Q * Q)) (color : JS.jsstring) (lineWidth : Q).

(** A family name between double quotes (code unit 34). *)
Definition quoted (name : JS.jsstring) : JS.jsstring :=
  [34%N] ++ name ++ [34%N].

Definition getCanvasFontFamily (fontId : JS.jsstring) : JS.jsstring :=
  if JS.includes (JS.lit "Helvetica") fontId
  then JS.lit "Arial, Helvetica, sans-serif"
  else if JS.includes (JS.lit "Times") fontId
  then quoted (JS.lit "Times New Roman") ++ JS.lit ", Times, serif"
  else if JS.includes (JS.lit "Courier") fontId
  then quoted (JS.lit "Courier New") ++ JS.lit ", Courier, monospace"
  else JS.lit "Arial, Helvetica, sans-serif".

(** The lines of a text with their indices, as [lines.forEach] visits
    them. *)
Definition indexedLines (text : JS.jsstring) : list (nat * JS.jsstring) :=
  let '(first, others) := JS.split_lines text in
  zip (seq 0 (S (length others))) (first :: others).

(** The body of the loop over the page's annotations, for an annotation
    that is shown; [currentScale] is the zoom times the pixel ratio.  An
    image is drawn once it has loaded; a text is drawn line by line from
    its top ([textBaseline = 'top']).  The frame and the resize handle
    drawn around the selected annotation are left out. *)
Definition previewAnnotation (currentScale : Q) (ann : Annotation)
    : list CanvasCall :=
  match ann with
  | AImage ann =>
      [CanvasDrawImage (i_imageData ann) (i_x ann * currentScale)
         (i_y ann * currentScale) (i_width ann * currentScale)
         (i_height ann * currentScale)]
  | AText ann =>
      let lineHeight := (t_size ann * 1.2 * currentScale)%Q in
      map (fun '(index, line) =>
             CanvasFillText line (t_x ann * currentScale)
               (t_y ann * currentScale
                + inject_Z (Z.of_nat index) * lineHeight)
               (t_bold ann) (t_size ann * currentScale)
               (getCanvasFontFamily (t_font ann)) (t_color ann))
        (indexedLines (t_text ann))
  | ADraw ann =>
      if (1 <? length (d_path ann))%nat
      then [CanvasStroke
              (map (fun p => (pt_x p * currentScale, pt_y p * currentScale)%Q)
                 (d_path ann))
              (d_color ann) (d_lineWidth ann * currentScale)]
      else []
  end.

(** The loop: the annotation being edited in place is skipped. *)
Definition previewAnnotations (currentScale : Q) (isEditingText : bool)
    (selectedAnnotationIndex : Z) (pageAnnotations : list Annotation)
    : list (list CanvasCall) :=
  imap (fun i ann =>
          if isEditingText && (selectedAnnotationIndex =? Z.of_nat i)%Z
          then []
          else previewAnnotation currentScale ann)
    pageAnnotations.

(** A canvas point and a point of PDF page space that show the same place
    of a page of height [pdfPageHeight], at [currentScale] pixels a point:
    x is scaled, y is flipped and scaled. *)
Definition samePlace (currentScale pdfPageHeight : Q) (canvas pdf : Q * Q)
    : Prop :=
  (fst canvas == fst pdf * currentScale
   /\ snd canvas == (pdfPageHeight - snd pdf) * currentScale)%Q.

(** A canvas point and the coordinates written in a command of the SVG
    path of a stroke that come from one stored point [(x, y)]: the canvas
    has [(x, y)] scaled and the path has [(x, pdfPageHeight - y)].  These
    are the numbers of the path string; where [drawSvgPath] paints a path
    is pdf-lib's matter and is not said here. *)
Definition fromOnePoint (currentScale pdfPageHeight : Q) (canvas path : Q * Q)
    : Prop :=
  exists x y : Q,
    (fst canvas == x * currentScale /\ snd canvas == y * currentScale
     /\ fst path == x /\ snd path == pdfPageHeight - y)%Q.

(** The preview's calls for an annotation agree with the export's call.
    An image covers the same rectangle of the page.  A text has its first
    line's top where the export has its baseline plus the font size, at
    the same font size, and its lines as far apart.  For a stroke the
    canvas polyline and the path string list the same stored points, with
    the same width. *)
Definition agreesWithCall (currentScale pdfPageHeight : Q)
    (shown : list CanvasCall) (drawn : DrawCall) : Prop :=
  match drawn with
  | DrawImage _ imageData x y width height =>
      exists px py pwidth pheight,
        shown = [CanvasDrawImage imageData px py pwidth pheight]
        /\ samePlace currentScale pdfPageHeight (px, py) (x, (y + height)%Q)
        /\ (pwidth == width * currentScale)%Q
        /\ (pheight == height * currentScale)%Q
  | DrawText text x y _ size color lineHeight =>
      length shown = length (indexedLines text)
      /\ forall index line,
           indexedLines text !! index = Some (index, line) ->
           exists py family bold,
             shown !! index
             = Some (CanvasFillText line (x * currentScale) py bold
                       (size * currentScale) family color)
             /\ (py == (pdfPageHeight - (y + size)) * currentScale
                       + inject_Z (Z.of_nat index) * (lineHeight * currentScale))%Q
  | DrawSvgPath svgPath borderWidth =>
      exists points color lineWidth,
        shown = [CanvasStroke points color lineWidth]
        /\ Forall2 (fromOnePoint currentScale pdfPageHeight) points
             (map svg_point svgPath)
        /\ (lineWidth == borderWidth * currentScale)%Q
  end.

(** ** The export through pdf-lib

    [exportAnnotation] gives the arguments the annotation loop of
    [savePdf] hands to pdf-lib.  The loop also has pdf-lib embed the image
    or the font before it draws, and pdf-lib encodes a text in the font
    it is drawn with.  Each of these calls can raise; the export is then
    abandoned in the [catch] of [savePdf]. *)

Class PdfLib := {
  PdfFont : Type;
  PdfImage : Type;
  (** [newPdfDoc.embedFont(fontId)]; here and below [None] is an
      exception. *)
  embedFont : JS.jsstring -> option PdfFont;
  (** [newPdfDoc.embedPng(imageData)] and [newPdfDoc.embedJpg(imageData)]. *)
  embedPng : JS.jsstring -> option PdfImage;
  embedJpg : JS.jsstring -> option PdfImage;
  (** [page.drawText(text, { font, ... })] encodes the text with the font:
      [false] when it raises.  [drawImage] of an embedded image and
      [drawSvgPath] are taken not to raise. *)
  encodes : PdfFont -> JS.jsstring -> bool
}.

Section SavePdf.

Context {library : PdfLib}.

(** [fontCache]: a [Map] from font ids to embedded fonts, in insertion
    order. *)
Definition FontCache : Type := list (JS.jsstring * PdfFont).

Fixpoint cacheGet (fontId : JS.jsstring) (fontCache : FontCache)
    : option PdfFont :=
  match fontCache with
  | [] => None
  | (id, font) :: rest =>
      if bool_decide (id = fontId) then Some font else cacheGet fontId rest
  end.

(** [getFont]: the cached font, or the one pdf-lib embeds, which is then
    cached. *)
Definition getFont (fontId : JS.jsstring) (fontCache : FontCache)
    : option (PdfFont * FontCache) :=
  match cacheGet fontId fontCache with
  | Some font => Some (font, fontCache)
  | None =>
      font ← embedFont fontId;
      Some (font, fontCache ++ [(fontId, font)])
  end.

(** The body of the inner loop with its calls to pdf-lib: the drawing call
    of [exportAnnotation], made once the image is embedded, or the font is
    obtained and encodes the text.  [None] when the loop raises. *)
Definition savePdfAnnotation (pdfPageHeight : Q) (ann : Annotation)
    (fontCache : FontCache) : option (DrawCall * FontCache) :=
  match ann with
  | AImage i =>
      _ ← (if JS.startsWith (JS.lit "data:image/png") (i_imageData i)
           then embedPng (i_imageData i) else embedJpg (i_imageData i));
      call ← exportAnnotation pdfPageHeight ann;
      Some (call, fontCache)
  | AText t =>
      '(pdfFont, fontCache') ← getFont (exportFontId t) fontCache;
      if encodes pdfFont (t_text t)
      then call ← exportAnnotation pdfPageHeight ann;
           Some (call, fontCache')
      else None
  | ADraw _ =>
      call ← exportAnnotation pdfPageHeight ann;
      Some (call, fontCache)
  end.

(** The inner loop, over the annotations of a page. *)
Fixpoint savePdfPage (pdfPageHeight : Q) (pageAnns : list Annotation)
    (fontCache : FontCache) : option (list DrawCall * FontCache) :=
  match pageAnns with
  | [] => Some ([], fontCache)
  | ann :: rest =>
      '(call, fontCache1) ← savePdfAnnotation pdfPageHeight ann fontCache;
      '(calls, fontCache2) ← savePdfPage pdfPageHeight rest fontCache1;
      Some (call :: calls, fontCache2)
  end.

(** The outer loop, as [exportAnnotations]: one page height per page of
    the new document. *)
Fixpoint savePdfAnnotations (pageHeights : list Q) (anns : Annotations)
    (fontCache : FontCache) : option (list (list DrawCall) * FontCache) :=
  match pageHeights with
  | [] => Some ([], fontCache)
  | pdfPageHeight :: pageHeights' =>
      '(calls, fontCache1) ←
        savePdfPage pdfPageHeight (default [] (head anns)) fontCache;
      '(others, fontCache2) ←
        savePdfAnnotations pageHeights' (tail anns) fontCache1;
      Some (calls :: others, fontCache2)
  end.

(** pdf-lib takes what the loop asks of it for the annotation: it embeds
    the font of the id built for a text and that font encodes the text; it
    embeds an image as a PNG or as a JPEG, as the start of the data URL
    has it.  Nothing is asked for a stroke. *)
Definition accepted (ann : Annotation) : Prop :=
  match ann with
  | AText t =>
      exists pdfFont,
        embedFont (exportFontId t) = Some pdfFont
        /\ encodes pdfFont (t_text t) = true
  | AImage i =>
      is_Some (if JS.startsWith (JS.lit "data:image/png") (i_imageData i)
               then embedPng (i_imageData i) else embedJpg (i_imageData i))
  | ADraw _ => True
  end.

(** Every font of the cache is the one pdf-lib embeds for its id, as for a
    cache that only [getFont] has filled. *)
Definition filledByGetFont (fontCache : FontCache) : Prop :=
  forall fontId pdfFont,
    cacheGet fontId fontCache = Some pdfFont ->
    embedFont fontId = Some pdfFont.

End SavePdf.

(** ** Collaborators

    The document libraries, the display and the canvas text measurer, as
    the component uses them. *)
Class Collaborators := {
  (** pdf.js documents (rendering) and pdf-lib documents (mutation). *)
  PdfJsDoc : Type;
  PdfLibDoc : Type;
  PdfBytes : Type;
  (** pdf.js: [pdf.numPages]. *)
  numPages : PdfJsDoc -> nat;
  (** [Promise.all([getDocument(bytes).promise, PDFDocument.load(bytes)])];
      [None] when either promise rejects. *)
  loadDocuments : PdfBytes -> option (PdfJsDoc * PdfLibDoc);
  (** pdf-lib: [doc.save()]. *)
  saveDocument : PdfLibDoc -> option PdfBytes;
  (** [getPage(index).setRotation(degrees(angle + delta))]: delta, then
      the page index.  Here and below [None] is an exception, taken to
      leave the document as it was. *)
  rotatePageBy : Z -> Z -> PdfLibDoc -> option PdfLibDoc;
  (** [doc.removePage(index)]. *)
  removePage : Z -> PdfLibDoc -> option PdfLibDoc;
  (** [doc.getPageCount()]. *)
  getPageCount : PdfLibDoc -> nat;
  (** [copyPages(doc, [index])] then [insertPage(index + 1, copy)]. *)
  copyAndInsertPage : Z -> PdfLibDoc -> option PdfLibDoc;
  (** [PDFDocument.load(buffer)], [copyPages] of all its pages, and one
      [insertPage(insertionIndex + i, page)] per copied page. *)
  insertPagesOf : PdfBytes -> nat -> PdfLibDoc -> option PdfLibDoc;
  (** [window.devicePixelRatio || 1]. *)
  devicePixelRatio : Q;
  (** The draw canvas's [measureText(line).width] under the font built
      from (bold, pixel size, font id); [None] when the canvas is not
      mounted. *)
  canvasMeasure : option (bool -> Q -> JS.jsstring -> JS.jsstring -> Q)
}.

Section Engine.

Context {collaborators : Collaborators}.

(** The component's signals and fields that the modelled handlers read or
    write.  Tool choice, panel toggles, decoration settings, the signature
    pad and the password dialog are left out: no modelled handler reads
    them. *)
Record AppState := mkAppState {
  pdfDoc : option PdfJsDoc;
  pdfLibDoc : option PdfLibDoc;
  currentPageNum : nat;
  totalPages : nat;
  scale : Q;
  activeTab : Tab;
  isSaving : bool;
  pageOrder : list nat;
  annotations : Annotations;
  isDrawing : bool;
  currentDrawingPath : list Point;
  isEditingText : bool;
  textEditingState : option TextEditingState;
  textSettings : TextSettings;
  selectedAnnotationIndex : Z;
  dragMode : DragMode;
  dragStartPos : Point;
  dragStartAnn : Rect;
  undoStack : list Annotations;
  redoStack : list Annotations
}.

(** Field updates ([signal.set]). *)

Definition set_pdfDoc v (st : AppState) : AppState :=
  {| pdfDoc := v; pdfLibDoc := pdfLibDoc st; currentPageNum := currentPageNum
     st; totalPages := totalPages st; scale := scale st; activeTab :=
     activeTab st; isSaving := isSaving st; pageOrder := pageOrder st;
     annotations := annotations st; isDrawing := isDrawing st;
     currentDrawingPath := currentDrawingPath st; isEditingText :=
     isEditingText st; textEditingState := textEditingState st; textSettings
     := textSettings st; selectedAnnotationIndex := selectedAnnotationIndex
     st; dragMode := dragMode st; dragStartPos := dragStartPos st;
     dragStartAnn := dragStartAnn st; undoStack := undoStack st; redoStack :=
     redoStack st |}.

Definition set_pdfLibDoc v (st : AppState) : AppState :=
  {| pdfDoc := pdfDoc st; pdfLibDoc := v; currentPageNum := currentPageNum st;
     totalPages := totalPages st; scale := scale st; activeTab := activeTab
     st; isSaving := isSaving st; pageOrder := pageOrder st; annotations :=
     annotations st; isDrawing := isDrawing st; currentDrawingPath :=
     currentDrawingPath st; isEditingText := isEditingText st;
     textEditingState := textEditingState st; textSettings := textSettings st;
     selectedAnnotationIndex := selectedAnnotationIndex st; dragMode :=
     dragMode st; dragStartPos := dragStartPos st; dragStartAnn :=
     dragStartAnn st; undoStack := undoStack st; redoStack := redoStack st |}.

Definition set_currentPageNum v (st : AppState) : AppState :=
  {| pdfDoc := pdfDoc st; pdfLibDoc := pdfLibDoc st; currentPageNum := v;
     totalPages := totalPages st; scale := scale st; activeTab := activeTab
     st; isSaving := isSaving st; pageOrder := pageOrder st; annotations :=
     annotations st; isDrawing := isDrawing st; currentDrawingPath :=
     currentDrawingPath st; isEditingText := isEditingText st;
     textEditingState := textEditingState st; textSettings := textSettings st;
     selectedAnnotationIndex := selectedAnnotationIndex st; dragMode :=
     dragMode st; dragStartPos := dragStartPos st; dragStartAnn :=
     dragStartAnn st; undoStack := undoStack st; redoStack := redoStack st |}.

Definition set_totalPages v (st : AppState) : AppState :=
  {| pdfDoc := pdfDoc st; pdfLibDoc := pdfLibDoc st; currentPageNum :=
     currentPageNum st; totalPages := v; scale := scale st; activeTab :=
     activeTab st; isSaving := isSaving st; pageOrder := pageOrder st;
     annotations := annotations st; isDrawing := isDrawing st;
     currentDrawingPath := currentDrawingPath st; isEditingText :=
     isEditingText st; textEditingState := textEditingState st; textSettings
     := textSettings st; selectedAnnotationIndex := selectedAnnotationIndex
     st; dragMode := dragMode st; dragStartPos := dragStartPos st;
     dragStartAnn := dragStartAnn st; undoStack := undoStack st; redoStack :=
     redoStack st |}.

Definition set_scale v (st : AppState) : AppState :=
  {| pdfDoc := pdfDoc st; pdfLibDoc := pdfLibDoc st; currentPageNum :=
     currentPageNum st; totalPages := totalPages st; scale := v; activeTab :=
     activeTab st; isSaving := isSaving st; pageOrder := pageOrder st;
     annotations := annotations st; isDrawing := isDrawing st;
     currentDrawingPath := currentDrawingPath st; isEditingText :=
     isEditingText st; textEditingState := textEditingState st; textSettings
     := textSettings st; selectedAnnotationIndex := selectedAnnotationIndex
     st; dragMode := dragMode st; dragStartPos := dragStartPos st;
     dragStartAnn := dragStartAnn st; undoStack := undoStack st; redoStack :=
     redoStack st |}.

Definition set_activeTab v (st : AppState) : AppState :=
  {| pdfDoc := pdfDoc st; pdfLibDoc := pdfLibDoc st; currentPageNum :=
     currentPageNum st; totalPages := totalPages st; scale := scale st;
     activeTab := v; isSaving := isSaving st; pageOrder := pageOrder st;
     annotations := annotations st; isDrawing := isDrawing st;
     currentDrawingPath := currentDrawingPath st; isEditingText :=
     isEditingText st; textEditingState := textEditingState st; textSettings
     := textSettings st; selectedAnnotationIndex := selectedAnnotationIndex
     st; dragMode := dragMode st; dragStartPos := dragStartPos st;
     dragStartAnn := dragStartAnn st; undoStack := undoStack st; redoStack :=
     redoStack st |}.

Definition set_isSaving v (st : AppState) : AppState :=
  {| pdfDoc := pdfDoc st; pdfLibDoc := pdfLibDoc st; currentPageNum :=
     currentPageNum st; totalPages := totalPages st; scale := scale st;
     activeTab := activeTab st; isSaving := v; pageOrder := pageOrder st;
     annotations := annotations st; isDrawing := isDrawing st;
     currentDrawingPath := currentDrawingPath st; isEditingText :=
     isEditingText st; textEditingState := textEditingState st; textSettings
     := textSettings st; selectedAnnotationIndex := selectedAnnotationIndex
     st; dragMode := dragMode st; dragStartPos := dragStartPos st;
     dragStartAnn := dragStartAnn st; undoStack := undoStack st; redoStack :=
     redoStack st |}.

Definition set_pageOrder v (st : AppState) : AppState :=
  {| pdfDoc := pdfDoc st; pdfLibDoc := pdfLibDoc st; currentPageNum :=
     currentPageNum st; totalPages := totalPages st; scale := scale st;
     activeTab := activeTab st; isSaving := isSaving st; pageOrder := v;
     annotations := annotations st; isDrawing := isDrawing st;
     currentDrawingPath := currentDrawingPath st; isEditingText :=
     isEditingText st; textEditingState := textEditingState st; textSettings
     := textSettings st; selectedAnnotationIndex := selectedAnnotationIndex
     st; dragMode := dragMode st; dragStartPos := dragStartPos st;
     dragStartAnn := dragStartAnn st; undoStack := undoStack st; redoStack :=
     redoStack st |}.

Definition set_annotations v (st : AppState) : AppState :=
  {| pdfDoc := pdfDoc st; pdfLibDoc := pdfLibDoc st; currentPageNum :=
     currentPageNum st; totalPages := totalPages st; scale := scale st;
     activeTab := activeTab st; isSaving := isSaving st; pageOrder :=
     pageOrder st; annotations := v; isDrawing := isDrawing st;
     currentDrawingPath := currentDrawingPath st; isEditingText :=
     isEditingText st; textEditingState := textEditingState st; textSettings
     := textSettings st; selectedAnnotationIndex := selectedAnnotationIndex
     st; dragMode := dragMode st; dragStartPos := dragStartPos st;
     dragStartAnn := dragStartAnn st; undoStack := undoStack st; redoStack :=
     redoStack st |}.

Definition set_isDrawing v (st : AppState) : AppState :=
  {| pdfDoc := pdfDoc st; pdfLibDoc := pdfLibDoc st; currentPageNum :=
     currentPageNum st; totalPages := totalPages st; scale := scale st;
     activeTab := activeTab st; isSaving := isSaving st; pageOrder :=
     pageOrder st; annotations := annotations st; isDrawing := v;
     currentDrawingPath := currentDrawingPath st; isEditingText :=
     isEditingText st; textEditingState := textEditingState st; textSettings
     := textSettings st; selectedAnnotationIndex := selectedAnnotationIndex
     st; dragMode := dragMode st; dragStartPos := dragStartPos st;
     dragStartAnn := dragStartAnn st; undoStack := undoStack st; redoStack :=
     redoStack st |}.

Definition set_currentDrawingPath v (st : AppState) : AppState :=
  {| pdfDoc := pdfDoc st; pdfLibDoc := pdfLibDoc st; currentPageNum :=
     currentPageNum st; totalPages := totalPages st; scale := scale st;
     activeTab := activeTab st; isSaving := isSaving st; pageOrder :=
     pageOrder st; annotations := annotations st; isDrawing := isDrawing st;
     currentDrawingPath := v; isEditingText := isEditingText st;
     textEditingState := textEditingState st; textSettings := textSettings st;
     selectedAnnotationIndex := selectedAnnotationIndex st; dragMode :=
     dragMode st; dragStartPos := dragStartPos st; dragStartAnn :=
     dragStartAnn st; undoStack := undoStack st; redoStack := redoStack st |}.

Definition set_isEditingText v (st : AppState) : AppState :=
  {| pdfDoc := pdfDoc st; pdfLibDoc := pdfLibDoc st; currentPageNum :=
     currentPageNum st; totalPages := totalPages st; scale := scale st;
     activeTab := activeTab st; isSaving := isSaving st; pageOrder :=
     pageOrder st; annotations := annotations st; isDrawing := isDrawing st;
     currentDrawingPath := currentDrawingPath st; isEditingText := v;
     textEditingState := textEditingState st; textSettings := textSettings st;
     selectedAnnotationIndex := selectedAnnotationIndex st; dragMode :=
     dragMode st; dragStartPos := dragStartPos st; dragStartAnn :=
     dragStartAnn st; undoStack := undoStack st; redoStack := redoStack st |}.

Definition set_textEditingState v (st : AppState) : AppState :=
  {| pdfDoc := pdfDoc st; pdfLibDoc := pdfLibDoc st; currentPageNum :=
     currentPageNum st; totalPages := totalPages st; scale := scale st;
     activeTab := activeTab st; isSaving := isSaving st; pageOrder :=
     pageOrder st; annotations := annotations st; isDrawing := isDrawing st;
     currentDrawingPath := currentDrawingPath st; isEditingText :=
     isEditingText st; textEditingState := v; textSettings := textSettings st;
     selectedAnnotationIndex := selectedAnnotationIndex st; dragMode :=
     dragMode st; dragStartPos := dragStartPos st; dragStartAnn :=
     dragStartAnn st; undoStack := undoStack st; redoStack := redoStack st |}.

Definition set_textSettings v (st : AppState) : AppState :=
  {| pdfDoc := pdfDoc st; pdfLibDoc := pdfLibDoc st; currentPageNum :=
     currentPageNum st; totalPages := totalPages st; scale := scale st;
     activeTab := activeTab st; isSaving := isSaving st; pageOrder :=
     pageOrder st; annotations := annotations st; isDrawing := isDrawing st;
     currentDrawingPath := currentDrawingPath st; isEditingText :=
     isEditingText st; textEditingState := textEditingState st; textSettings
     := v; selectedAnnotationIndex := selectedAnnotationIndex st; dragMode :=
     dragMode st; dragStartPos := dragStartPos st; dragStartAnn :=
     dragStartAnn st; undoStack := undoStack st; redoStack := redoStack st |}.

Definition set_selectedAnnotationIndex v (st : AppState) : AppState :=
  {| pdfDoc := pdfDoc st; pdfLibDoc := pdfLibDoc st; currentPageNum :=
     currentPageNum st; totalPages := totalPages st; scale := scale st;
     activeTab := activeTab st; isSaving := isSaving st; pageOrder :=
     pageOrder st; annotations := annotations st; isDrawing := isDrawing st;
     currentDrawingPath := currentDrawingPath st; isEditingText :=
     isEditingText st; textEditingState := textEditingState st; textSettings
     := textSettings st; selectedAnnotationIndex := v; dragMode := dragMode
     st; dragStartPos := dragStartPos st; dragStartAnn := dragStartAnn st;
     undoStack := undoStack st; redoStack := redoStack st |}.

Definition set_dragMode v (st : AppState) : AppState :=
  {| pdfDoc := pdfDoc st; pdfLibDoc := pdfLibDoc st; currentPageNum :=
     currentPageNum st; totalPages := totalPages st; scale := scale st;
     activeTab := activeTab st; isSaving := isSaving st; pageOrder :=
     pageOrder st; annotations := annotations st; isDrawing := isDrawing st;
     currentDrawingPath := currentDrawingPath st; isEditingText :=
     isEditingText st; textEditingState := textEditingState st; textSettings
     := textSettings st; selectedAnnotationIndex := selectedAnnotationIndex
     st; dragMode := v; dragStartPos := dragStartPos st; dragStartAnn :=
     dragStartAnn st; undoStack := undoStack st; redoStack := redoStack st |}.

Definition set_dragStartPos v (st : AppState) : AppState :=
  {| pdfDoc := pdfDoc st; pdfLibDoc := pdfLibDoc st; currentPageNum :=
     currentPageNum st; totalPages := totalPages st; scale := scale st;
     activeTab := activeTab st; isSaving := isSaving st; pageOrder :=
     pageOrder st; annotations := annotations st; isDrawing := isDrawing st;
     currentDrawingPath := currentDrawingPath st; isEditingText :=
     isEditingText st; textEditingState := textEditingState st; textSettings
     := textSettings st; selectedAnnotationIndex := selectedAnnotationIndex
     st; dragMode := dragMode st; dragStartPos := v; dragStartAnn :=
     dragStartAnn st; undoStack := undoStack st; redoStack := redoStack st |}.

Definition set_dragStartAnn v (st : AppState) : AppState :=
  {| pdfDoc := pdfDoc st; pdfLibDoc := pdfLibDoc st; currentPageNum :=
     currentPageNum st; totalPages := totalPages st; scale := scale st;
     activeTab := activeTab st; isSaving := isSaving st; pageOrder :=
     pageOrder st; annotations := annotations st; isDrawing := isDrawing st;
     currentDrawingPath := currentDrawingPath st; isEditingText :=
     isEditingText st; textEditingState := textEditingState st; textSettings
     := textSettings st; selectedAnnotationIndex := selectedAnnotationIndex
     st; dragMode := dragMode st; dragStartPos := dragStartPos st;
     dragStartAnn := v; undoStack := undoStack st; redoStack := redoStack st
     |}.

Definition set_undoStack v (st : AppState) : AppState :=
  {| pdfDoc := pdfDoc st; pdfLibDoc := pdfLibDoc st; currentPageNum :=
     currentPageNum st; totalPages := totalPages st; scale := scale st;
     activeTab := activeTab st; isSaving := isSaving st; pageOrder :=
     pageOrder st; annotations := annotations st; isDrawing := isDrawing st;
     currentDrawingPath := currentDrawingPath st; isEditingText :=
     isEditingText st; textEditingState := textEditingState st; textSettings
     := textSettings st; selectedAnnotationIndex := selectedAnnotationIndex
     st; dragMode := dragMode st; dragStartPos := dragStartPos st;
     dragStartAnn := dragStartAnn st; undoStack := v; redoStack := redoStack
     st |}.

Definition set_redoStack v (st : AppState) : AppState :=
  {| pdfDoc := pdfDoc st; pdfLibDoc := pdfLibDoc st; currentPageNum :=
     currentPageNum st; totalPages := totalPages st; scale := scale st;
     activeTab := activeTab st; isSaving := isSaving st; pageOrder :=
     pageOrder st; annotations := annotations st; isDrawing := isDrawing st;
     currentDrawingPath := currentDrawingPath st; isEditingText :=
     isEditingText st; textEditingState := textEditingState st; textSettings
     := textSettings st; selectedAnnotationIndex := selectedAnnotationIndex
     st; dragMode := dragMode st; dragStartPos := dragStartPos st;
     dragStartAnn := dragStartAnn st; undoStack := undoStack st; redoStack :=
     v |}.

(** The field initialisers of the component. *)
Definition initialState : AppState :=
  {| pdfDoc := None; pdfLibDoc := None; currentPageNum := 1; totalPages := 0;
     scale := 1.5; activeTab := TabEdit; isSaving := false; pageOrder := [];
     annotations := []; isDrawing := false; currentDrawingPath := [];
     isEditingText := false; textEditingState := None;
     textSettings := mkTextSettings (JS.lit "Helvetica") 16 (JS.lit "#000000") false;
     selectedAnnotationIndex := (-1)%Z; dragMode := DragNone;
     dragStartPos := mkPoint 0 0; dragStartAnn := mkRect 0 0 0 0;
     undoStack := []; redoStack := [] |}.

(** ** Derived signals *)

Definition isPdfLoaded (st : AppState) : bool :=
  match pdfDoc st with Some _ => true | None => false end.

Definition canUndo (st : AppState) : bool := (0 <? length (undoStack st))%nat.

Definition canRedo (st : AppState) : bool := (0 <? length (redoStack st))%nat.

(** [this.pageOrder().indexOf(this.currentPageNum())]. *)
Definition pageIndexOf (st : AppState) : option nat :=
  JS.indexOf (currentPageNum st) (pageOrder st).

(** [arr[i]] for a signed index: [None] is [undefined]. *)
Definition lookupZ {A} (i : Z) (arr : list A) : option A :=
  if (i <? 0)%Z then None else arr !! Z.to_nat i.

(** ** Zoom *)

Definition zoomIn (st : AppState) : AppState :=
  set_scale (Qmin 5 (scale st + 0.25)) st.

Definition zoomOut (st : AppState) : AppState :=
  set_scale (Qmax 0.25 (scale st - 0.25)) st.

Inductive ZoomOp := ZoomIn | ZoomOut.

Definition applyZoom (st : AppState) (op : ZoomOp) : AppState :=
  match op with ZoomIn => zoomIn st | ZoomOut => zoomOut st end.

(** ** Loading a document *)

Definition loadPdf (pdfBytes : PdfBytes) (isNewFile : bool)
    (pageToLoad : option nat) (st : AppState) : AppState * list Dialog :=
  let st0 := set_pdfLibDoc None (set_pdfDoc None (set_isSaving true st)) in
  match loadDocuments pdfBytes with
  | Some (pdf, pdfLib) =>
      let st1 := set_totalPages (numPages pdf) st0 in
      let st2 :=
        if isNewFile then
          set_selectedAnnotationIndex (-1)%Z
            (set_redoStack []
               (set_undoStack []
                  (set_currentPageNum (default 1%nat pageToLoad)
                     (set_pageOrder (seq 1 (numPages pdf))
                        (set_annotations (replicate (numPages pdf) []) st1)))))
        else set_currentPageNum (default (currentPageNum st1) pageToLoad) st1 in
      (set_isSaving false (set_pdfLibDoc (Some pdfLib) (set_pdfDoc (Some pdf) st2)),
       [])
  | None => (set_isSaving false (set_totalPages 0%nat st0), [AlertLoadFailed])
  end.

(** ** History *)

(** The two statements every committing handler starts with: push a copy
    of the model on the undo stack, empty the redo stack. *)
Definition pushHistory (st : AppState) : AppState :=
  set_redoStack []
    (set_undoStack (undoStack st ++ [deepClone (annotations st)]) st).

Definition addAnnotation (annotation : Annotation) (st : AppState)
    : option AppState :=
  let st1 := pushHistory st in
  match pageIndexOf st1 with
  | None => Some st1
  | Some pageIndex =>
      pageAnns ← annotations st1 !! pageIndex;
      Some (set_annotations
              (<[pageIndex := pageAnns ++ [annotation]]> (annotations st1)) st1)
  end.

Definition undo (st : AppState) : AppState :=
  match last (undoStack st) with
  | None => st
  | Some lastState =>
      set_selectedAnnotationIndex (-1)%Z
        (set_undoStack (JS.slice_init (undoStack st))
           (set_annotations lastState
              (set_redoStack (redoStack st ++ [deepClone (annotations st)]) st)))
  end.

Definition redo (st : AppState) : AppState :=
  match last (redoStack st) with
  | None => st
  | Some nextState =>
      set_selectedAnnotationIndex (-1)%Z
        (set_redoStack (JS.slice_init (redoStack st))
           (set_annotations nextState
              (set_undoStack (undoStack st ++ [deepClone (annotations st)]) st)))
  end.

(** ** Page order *)

(** [None]: the dragged index is outside an array, and the source would
    splice [undefined] into it. *)
Definition reorderPages (dragIndex dropIndex : nat) (st : AppState)
    : option AppState :=
  if (dropIndex =? dragIndex)%nat || (dropIndex =? dragIndex + 1)%nat
  then Some st
  else
    let adjustedDropIndex :=
      if (dragIndex <? dropIndex)%nat then (dropIndex - 1)%nat else dropIndex in
    newOrder ←
      (let '(moved, newOrder) := JS.splice_remove dragIndex (pageOrder st) in
       movedPage ← moved;
       Some (JS.splice_insert adjustedDropIndex movedPage newOrder));
    newAnns ←
      (let '(moved, newAnns) := JS.splice_remove dragIndex (annotations st) in
       movedAnn ← moved;
       Some (JS.splice_insert adjustedDropIndex movedAnn newAnns));
    Some (set_annotations newAnns (set_pageOrder newOrder st)).

(** ** Page-structure operations *)

(** [confirmAnswer] is what the user answers if [confirm] is shown; the
    dialog is shown only when some page has an annotation. *)
Definition confirmAndProceedWithOrganize (confirmAnswer : bool)
    (action : AppState -> AppState * list Dialog) (st : AppState)
    : AppState * list Dialog :=
  if existsb (fun p : list Annotation => (0 <? length p)%nat) (annotations st)
  then
    if confirmAnswer
    then let '(st', shown) := action st in
         (st', ConfirmDiscardAnnotations :: shown)
    else (st, [ConfirmDiscardAnnotations])
  else action st.

(** The common tail of the four operations: the mutated pdf-lib document
    (mutated in place, so the signal sees it) is saved and reloaded as a
    new file; any failure before the reload alerts [failed]; the busy flag
    is cleared at the end. *)
Definition saveAndReload (mutated : option PdfLibDoc) (pageToLoad : PdfLibDoc -> option nat)
    (failed : Dialog) (st : AppState) : AppState * list Dialog :=
  match mutated with
  | None => (set_isSaving false st, [failed])
  | Some doc =>
      match saveDocument doc with
      | None => (set_isSaving false (set_pdfLibDoc (Some doc) st), [failed])
      | Some pdfBytes =>
          let '(st', shown) :=
            loadPdf pdfBytes true (pageToLoad doc) (set_pdfLibDoc (Some doc) st) in
          (set_isSaving false st', shown)
      end
  end.

Definition rotatePage (confirmAnswer : bool) (degrees : Z)
    (pageNumToRotate : option nat) (st : AppState) : AppState * list Dialog :=
  let pageToRotate := default (currentPageNum st) pageNumToRotate in
  confirmAndProceedWithOrganize confirmAnswer
    (fun st =>
       match pdfLibDoc st with
       | None => (st, [])
       | Some doc =>
           saveAndReload (rotatePageBy degrees (Z.of_nat pageToRotate - 1) doc)
             (fun _ => Some (currentPageNum st)) AlertRotateFailed st
       end) st.

Definition deletePage (confirmAnswer : bool) (pageNumToDelete : nat)
    (st : AppState) : AppState * list Dialog :=
  if (totalPages st <=? 1)%nat then (st, [AlertLastPage])
  else
    confirmAndProceedWithOrganize confirmAnswer
      (fun st =>
         match pdfLibDoc st with
         | None => (st, [])
         | Some doc =>
             saveAndReload (removePage (Z.of_nat pageNumToDelete - 1) doc)
               (fun doc' => Some (Nat.min pageNumToDelete (getPageCount doc')))
               AlertDeleteFailed st
         end) st.

Definition duplicatePage (confirmAnswer : bool) (pageNumToDuplicate : nat)
    (st : AppState) : AppState * list Dialog :=
  confirmAndProceedWithOrganize confirmAnswer
    (fun st =>
       match pdfLibDoc st with
       | None => (st, [])
       | Some doc =>
           let pageIndexToDuplicate := (Z.of_nat pageNumToDuplicate - 1)%Z in
           saveAndReload (copyAndInsertPage pageIndexToDuplicate doc)
             (fun _ => Some (Z.to_nat (pageIndexToDuplicate + 2)))
             AlertDuplicateFailed st
       end) st.

Definition processAndInsertPdf (confirmAnswer : bool) (pdfBuffer : PdfBytes)
    (insertionIndex : nat) (st : AppState) : AppState * list Dialog :=
  confirmAndProceedWithOrganize confirmAnswer
    (fun st =>
       match pdfLibDoc st with
       | None => (set_isSaving false st, [])
       | Some doc =>
           saveAndReload (insertPagesOf pdfBuffer insertionIndex doc)
             (fun _ => Some (insertionIndex + 1)%nat) AlertInsertFailed st
       end) st.

(** ** Deleting with the keyboard *)

Definition onDeleteKeyPressed (confirmAnswer : bool) (st : AppState)
    : option (AppState * list Dialog) :=
  let annIndex := selectedAnnotationIndex st in
  if (-1 <? annIndex)%Z then
    let st1 := pushHistory st in
    st2 ←
      match pageIndexOf st1 with
      | None => Some st1
      | Some pageIndex =>
          pageAnns ← annotations st1 !! pageIndex;
          Some (set_annotations
                  (<[pageIndex := delete (Z.to_nat annIndex) pageAnns]>
                     (annotations st1)) st1)
      end;
    Some (set_selectedAnnotationIndex (-1)%Z st2, [])
  else
    match activeTab st with
    | TabOrganize =>
        if isPdfLoaded st && (1 <? totalPages st)%nat
        then Some (deletePage confirmAnswer (currentPageNum st) st)
        else Some (st, [])
    | _ => Some (st, [])
    end.

(** ** Pointer moves *)

(** [pos] is [getMousePos]'s result ([None]: no canvas). *)
Definition onMouseMove (pos : option Point) (st : AppState) : option AppState :=
  match dragMode st, isDrawing st, pos with
  | DragNone, false, _ => Some st
  | _, _, None => Some st
  | DragNone, true, Some pos =>
      let posUnscaled := mkPoint (pt_x pos / scale st) (pt_y pos / scale st) in
      Some (set_currentDrawingPath (currentDrawingPath st ++ [posUnscaled]) st)
  | mode, _, Some pos =>
      let posUnscaled := mkPoint (pt_x pos / scale st) (pt_y pos / scale st) in
      let annIndex := selectedAnnotationIndex st in
      match pageIndexOf st with
      | None => Some st
      | Some pageIndex =>
          if (annIndex =? -1)%Z then Some st
          else
            let dx := (pt_x posUnscaled - pt_x (dragStartPos st))%Q in
            let dy := (pt_y posUnscaled - pt_y (dragStartPos st))%Q in
            pageAnns ← annotations st !! pageIndex;
            ann ← lookupZ annIndex pageAnns;
            let ann' :=
              match mode, ann with
              | DragMove, AImage i =>
                  AImage (mkImage (r_x (dragStartAnn st) + dx)
                            (r_y (dragStartAnn st) + dy) (i_width i) (i_height i)
                            (i_imageData i) (i_originalAspectRatio i))
              | DragMove, AText t =>
                  AText (mkText (r_x (dragStartAnn st) + dx)
                           (r_y (dragStartAnn st) + dy) (t_text t) (t_size t)
                           (t_color t) (t_font t) (t_bold t) (t_width t)
                           (t_height t))
              | DragResize, AImage i =>
                  let newWidth := (r_width (dragStartAnn st) + dx)%Q in
                  if Qlt_le_dec 10 newWidth
                  then AImage (mkImage (i_x i) (i_y i) newWidth
                                 (newWidth * i_originalAspectRatio i)
                                 (i_imageData i) (i_originalAspectRatio i))
                  else ann
              | _, _ => ann
              end in
            Some (set_annotations
                    (<[pageIndex := <[Z.to_nat annIndex := ann']> pageAnns]>
                       (annotations st)) st)
      end
  end.

Definition onMouseUp (st : AppState) : option AppState :=
  let st1 := set_dragMode DragNone st in
  if isDrawing st1 then
    let st2 := set_isDrawing false st1 in
    st3 ←
      (if (1 <? length (currentDrawingPath st2))%nat
       then addAnnotation
              (ADraw (mkDraw (currentDrawingPath st2) (JS.lit "red")
                        (2 / scale st2))) st2
       else Some st2);
    Some (set_currentDrawingPath [] st3)
  else Some st1.

(** ** Text editing *)

Definition cancelTextAnnotation (st : AppState) : AppState :=
  set_textEditingState None (set_isEditingText false st).

(** [(width, height)] of [text] in device pixels. *)
Definition measureText (text : JS.jsstring) (settings : TextSettings)
    (st : AppState) : Q * Q :=
  match canvasMeasure with
  | None => (100%Q, ts_size settings)
  | Some measure =>
      let '(first, others) := JS.split_lines text in
      let currentScale := (scale st * devicePixelRatio)%Q in
      let width_of :=
        measure (ts_bold settings) (ts_size settings * currentScale)%Q
          (ts_font settings) in
      let lineHeight := (ts_size settings * 1.2 * currentScale)%Q in
      let height := (inject_Z (Z.of_nat (S (length others))) * lineHeight)%Q in
      (JS.Math_max (width_of first) (map width_of others), height)
  end.

Definition finalizeTextAnnotation (st : AppState) : option AppState :=
  if negb (isEditingText st) then Some st
  else
    match textEditingState st with
    | None => Some (cancelTextAnnotation st)
    | Some state =>
        if JS.falsy (JS.trim (e_text state)) then Some (cancelTextAnnotation st)
        else
          let settings := textSettings st in
          let '(width, height) := measureText (e_text state) settings st in
          let trimmedText := JS.trim (e_text state) in
          let editIndex := selectedAnnotationIndex st in
          let totalScale := (scale st * devicePixelRatio)%Q in
          (* annToEdit: [Some None] is null or undefined *)
          annToEdit ←
            (if (-1 <? editIndex)%Z then
               match pageIndexOf st with
               | Some pageIndex =>
                   pageAnns ← annotations st !! pageIndex;
                   Some (lookupZ editIndex pageAnns)
               | None => Some None
               end
             else Some None);
          st' ←
            match annToEdit, pageIndexOf st with
            | Some (AText t), Some pageIndex =>
                let st1 := pushHistory st in
                pageAnns ← annotations st1 !! pageIndex;
                Some (set_annotations
                        (<[pageIndex :=
                             <[Z.to_nat editIndex :=
                                 AText (mkText (t_x t) (t_y t) trimmedText
                                          (ts_size settings) (ts_color settings)
                                          (ts_font settings) (ts_bold settings)
                                          (width / totalScale)
                                          (height / totalScale))]> pageAnns]>
                           (annotations st1)) st1)
            | _, _ =>
                addAnnotation
                  (AText (mkText (e_x state / scale st) (e_y state / scale st)
                            trimmedText (ts_size settings) (ts_color settings)
                            (ts_font settings) (ts_bold settings)
                            (width / totalScale) (height / totalScale))) st
            end;
          Some (set_textEditingState None (set_isEditingText false st'))
    end.

(** The width a pointer at [pos] asks for during a resize drag:
    [dragStartAnn.width + dx]. *)
Definition candidateWidth (pos : Point) (st : AppState) : Q :=
  r_width (dragStartAnn st) + (pt_x pos / scale st - pt_x (dragStartPos st)).

(** What a pointer move stores for a selected image while resizing. *)
Definition resized (pos : Point) (st : AppState) (img : ImageAnnotation)
    : Annotation :=
  if Qlt_le_dec 10 (candidateWidth pos st)
  then AImage (mkImage (i_x img) (i_y img) (candidateWidth pos st)
                 (candidateWidth pos st * i_originalAspectRatio img)
                 (i_imageData img) (i_originalAspectRatio img))
  else AImage img.

(** The annotation at index [i] of page [pageIndex]. *)
Definition annotationAt (pageIndex i : nat) (st : AppState)
    : option Annotation :=
  annotations st !! pageIndex ≫= (.!! i).

(** The text overlay holds nothing to commit: it is closed, has no buffer,
    or its buffer is empty or made of white space only. *)
Definition blankBuffer (st : AppState) : Prop :=
  match textEditingState st with
  | Some state => forallb JS.isWhiteSpace (e_text state) = true
  | None => True
  end.

(** Some page has an annotation: what [confirmAndProceedWithOrganize]
    tests before asking. *)
Definition hasAnnotations (st : AppState) : bool :=
  existsb (fun p : list Annotation => (0 <? length p)%nat) (annotations st).

(** ** Committed mutations and runs

    The handlers that change the model through the history: adding an
    annotation, deleting the selected one, finalizing a text edit and
    ending a stroke.  Each is taken on a state where it reaches its
    commit. *)
Inductive commits : AppState -> AppState -> Prop :=
| commits_add annotation st st' :
    addAnnotation annotation st = Some st' -> commits st st'
| commits_delete confirmAnswer st st' shown :
    (-1 < selectedAnnotationIndex st)%Z ->
    onDeleteKeyPressed confirmAnswer st = Some (st', shown) ->
    commits st st'
| commits_text st st' state :
    isEditingText st = true ->
    textEditingState st = Some state ->
    JS.falsy (JS.trim (e_text state)) = false ->
    finalizeTextAnnotation st = Some st' ->
    commits st st'
| commits_stroke st st' :
    isDrawing st = true ->
    (1 < length (currentDrawingPath st))%nat ->
    onMouseUp st = Some st' ->
    commits st st'.

(** Anything else the user does between two mutations (selecting,
    switching tools, zooming): the model and both stacks are left alone. *)
Definition idles (st st' : AppState) : Prop :=
  annotations st' = annotations st
  /\ undoStack st' = undoStack st
  /\ redoStack st' = redoStack st.

(** [run before st st']: from [st], a sequence of committed mutations
    (with idle steps in between) reaches [st']; [before] lists the model
    as it was just before each mutation, oldest first. *)
Inductive run : list Annotations -> AppState -> AppState -> Prop :=
| run_start st : run [] st st
| run_idle before st st1 st2 :
    run before st st1 -> idles st1 st2 -> run before st st2
| run_commit before st st1 st2 :
    run before st st1 -> commits st1 st2 ->
    run (before ++ [annotations st1]) st st2.

(** The models a run went through: before each mutation, then the last. *)
Definition timeline (before : list Annotations) (st' : AppState)
    : list Annotations :=
  before ++ [annotations st'].

(** [st] shows entry [i] of the timeline [full]: the older entries are on
    the undo stack (above what was there before, [older]), the newer ones
    on the redo stack, newest lowest (above [newer]). *)
Definition at_position (older newer full : list Annotations) (i : nat)
    (st : AppState) : Prop :=
  full !! i = Some (annotations st)
  /\ undoStack st = older ++ take i full
  /\ redoStack st = newer ++ rev (drop (S i) full).

(** ** Further handlers

    The handlers below complete the picture around the ones above.  Those
    that read the tool choice or the page-number panel toggle, which are
    not fields of [AppState], take them as arguments; [onMouseDown] also
    returns the tool it leaves selected. *)

Inductive Tool := ToolSelect | ToolText | ToolDraw.

(** [selectedAnnotation]: the outer [None] is the [TypeError] of reading
    an index of a page list that is missing. *)
Definition selectedAnnotation (st : AppState) : option (option Annotation) :=
  match pageIndexOf st with
  | Some pageIndex =>
      if (-1 <? selectedAnnotationIndex st)%Z
      then pageAnns ← annotations st !! pageIndex;
           Some (lookupZ (selectedAnnotationIndex st) pageAnns)
      else Some None
  | None => Some None
  end.

(** *** Navigation *)

(** [this.pageOrder().indexOf(this.currentPageNum())] as a number. *)
Definition pagePosition (st : AppState) : Z :=
  match pageIndexOf st with
  | Some pageIndex => Z.of_nat pageIndex
  | None => (-1)%Z
  end.

(** [None]: [pageOrder()[num - 1]] is [undefined], which would become the
    current page number. *)
Definition goToPage (num : Z) (st : AppState) : option AppState :=
  page ← lookupZ (num - 1) (pageOrder st);
  Some (set_selectedAnnotationIndex (-1)%Z (set_currentPageNum page st)).

Definition goToPrevPage (st : AppState) : option AppState :=
  if (0 <? pagePosition st)%Z then goToPage (pagePosition st) st else Some st.

Definition goToNextPage (st : AppState) : option AppState :=
  if (pagePosition st <? Z.of_nat (length (pageOrder st)) - 1)%Z
  then goToPage (pagePosition st + 2) st
  else Some st.

(** [pageNum] is [parseInt(value, 10)], [None] for NaN. *)
Definition onPageInput (pageNum : option Z) (st : AppState) : option AppState :=
  match pageNum with
  | Some pageNum =>
      if ((1 <=? pageNum) && (pageNum <=? Z.of_nat (totalPages st)))%Z
      then goToPage pageNum st
      else Some st
  | None => Some st
  end.

Definition selectTab (tab : Tab) (st : AppState) : AppState :=
  set_activeTab tab st.

(** The tool signal itself is kept by the caller. *)
Definition selectTool (st : AppState) : AppState :=
  set_selectedAnnotationIndex (-1)%Z st.

(** [viewport]: width and height of the current page at scale 1 ([None]:
    [getPage] rejects, which is caught); [viewerContainer]: its client
    width and height ([None]: not mounted). *)
Definition fitToPage (viewport viewerContainer : option (Q * Q))
    (st : AppState) : AppState :=
  match pdfDoc st, viewerContainer, viewport with
  | Some _, Some (clientWidth, clientHeight), Some (width, height) =>
      let padding := 32%Q in
      set_scale (Qmin ((clientWidth - padding) / width)
                   ((clientHeight - padding) / height)) st
  | _, _, _ => st
  end.

(** [draggedPageIndex] is the signal [onDragStart] sets, -1 when no page
    is being dragged. *)
Definition onDrop (draggedPageIndex : Z) (dropIndex : nat) (st : AppState)
    : option AppState :=
  if (-1 <? draggedPageIndex)%Z
  then reorderPages (Z.to_nat draggedPageIndex) dropIndex st
  else Some st.

(** *** Inserting an image *)

(** The box an image of [width] by [height] pixels is given: its size at
    the current zoom, shrunk to fit 200 by 200 points. *)
Definition imageBox (width height scale : Q) : Q * Q :=
  let MAX_WIDTH_POINTS := 200%Q in
  let MAX_HEIGHT_POINTS := 200%Q in
  let pointWidth := (width / scale)%Q in
  let pointHeight := (height / scale)%Q in
  if Qlt_le_dec pointHeight pointWidth then
    if Qlt_le_dec MAX_WIDTH_POINTS pointWidth
    then (MAX_WIDTH_POINTS, pointHeight * (MAX_WIDTH_POINTS / pointWidth))%Q
    else (pointWidth, pointHeight)
  else
    if Qlt_le_dec MAX_HEIGHT_POINTS pointHeight
    then (pointWidth * (MAX_HEIGHT_POINTS / pointHeight), MAX_HEIGHT_POINTS)%Q
    else (pointWidth, pointHeight).

(** The tail shared by the two image insertions: add the annotation, then
    select the last annotation of the current page ([None]: the page
    position is -1 and [annotations()[-1].length] raises). *)
Definition addAndSelect (annotation : Annotation) (st : AppState)
    : option AppState :=
  st1 ← addAnnotation annotation st;
  pageIndex ← pageIndexOf st1;
  pageAnns ← annotations st1 !! pageIndex;
  Some (set_selectedAnnotationIndex (Z.of_nat (length pageAnns) - 1)%Z st1).

(** [onImageSelected], from the moment the image has loaded: [width] and
    [height] are the image's pixel size, [drawCanvas] the client size of
    the draw canvas ([None]: not mounted). *)
Definition onImageSelected (imageData : JS.jsstring) (width height : Q)
    (drawCanvas : option (Q * Q)) (st : AppState) : option AppState :=
  let scale := scale st in
  let '(pointWidth, pointHeight) := imageBox width height scale in
  match drawCanvas with
  | None => Some st
  | Some (clientWidth, clientHeight) =>
      addAndSelect
        (AImage (mkImage ((clientWidth / scale - pointWidth) / 2)
                   ((clientHeight / scale - pointHeight) / 2)
                   pointWidth pointHeight imageData (height / width))) st
  end.

(** [createSignature]: [canvas] is the signature canvas's bitmap ([None]:
    not mounted), [imageData] the data URL of the trimmed canvas, whose
    size the loaded image has.  The dialog is closed once the image is
    placed. *)
Definition createSignature (canvas : option Signature.Bitmap)
    (imageData : JS.jsstring) (drawCanvas : option (Q * Q))
    (pad : Signature.Pad) (st : AppState)
    : option (Signature.Pad * AppState) :=
  match canvas with
  | None => Some (pad, st)
  | Some bitmap =>
      if (length (Signature.signaturePadPaths pad) =? 0)%nat
      then Some (pad, st)
      else
        match Signature.getSignatureBounds bitmap with
        | None => Some (pad, st)
        | Some bounds =>
            let padding := 10%nat in
            let width :=
              inject_Z (Z.of_nat (Signature.bd_width bounds + padding * 2)) in
            let height :=
              inject_Z (Z.of_nat (Signature.bd_height bounds + padding * 2)) in
            match drawCanvas with
            | None => Some (pad, st)
            | Some (clientWidth, clientHeight) =>
                let scale := scale st in
                let aspectRatio := (height / width)%Q in
                let pointWidth := (150 / scale)%Q in
                let pointHeight := (pointWidth * aspectRatio)%Q in
                st' ←
                  addAndSelect
                    (AImage (mkImage ((clientWidth / scale - pointWidth) / 2)
                               ((clientHeight / scale - pointHeight) / 2)
                               pointWidth pointHeight imageData aspectRatio))
                    st;
                Some (Signature.closeSignatureModal pad, st')
            end
        end
  end.

(** *** Pressing the pointer *)

(** [p] lies in the rectangle, borders included. *)
Definition inRect (p : Point) (x y width height : Q) : bool :=
  Qle_bool x (pt_x p) && Qle_bool (pt_x p) (x + width)
  && Qle_bool y (pt_y p) && Qle_bool (pt_y p) (y + height).

(** The body of [onMouseDown]'s loop: the drag mode an annotation gives a
    press at [posUnscaled], if it is hit.  The resize handle of an image is
    tested before its body. *)
Definition hitPart (posUnscaled : Point) (scale : Q) (ann : Annotation)
    : option DragMode :=
  match ann with
  | AImage i =>
      let handleSize := (10 / scale)%Q in
      if inRect posUnscaled (i_x i + i_width i - handleSize / 2)
           (i_y i + i_height i - handleSize / 2) handleSize handleSize
      then Some DragResize
      else if inRect posUnscaled (i_x i) (i_y i) (i_width i) (i_height i)
      then Some DragMove
      else None
  | AText t =>
      if inRect posUnscaled (t_x t) (t_y t) (t_width t) (t_height t)
      then Some DragMove
      else None
  | ADraw _ => None
  end.

(** The loop [for (let i = n - 1; i >= 0; i--)], stopping at its first
    hit. *)
Fixpoint hitScan (posUnscaled : Point) (scale : Q) (pageAnns : list Annotation)
    (n : nat) : option (nat * DragMode) :=
  match n with
  | O => None
  | S i =>
      match pageAnns !! i ≫= hitPart posUnscaled scale with
      | Some mode => Some (i, mode)
      | None => hitScan posUnscaled scale pageAnns i
      end
  end.

(** The geometry [onMouseDown] keeps of the annotation it grabs. *)
Definition grabbedRect (ann : Annotation) (previous : Rect) : Rect :=
  match ann with
  | AImage i => mkRect (i_x i) (i_y i) (i_width i) (i_height i)
  | AText t => mkRect (t_x t) (t_y t) (t_width t) (t_height t)
  | ADraw _ => previous
  end.

Definition grabbedSettings (ann : Annotation) (previous : TextSettings)
    : TextSettings :=
  match ann with
  | AText t => mkTextSettings (t_font t) (t_size t) (t_color t) (t_bold t)
  | _ => previous
  end.

(** [None]: the page list of the current page is missing. *)
Definition onMouseDown (activeTool : Tool) (isPageNumberPanelOpen : bool)
    (pos : option Point) (st : AppState) : option (AppState * Tool) :=
  if isEditingText st
     || match activeTab st with TabEdit => false | _ => true end
     || isPageNumberPanelOpen
  then Some (st, activeTool)
  else
    match pos, pageIndexOf st with
    | None, _ | _, None => Some (st, activeTool)
    | Some pos, Some pageIndex =>
        let posUnscaled := mkPoint (pt_x pos / scale st) (pt_y pos / scale st) in
        pageAnns ← annotations st !! pageIndex;
        match hitScan posUnscaled (scale st) pageAnns (length pageAnns) with
        | Some (newSelection, mode) =>
            ann ← pageAnns !! newSelection;
            Some (set_textSettings (grabbedSettings ann (textSettings st))
                    (set_dragStartAnn (grabbedRect ann (dragStartAnn st))
                       (set_dragStartPos posUnscaled
                          (set_selectedAnnotationIndex (Z.of_nat newSelection)
                             (set_dragMode mode st)))),
                  ToolSelect)
        | None =>
            let st1 := set_selectedAnnotationIndex (-1)%Z st in
            Some (match activeTool with
                  | ToolDraw =>
                      set_currentDrawingPath [posUnscaled]
                        (set_isDrawing true st1)
                  | ToolText =>
                      set_textEditingState
                        (Some (mkEditing (pt_x pos) (pt_y pos) 150 []))
                        (set_isEditingText true st1)
                  | ToolSelect => st1
                  end, activeTool)
        end
    end.

Definition onMouseLeave (st : AppState) : option AppState := onMouseUp st.

(** *** Editing a text in place *)

(** The loop of [onDblClick]: the topmost text under the pointer. *)
Fixpoint textScan (posUnscaled : Point) (pageAnns : list Annotation) (n : nat)
    : option (nat * TextAnnotation) :=
  match n with
  | O => None
  | S i =>
      match pageAnns !! i with
      | Some (AText t) =>
          if inRect posUnscaled (t_x t) (t_y t) (t_width t) (t_height t)
          then Some (i, t)
          else textScan posUnscaled pageAnns i
      | _ => textScan posUnscaled pageAnns i
      end
  end.

Definition onDblClick (isPageNumberPanelOpen : bool) (pos : option Point)
    (st : AppState) : option AppState :=
  if match activeTab st with TabEdit => false | _ => true end
     || isPageNumberPanelOpen
  then Some st
  else
    match pos, pageIndexOf st with
    | None, _ | _, None => Some st
    | Some pos, Some pageIndex =>
        let posUnscaled := mkPoint (pt_x pos / scale st) (pt_y pos / scale st) in
        pageAnns ← annotations st !! pageIndex;
        match textScan posUnscaled pageAnns (length pageAnns) with
        | Some (editIndex, annToEdit) =>
            Some (set_textEditingState
                    (Some (mkEditing (t_x annToEdit * scale st)
                             (t_y annToEdit * scale st)
                             (t_width annToEdit * scale st + 20)
                             (t_text annToEdit)))
                    (set_isEditingText true
                       (set_textSettings
                          (mkTextSettings (t_font annToEdit) (t_size annToEdit)
                             (t_color annToEdit) (t_bold annToEdit))
                          (set_selectedAnnotationIndex (Z.of_nat editIndex)
                             st))))
        | None => Some st
        end
    end.

(** [value] is the text area's content. *)
Definition onTextInput (value : JS.jsstring) (st : AppState) : AppState :=
  set_textEditingState
    (match textEditingState st with
     | Some state =>
         Some (mkEditing (e_x state) (e_y state) (e_width state) value)
     | None => None
     end) st.

(** [isEnter]: [event.key === 'Enter']. *)
Definition handleTextEnter (isEnter shiftKey : bool) (st : AppState)
    : option AppState :=
  if isEnter && negb shiftKey then finalizeTextAnnotation st else Some st.

(** [updateTextSetting(key, value)]: one case per key of [TextSettings]. *)
Inductive TextSettingChange :=
| SetFont (value : JS.jsstring)
| SetSize (value : Q)
| SetColor (value : JS.jsstring)
| SetBold (value : bool).

Definition changeSetting (change : TextSettingChange) (s : TextSettings)
    : TextSettings :=
  match change with
  | SetFont value => mkTextSettings value (ts_size s) (ts_color s) (ts_bold s)
  | SetSize value => mkTextSettings (ts_font s) value (ts_color s) (ts_bold s)
  | SetColor value => mkTextSettings (ts_font s) (ts_size s) value (ts_bold s)
  | SetBold value => mkTextSettings (ts_font s) (ts_size s) (ts_color s) value
  end.

Definition updateTextSetting (change : TextSettingChange) (st : AppState)
    : AppState :=
  let st1 := set_textSettings (changeSetting change (textSettings st)) st in
  let selectedIndex := selectedAnnotationIndex st1 in
  match pageIndexOf st1 with
  | Some pageIndex =>
      if (selectedIndex =? -1)%Z then st1
      else
        match annotations st1 !! pageIndex with
        | Some pageAnns =>
            match lookupZ selectedIndex pageAnns with
            | Some (AText ann) =>
                let settings := textSettings st1 in
                let '(width, height) := measureText (t_text ann) settings st1 in
                let totalScale := (scale st1 * devicePixelRatio)%Q in
                set_annotations
                  (<[pageIndex :=
                       <[Z.to_nat selectedIndex :=
                           AText (mkText (t_x ann) (t_y ann) (t_text ann)
                                    (ts_size settings) (ts_color settings)
                                    (ts_font settings) (ts_bold settings)
                                    (width / totalScale)
                                    (height / totalScale))]> pageAnns]>
                     (annotations st1)) st1
            | _ => st1
            end
        | None => st1
        end
  | None => st1
  end.

(** *** Opening a file *)

(** [onFileSelected], from the moment the file's bytes are read. *)
Definition onFileSelected (buffer : PdfBytes) (st : AppState)
    : AppState * list Dialog :=
  loadPdf buffer true None st.

(** ** What the handlers keep true *)

(** An annotation as the handlers store them: a text is trimmed and not
    empty, a stroke has two points or more, an image has the height its
    width and its aspect ratio give. *)
Definition stored (ann : Annotation) : Prop :=
  match ann with
  | AText t => JS.trim (t_text t) = t_text t /\ t_text t <> []
  | ADraw d => (2 <= length (d_path d))%nat
  | AImage i => (i_height i == i_width i * i_originalAspectRatio i)%Q
  end.

(** A model for [pages] pages. *)
Definition modelFor (pages : nat) (anns : Annotations) : Prop :=
  length anns = pages /\ Forall (Forall stored) anns.

(** The selection is none, or an index of the current page's list. *)
Definition selectionInRange (st : AppState) : Prop :=
  selectedAnnotationIndex st = (-1)%Z
  \/ exists pageIndex pageAnns,
       pageIndexOf st = Some pageIndex
       /\ annotations st !! pageIndex = Some pageAnns
       /\ (0 <= selectedAnnotationIndex st < Z.of_nat (length pageAnns))%Z.

Record consistent (st : AppState) : Prop := mkConsistent {
  c_scale : (0 < scale st)%Q;
  c_order : pageOrder st ≡ₚ seq 1 (length (pageOrder st));
  c_total : (totalPages st <= length (pageOrder st))%nat;
  c_model : modelFor (length (pageOrder st)) (annotations st);
  c_undo : Forall (modelFor (length (pageOrder st))) (undoStack st);
  c_redo : Forall (modelFor (length (pageOrder st))) (redoStack st);
  c_selection : selectionInRange st
}.

(** One user action, as the handler it triggers.  The sizes the browser
    reports are positive; a drop names a page that is being dragged. *)
Inductive acts : AppState -> AppState -> Prop :=
| acts_open buffer st shown st' :
    onFileSelected buffer st = (st', shown) -> acts st st'
| acts_zoomIn st : acts st (zoomIn st)
| acts_zoomOut st : acts st (zoomOut st)
| acts_fit viewport viewerContainer st :
    (forall width height, viewport = Some (width, height) ->
       0 < width /\ 0 < height)%Q ->
    (forall clientWidth clientHeight,
       viewerContainer = Some (clientWidth, clientHeight) ->
       32 < clientWidth /\ 32 < clientHeight)%Q ->
    acts st (fitToPage viewport viewerContainer st)
| acts_page pageNum st st' : onPageInput pageNum st = Some st' -> acts st st'
| acts_prev st st' : goToPrevPage st = Some st' -> acts st st'
| acts_next st st' : goToNextPage st = Some st' -> acts st st'
| acts_tab tab st : acts st (selectTab tab st)
| acts_tool st : acts st (selectTool st)
| acts_image imageData width height drawCanvas st st' :
    (0 < width)%Q -> (0 < height)%Q ->
    onImageSelected imageData width height drawCanvas st = Some st' ->
    acts st st'
| acts_signature canvas imageData drawCanvas pad pad' st st' :
    createSignature canvas imageData drawCanvas pad st = Some (pad', st') ->
    acts st st'
| acts_down activeTool isPageNumberPanelOpen pos st st' activeTool' :
    onMouseDown activeTool isPageNumberPanelOpen pos st = Some (st', activeTool') ->
    acts st st'
| acts_move pos st st' : onMouseMove pos st = Some st' -> acts st st'
| acts_up st st' : onMouseUp st = Some st' -> acts st st'
| acts_dblclick isPageNumberPanelOpen pos st st' :
    onDblClick isPageNumberPanelOpen pos st = Some st' -> acts st st'
| acts_input value st : acts st (onTextInput value st)
| acts_enter isEnter shiftKey st st' :
    handleTextEnter isEnter shiftKey st = Some st' -> acts st st'
| acts_finalize st st' : finalizeTextAnnotation st = Some st' -> acts st st'
| acts_cancel st : acts st (cancelTextAnnotation st)
| acts_setting change st : acts st (updateTextSetting change st)
| acts_delete confirmAnswer st st' shown :
    onDeleteKeyPressed confirmAnswer st = Some (st', shown) -> acts st st'
| acts_undo st : acts st (undo st)
| acts_redo st : acts st (redo st)
| acts_drop draggedPageIndex dropIndex st st' :
    onDrop draggedPageIndex dropIndex st = Some st' -> acts st st'
| acts_rotate confirmAnswer degrees pageNum st st' shown :
    rotatePage confirmAnswer degrees pageNum st = (st', shown) -> acts st st'
| acts_deletePage confirmAnswer pageNum st st' shown :
    deletePage confirmAnswer pageNum st = (st', shown) -> acts st st'
| acts_duplicate confirmAnswer pageNum st st' shown :
    duplicatePage confirmAnswer pageNum st = (st', shown) -> acts st st'
| acts_insert confirmAnswer pdfBuffer insertionIndex st st' shown :
    processAndInsertPdf confirmAnswer pdfBuffer insertionIndex st = (st', shown) ->
    acts st st'.

(** The states a session goes through. *)
Inductive reachable : AppState -> Prop :=
| reachable_initial : reachable initialState
| reachable_acts st st' : reachable st -> acts st st' -> reachable st'.

(** ** Gestures *)

(** The point [p] lies in the box of corner [(x, y)], borders
    included. *)
Definition within (p : Point) (x y width height : Q) : Prop :=
  (x <= pt_x p <= x + width /\ y <= pt_y p <= y + height)%Q.

(** The point lies on the resize handle of an image: the square of
    [10 / scale] points (10 pixels on screen) centred on the bottom-right
    corner of its box. *)
Definition onHandle (p : Point) (scale : Q) (i : ImageAnnotation) : Prop :=
  within p (i_x i + i_width i - 10 / scale / 2)
    (i_y i + i_height i - 10 / scale / 2) (10 / scale) (10 / scale).

(** The annotation lies under the point: a text whose box holds the
    point, an image whose box or resize handle holds it; a stroke never
    does. *)
Definition under (p : Point) (scale : Q) (ann : Annotation) : Prop :=
  match ann with
  | AText t => within p (t_x t) (t_y t) (t_width t) (t_height t)
  | AImage i =>
      onHandle p scale i \/ within p (i_x i) (i_y i) (i_width i) (i_height i)
  | ADraw _ => False
  end.

(** The pointer moved through [moves], one [mousemove] event each. *)
Definition drag (moves : list Point) (st : AppState) : option AppState :=
  foldl (fun acc pos => acc ≫= onMouseMove (Some pos)) (Some st) moves.

(** An annotation with its corner put at [(x, y)]; a stroke has no corner
    and is kept. *)
Definition placedAt (x y : Q) (ann : Annotation) : Annotation :=
  match ann with
  | AImage i =>
      AImage (mkImage x y (i_width i) (i_height i) (i_imageData i)
                (i_originalAspectRatio i))
  | AText t =>
      AText (mkText x y (t_text t) (t_size t) (t_color t) (t_font t)
               (t_bold t) (t_width t) (t_height t))
  | ADraw d => ADraw d
  end.

(** The settings a text annotation carries. *)
Definition settingsOf (t : TextAnnotation) : TextSettings :=
  mkTextSettings (t_font t) (t_size t) (t_color t) (t_bold t).

(** The model of a document of [n] pages that has just been loaded as a
    new file: no annotation, no history, no selection, pages in document
    order. *)
Definition freshModel (n : nat) (st : AppState) : Prop :=
  annotations st = replicate n []
  /\ pageOrder st = seq 1 n
  /\ totalPages st = n
  /\ undoStack st = []
  /\ redoStack st = []
  /\ selectedAnnotationIndex st = (-1)%Z
  /\ isSaving st = false.

(** The dialogs [confirmAndProceedWithOrganize] shows before an action it
    lets through. *)
Definition asked (st : AppState) : list Dialog :=
  if hasAnnotations st then [ConfirmDiscardAnnotations] else [].

End Engine.

(** * Worked examples

    A stand-in for the document libraries that only counts pages: a
    document, and its bytes, is its number of pages. *)

Definition toyInRange (index : Z) (doc : nat) : bool :=
  (0 <=? index)%Z && (index <? Z.of_nat doc)%Z.

Definition toy : Collaborators :=
  {| PdfJsDoc := nat;
     PdfLibDoc := nat;
     PdfBytes := nat;
     numPages := fun pdf => pdf;
     loadDocuments := fun pdfBytes => Some (pdfBytes, pdfBytes);
     saveDocument := fun doc => Some doc;
     rotatePageBy := fun _ index doc =>
       if toyInRange index doc then Some doc else None;
     removePage := fun index doc =>
       if toyInRange index doc then Some (doc - 1)%nat else None;
     getPageCount := fun doc => doc;
     copyAndInsertPage := fun index doc =>
       if toyInRange index doc then Some (S doc) else None;
     insertPagesOf := fun pdfBuffer _ doc => Some (doc + pdfBuffer)%nat;
     devicePixelRatio := 1;
     canvasMeasure := None |}.

Definition Toy : Type := @AppState toy.

(** The state after opening a document of [n] pages. *)
Definition opened (n : nat) : Toy :=
  fst (loadPdf (n : @PdfBytes toy) true None initialState).

Definition note : Annotation :=
  AText (mkText 10 20 (JS.lit "Hi") 16 (JS.lit "#000000")
           (JS.lit "Helvetica") false 30 19.2).

Definition photo : Annotation :=
  AImage (mkImage 50 60 200 100 (JS.lit "data:image/png;base64,AAAA") 0.5).

Definition stroke : Annotation :=
  ADraw (mkDraw [mkPoint 10 10; mkPoint 20 10; mkPoint 20 20] (JS.lit "red")
           (2 / 1.5)).

(** One page, then a note added, then a photo added. *)
Definition oneNote : Toy := default (opened 1) (addAnnotation note (opened 1)).

Definition noteAndPhoto : Toy := default oneNote (addAnnotation photo oneNote).

(** Four pages with their own annotation lists. *)
Definition fourPages : Toy :=
  set_annotations [[note]; [photo]; [stroke]; []] (opened 4).

(** The photo of [noteAndPhoto] grabbed by its resize handle, at its
    bottom-right corner (250, 160). *)
Definition resizing : Toy :=
  set_dragStartAnn (mkRect 50 60 200 100)
    (set_dragStartPos (mkPoint 250 160)
       (set_dragMode DragResize (set_selectedAnnotationIndex 1%Z noteAndPhoto))).

(** The text overlay open on a buffer of three spaces. *)
Definition typingSpaces : Toy :=
  set_textEditingState (Some (mkEditing 150 150 150 (JS.lit "   ")))
    (set_isEditingText true oneNote).

(** Two pages, an annotation on the first. *)
Definition twoPagesOneNote : Toy :=
  set_annotations [[note]; []] (opened 2).

(** Closed goals about the examples are settled by evaluation. *)
Ltac evaluate := vm_compute; first [reflexivity | discriminate | lia].

(** ** A session

    On a two-page document at the default zoom 1.5: the text tool is
    pressed at (150, 90), " Hi " is typed and finalized; an image of 600
    by 300 pixels is inserted on a draw canvas of 900 by 1200 pixels; the
    image is pressed in its middle with the select tool. *)

Definition pressedForText : Toy :=
  default (opened 2)
    (fst <$> onMouseDown ToolText false (Some (mkPoint 150 90)) (opened 2)).

Definition typed : Toy :=
  default pressedForText
    (finalizeTextAnnotation (onTextInput (JS.lit " Hi ") pressedForText)).

(** The text that session stores: "Hi" at (100, 60), 100 by 16 pixels as
    the text measurer answers without a canvas. *)
Definition hi : TextAnnotation :=
  mkText (150 / 1.5) (90 / 1.5) (JS.lit "Hi") 16 (JS.lit "#000000")
    (JS.lit "Helvetica") false (100 / (1.5 * 1)) (16 / (1.5 * 1)).

Definition withImage : Toy :=
  default typed
    (onImageSelected (JS.lit "data:image/png;base64,AAAA") 600 300
       (Some (900, 1200)%Q) typed).

Definition grabbed : Toy :=
  default withImage
    (fst <$> onMouseDown ToolSelect false (Some (mkPoint 450 600)) withImage).



(** Visible page numbers at the bottom centre, medium margin, from 1. *)
Definition bottomCentre : PageNumbers.PageNumberSettings :=
  PageNumbers.mkSettings true PageNumbers.BottomCenter PageNumbers.Medium 1.

(** Metrics of a text three font sizes wide whose middle line the two
    font engines agree on. *)
Definition evenMetrics : Watermark.Metrics :=
  Watermark.mkMetrics 3 (1 / 4) (7 / 10) (9 / 10).

(** A pdf-lib that knows the fourteen standard fonts by their names,
    embeds a data URL as the format it names, and encodes the code units
    below 256. *)
Definition standardFonts : list JS.jsstring :=
  map JS.lit
    ["Courier"; "Courier-Bold"; "Courier-Oblique"; "Courier-BoldOblique";
     "Helvetica"; "Helvetica-Bold"; "Helvetica-Oblique";
     "Helvetica-BoldOblique"; "Times-Roman"; "Times-Bold"; "Times-Italic";
     "Times-BoldItalic"; "Symbol"; "ZapfDingbats"]%string.

Definition standardLibrary : PdfLib :=
  {| PdfFont := JS.jsstring;
     PdfImage := JS.jsstring;
     embedFont := fun fontId =>
       if bool_decide (fontId ∈ standardFonts) then Some fontId else None;
     embedPng := fun imageData =>
       if JS.startsWith (JS.lit "data:image/png;base64,") imageData
       then Some imageData else None;
     embedJpg := fun imageData =>
       if JS.startsWith (JS.lit "data:image/jpeg;base64,") imageData
       then Some imageData else None;
     encodes := fun _ text => forallb (fun c => (c <? 256)%N) text |}.

(** The text of [hi] in bold Times, as the toolbar sets it: the font id
    stays Times-Roman and the bold flag is set. *)
Definition boldTimes : TextAnnotation :=
  mkText (150 / 1.5) (90 / 1.5) (JS.lit "Hi") 16 (JS.lit "#000000")
    (JS.lit "Times-Roman") true (100 / (1.5 * 1)) (16 / (1.5 * 1)).

Section EngineProperties.

Context {collaborators : Collaborators}.

(** * Properties *)

(** ** Zoom stays in range *)

Lemma zoomIn_in_range (st : AppState) :
  (0.25 <= scale st <= 5)%Q -> (0.25 <= scale (zoomIn st) <= 5)%Q.
Proof.
  intros [Hlo Hhi]. cbn [zoomIn set_scale scale].
  destruct (Q.min_spec 5 (scale st + 0.25)) as [[_ ->] | [Hle ->]]; split;
    try lra; auto.
Qed.

Lemma zoomOut_in_range (st : AppState) :
  (0.25 <= scale st <= 5)%Q -> (0.25 <= scale (zoomOut st) <= 5)%Q.
Proof.
  intros [Hlo Hhi]. cbn [zoomOut set_scale scale].
  destruct (Q.max_spec 0.25 (scale st - 0.25)) as [[Hlt ->] | [Hle ->]]; split;
    try lra; auto.
Qed.

Lemma applyZoom_in_range (ops : list ZoomOp) (st : AppState) :
  (0.25 <= scale st <= 5)%Q -> (0.25 <= scale (fold_left applyZoom ops st) <= 5)%Q.
Proof.
  revert st. induction ops as [| op ops IH]; intros st Hst; [exact Hst |].
  cbn [fold_left]. apply IH.
  destruct op; [apply zoomIn_in_range | apply zoomOut_in_range]; exact Hst.
Qed.

(** C10.  From a scale of 1.5 (the component's initial value), any finite
    sequence of [zoomIn] and [zoomOut] leaves the scale in [0.25, 5], hence
    strictly positive where the pointer handlers divide by it; each step is
    [min(5, s + 0.25)], respectively [max(0.25, s - 0.25)]. *)
Theorem zoom_scale_stays_in_range (ops : list ZoomOp) (st : AppState) :
  (scale st == 1.5)%Q ->
  (0.25 <= scale (fold_left applyZoom ops st) <= 5)%Q
  /\ (0 < scale (fold_left applyZoom ops st))%Q
  /\ (forall st', scale (zoomIn st') = Qmin 5 (scale st' + 0.25))
  /\ (forall st', scale (zoomOut st') = Qmax 0.25 (scale st' - 0.25)).
Proof.
  intros Hinit.
  assert (Hrange : (0.25 <= scale (fold_left applyZoom ops st) <= 5)%Q).
  { apply applyZoom_in_range. rewrite Hinit. split; lra. }
  split; [exact Hrange |]. split; [lra |]. split; reflexivity.
Qed.

(** ** History *)

Lemma addAnnotation_history annotation st st' :
  addAnnotation annotation st = Some st' ->
  undoStack st' = undoStack st ++ [annotations st] /\ redoStack st' = [].
Proof.
  unfold addAnnotation. intros H.
  destruct (pageIndexOf (pushHistory st)); simplify_option_eq; done.
Qed.

Lemma indexOf_lt (v : nat) (arr : list nat) (i : nat) :
  JS.indexOf v arr = Some i -> (i < length arr)%nat.
Proof.
  revert i. induction arr as [| a arr IH]; intros i; cbn; [done |].
  destruct (a =? v)%nat; [intros [= <-]; lia |].
  destruct (JS.indexOf v arr) as [j |]; [| done].
  intros [= <-]. specialize (IH j eq_refl). lia.
Qed.

(** While the annotation lists are in lockstep with the page order, adding
    an annotation does not raise. *)
Lemma addAnnotation_succeeds annotation st :
  length (pageOrder st) = length (annotations st) ->
  exists st', addAnnotation annotation st = Some st'.
Proof.
  intros Hlen. unfold addAnnotation.
  change (pageIndexOf (pushHistory st)) with (pageIndexOf st).
  change (annotations (pushHistory st)) with (annotations st).
  destruct (pageIndexOf st) as [pageIndex |] eqn:Hpage; [| by eexists].
  apply indexOf_lt in Hpage. rewrite Hlen in Hpage.
  destruct (lookup_lt_is_Some_2 _ _ Hpage) as [pageAnns ->]. by eexists.
Qed.

Lemma commits_history st st' :
  commits st st' ->
  undoStack st' = undoStack st ++ [annotations st] /\ redoStack st' = [].
Proof.
  destruct 1 as [a st st' H | ans st st' shown Hsel H | st st' state He Hs Ht H
                | st st' Hd Hp H].
  - eauto using addAnnotation_history.
  - unfold onDeleteKeyPressed in H.
    apply Z.ltb_lt in Hsel. rewrite Hsel in H.
    destruct (pageIndexOf (pushHistory st)); simplify_option_eq; done.
  - unfold finalizeTextAnnotation in H. rewrite He, Hs, Ht in H. cbn in H.
    destruct (measureText _ _ _) as [width height].
    repeat (case_match; simplify_option_eq);
      eauto using addAnnotation_history; done.
  - unfold onMouseUp in H.
    change (isDrawing (set_dragMode DragNone st)) with (isDrawing st) in H.
    rewrite Hd in H.
    change (currentDrawingPath (set_isDrawing false (set_dragMode DragNone st)))
      with (currentDrawingPath st) in H.
    apply Nat.ltb_lt in Hp. rewrite Hp in H.
    destruct (addAnnotation _ _) as [st3 |] eqn:Hadd; [| done].
    apply addAnnotation_history in Hadd as [Hu Hr].
    injection H as <-. done.
Qed.

Lemma run_undoStack before st st' :
  run before st st' -> undoStack st' = undoStack st ++ before.
Proof.
  induction 1 as [st | before st st1 st2 _ IH (_ & Hu & _)
                 | before st st1 st2 _ IH Hc].
  - by rewrite app_nil_r.
  - by rewrite Hu.
  - apply commits_history in Hc as [-> _]. by rewrite IH, app_assoc.
Qed.

Lemma run_first_entry before st st' :
  run before st st' -> timeline before st' !! 0%nat = Some (annotations st).
Proof.
  unfold timeline.
  induction 1 as [st | before st st1 st2 _ IH (Ha & _ & _)
                 | before st st1 st2 _ IH Hc].
  - done.
  - destruct before; [cbn in *; congruence | done].
  - destruct before; [cbn in *; congruence | done].
Qed.

Lemma run_at_position before st st' :
  run before st st' ->
  at_position (undoStack st) (redoStack st') (timeline before st')
    (length before) st'.
Proof.
  intros Hrun. unfold at_position, timeline. split; [| split].
  - by rewrite lookup_app_r, Nat.sub_diag.
  - by rewrite take_app_length, (run_undoStack _ _ _ Hrun).
  - rewrite drop_ge, app_nil_r; [done |].
    rewrite length_app. cbn. lia.
Qed.

(** Undo pops the newest undo snapshot, pushes the current model on the
    redo stack and installs the popped snapshot; the selection is reset. *)
Lemma undo_pops stack top st :
  undoStack st = stack ++ [top] ->
  annotations (undo st) = top
  /\ undoStack (undo st) = stack
  /\ redoStack (undo st) = redoStack st ++ [annotations st]
  /\ selectedAnnotationIndex (undo st) = (-1)%Z.
Proof.
  intros Hu. unfold undo. rewrite Hu, last_snoc. cbn.
  unfold JS.slice_init. rewrite length_app. cbn.
  replace (length stack + 1 - 1)%nat with (length stack) by lia.
  by rewrite take_app_length.
Qed.

Lemma redo_pops stack top st :
  redoStack st = stack ++ [top] ->
  annotations (redo st) = top
  /\ redoStack (redo st) = stack
  /\ undoStack (redo st) = undoStack st ++ [annotations st]
  /\ selectedAnnotationIndex (redo st) = (-1)%Z.
Proof.
  intros Hr. unfold redo. rewrite Hr, last_snoc. cbn.
  unfold JS.slice_init. rewrite length_app. cbn.
  replace (length stack + 1 - 1)%nat with (length stack) by lia.
  by rewrite take_app_length.
Qed.

(** With nothing to undo (redo), the handler returns at once. *)
Lemma undo_empty st : undoStack st = [] -> undo st = st.
Proof. intros Hu. unfold undo. by rewrite Hu. Qed.

Lemma redo_empty st : redoStack st = [] -> redo st = st.
Proof. intros Hr. unfold redo. by rewrite Hr. Qed.

Lemma undo_moves_back older newer full i st :
  at_position older newer full (S i) st ->
  at_position older newer full i (undo st).
Proof.
  intros (Hcur & Hu & Hr).
  assert (Hlt : (S i < length full)%nat) by eauto using lookup_lt_Some.
  destruct (lookup_lt_is_Some_2 full i) as [prev Hprev]; [lia |].
  rewrite (take_S_r _ _ _ Hprev), app_assoc in Hu.
  destruct (undo_pops _ _ _ Hu) as (Ha' & Hu' & Hr' & _).
  split; [| split].
  - by rewrite Ha'.
  - done.
  - rewrite Hr', Hr, <- app_assoc. f_equal.
    by rewrite (drop_S _ _ _ Hcur).
Qed.

Lemma redo_moves_forward older newer full i st :
  at_position older newer full i st ->
  (S i < length full)%nat ->
  at_position older newer full (S i) (redo st).
Proof.
  intros (Hcur & Hu & Hr) Hlt.
  destruct (lookup_lt_is_Some_2 full (S i)) as [next Hnext]; [lia |].
  rewrite (drop_S _ _ _ Hnext) in Hr. cbn [rev] in Hr. rewrite app_assoc in Hr.
  destruct (redo_pops _ _ _ Hr) as (Ha' & Hr' & Hu' & _).
  split; [| split].
  - by rewrite Ha'.
  - by rewrite Hu', Hu, <- app_assoc, (take_S_r _ _ _ Hcur).
  - done.
Qed.

Lemma undo_iter older newer full i k st :
  at_position older newer full (i + k) st ->
  at_position older newer full i (Nat.iter k undo st).
Proof.
  revert i. induction k as [| k IH]; intros i Hpos.
  - by rewrite Nat.add_0_r in Hpos.
  - cbn [Nat.iter nat_rect]. apply undo_moves_back, IH.
    by replace (S i + k)%nat with (i + S k)%nat by lia.
Qed.

Lemma redo_iter older newer full i k st :
  at_position older newer full i st ->
  (i + k < length full)%nat ->
  at_position older newer full (i + k) (Nat.iter k redo st).
Proof.
  intros Hpos. induction k as [| k IH]; intros Hlt.
  - by rewrite Nat.add_0_r.
  - cbn [Nat.iter nat_rect]. replace (i + S k)%nat with (S (i + k)) by lia.
    apply redo_moves_forward; [apply IH |]; lia.
Qed.

Lemma undo_resets_selection older newer full i st :
  at_position older newer full (S i) st ->
  selectedAnnotationIndex (undo st) = (-1)%Z.
Proof.
  intros (Hcur & Hu & _).
  assert (Hlt : (S i < length full)%nat) by eauto using lookup_lt_Some.
  destruct (lookup_lt_is_Some_2 full i) as [prev Hprev]; [lia |].
  rewrite (take_S_r _ _ _ Hprev), app_assoc in Hu.
  by destruct (undo_pops _ _ _ Hu) as (_ & _ & _ & ->).
Qed.

Lemma redo_resets_selection older newer full i st :
  at_position older newer full i st ->
  (S i < length full)%nat ->
  selectedAnnotationIndex (redo st) = (-1)%Z.
Proof.
  intros (_ & _ & Hr) Hlt.
  destruct (lookup_lt_is_Some_2 full (S i)) as [next Hnext]; [lia |].
  rewrite (drop_S _ _ _ Hnext) in Hr. cbn [rev] in Hr. rewrite app_assoc in Hr.
  by destruct (redo_pops _ _ _ Hr) as (_ & _ & _ & ->).
Qed.

(** C2, as the code has it.  After [N] committed mutations (the length of
    [before]): [k <= N] undos show the model as it was just before
    mutation [N - k + 1] (entry [N - k] of the timeline), so [N] undos show
    the model before the first mutation; [k] redos after the [k] undos
    show the model as it was after the last mutation again.  Every commit
    pushes the model it found on the undo stack and empties the redo
    stack, and every undo or redo that is performed clears the
    selection. *)
Theorem undo_redo_after_mutations (before : list Annotations)
    (st st' : AppState) (k : nat) :
  run before st st' ->
  (k <= length before)%nat ->
  timeline before st' !! (length before - k)%nat
    = Some (annotations (Nat.iter k undo st'))
  /\ annotations (Nat.iter (length before) undo st') = annotations st
  /\ annotations (Nat.iter k redo (Nat.iter k undo st')) = annotations st'
  /\ undoStack (Nat.iter k redo (Nat.iter k undo st')) = undoStack st'
  /\ (forall j, (j < k)%nat ->
        selectedAnnotationIndex (undo (Nat.iter j undo st')) = (-1)%Z
        /\ selectedAnnotationIndex
             (redo (Nat.iter j redo (Nat.iter k undo st'))) = (-1)%Z)
  /\ (forall s s', commits s s' ->
        undoStack s' = undoStack s ++ [annotations s] /\ redoStack s' = []).
Proof.
  intros Hrun Hk.
  pose proof (run_at_position _ _ _ Hrun) as Hend.
  set (N := length before) in *. set (full := timeline before st') in *.
  assert (Hlen : length full = S N).
  { unfold full, timeline. rewrite length_app. cbn. lia. }
  assert (Hback : forall j, (j <= N)%nat ->
            at_position (undoStack st) (redoStack st') full (N - j)
              (Nat.iter j undo st')).
  { intros j Hj. apply undo_iter. by replace (N - j + j)%nat with N by lia. }
  assert (Hforth : forall j, (j <= k)%nat ->
            at_position (undoStack st) (redoStack st') full (N - k + j)
              (Nat.iter j redo (Nat.iter k undo st'))).
  { intros j Hj. apply redo_iter; [by apply Hback | lia]. }
  split; [| split; [| split; [| split; [| split]]]].
  - by destruct (Hback k Hk) as (-> & _).
  - destruct (Hback N (Nat.le_refl N)) as (Hcur & _).
    rewrite Nat.sub_diag in Hcur.
    pose proof (run_first_entry _ _ _ Hrun) as Hfirst. fold full in Hfirst.
    congruence.
  - destruct (Hforth k (Nat.le_refl k)) as (Hcur & _).
    replace (N - k + k)%nat with N in Hcur by lia.
    destruct Hend as (Hlast & _). congruence.
  - destruct (Hforth k (Nat.le_refl k)) as (_ & Hu & _).
    replace (N - k + k)%nat with N in Hu by lia.
    destruct Hend as (_ & Hu' & _). congruence.
  - intros j Hj. split.
    + eapply (undo_resets_selection _ _ full (N - S j)).
      replace (S (N - S j)) with (N - j)%nat by lia. apply Hback. lia.
    + eapply (redo_resets_selection _ _ full (N - k + j));
        [apply Hforth |]; lia.
  - apply commits_history.
Qed.

(** ** Page reordering *)

Lemma zip_delete {A B} (i : nat) (l : list A) (k : list B) :
  zip (delete i l) (delete i k) = delete i (zip l k).
Proof.
  revert i k. induction l as [| x l IH]; intros i k.
  - by destruct i.
  - destruct k as [| y k]; [by destruct i, l |].
    destruct i as [| i]; [done |]. cbn. by rewrite IH.
Qed.

Lemma zip_splice_insert {A B} (i : nat) (x : A) (y : B) (l : list A)
    (k : list B) :
  length l = length k ->
  zip (JS.splice_insert i x l) (JS.splice_insert i y k)
  = JS.splice_insert i (x, y) (zip l k).
Proof.
  intros Hlen. unfold JS.splice_insert.
  rewrite zip_with_app by (rewrite !length_take; lia).
  cbn. by rewrite zip_with_take, zip_with_drop.
Qed.

Lemma splice_insert_Permutation {A} (i j : nat) (x : A) (l : list A) :
  l !! j = Some x -> JS.splice_insert i x (delete j l) ≡ₚ l.
Proof.
  intros Hx. unfold JS.splice_insert.
  rewrite <- Permutation_middle, take_drop. symmetry.
  by apply delete_Permutation.
Qed.

(** C3, as the code has it.  A drop index names the gap in front of the
    page at that index, counted before the dragged page is taken out:
    dropping on the dragged page's own gaps changes nothing; otherwise the
    page order and the annotation lists undergo the same removal and the
    same insertion, so the sequence of (page, annotation list) pairs is
    moved as one and stays a permutation of what it was.  Moving index 0
    to drop index 2 of four pages gives [p1; p0; p2; p3], and the same for
    the annotation lists. *)
Theorem reorderPages_moves_both_alike (dragIndex dropIndex : nat)
    (st : AppState) (movedPage : nat) (movedAnn : list Annotation) :
  pageOrder st !! dragIndex = Some movedPage ->
  annotations st !! dragIndex = Some movedAnn ->
  length (pageOrder st) = length (annotations st) ->
  (dropIndex = dragIndex \/ dropIndex = S dragIndex ->
   reorderPages dragIndex dropIndex st = Some st)
  /\ (dropIndex <> dragIndex -> dropIndex <> S dragIndex ->
      exists st' adjustedDropIndex,
        adjustedDropIndex
          = (if (dragIndex <? dropIndex)%nat then (dropIndex - 1)%nat
             else dropIndex)
        /\ reorderPages dragIndex dropIndex st = Some st'
        /\ pageOrder st'
           = JS.splice_insert adjustedDropIndex movedPage
               (delete dragIndex (pageOrder st))
        /\ annotations st'
           = JS.splice_insert adjustedDropIndex movedAnn
               (delete dragIndex (annotations st))
        /\ zip (pageOrder st') (annotations st')
           = JS.splice_insert adjustedDropIndex (movedPage, movedAnn)
               (delete dragIndex (zip (pageOrder st) (annotations st)))
        /\ zip (pageOrder st') (annotations st')
           ≡ₚ zip (pageOrder st) (annotations st)
        /\ length (pageOrder st') = length (annotations st'))
  /\ (forall p0 p1 p2 p3 a0 a1 a2 a3,
        pageOrder st = [p0; p1; p2; p3] ->
        annotations st = [a0; a1; a2; a3] ->
        exists st',
          reorderPages 0 2 st = Some st'
          /\ pageOrder st' = [p1; p0; p2; p3]
          /\ annotations st' = [a1; a0; a2; a3]).
Proof.
  intros Hp Ha Hlen. split; [| split].
  3: { intros p0 p1 p2 p3 a0 a1 a2 a3 Hpo Han. unfold reorderPages.
       rewrite Hpo, Han. cbn. by eexists. }
  - intros Hsame. unfold reorderPages.
    destruct Hsame as [-> | ->].
    + by rewrite Nat.eqb_refl.
    + replace (S dragIndex =? dragIndex + 1)%nat with true
        by (symmetry; apply Nat.eqb_eq; lia).
      by rewrite orb_true_r.
  - intros Hne1 Hne2.
    eexists _, _. split; [reflexivity |].
    assert (Hre : reorderPages dragIndex dropIndex st
                  = Some (set_annotations
                            (JS.splice_insert
                               (if (dragIndex <? dropIndex)%nat
                                then (dropIndex - 1)%nat else dropIndex)
                               movedAnn (delete dragIndex (annotations st)))
                            (set_pageOrder
                               (JS.splice_insert
                                  (if (dragIndex <? dropIndex)%nat
                                   then (dropIndex - 1)%nat else dropIndex)
                                  movedPage (delete dragIndex (pageOrder st)))
                               st))).
    { unfold reorderPages, JS.splice_remove.
      replace (dropIndex =? dragIndex)%nat with false
        by (symmetry; apply Nat.eqb_neq; lia).
      replace (dropIndex =? dragIndex + 1)%nat with false
        by (symmetry; apply Nat.eqb_neq; lia).
      cbn [orb]. rewrite Hp. cbn. by rewrite Ha. }
    split; [exact Hre |]. cbn [pageOrder annotations set_annotations set_pageOrder].
    split; [done |]. split; [done |].
    assert (Hzip : zip (pageOrder st) (annotations st) !! dragIndex
                   = Some (movedPage, movedAnn)).
    { rewrite lookup_zip_with, Hp. cbn. by rewrite Ha. }
    assert (Heq : zip (JS.splice_insert
                         (if (dragIndex <? dropIndex)%nat
                          then (dropIndex - 1)%nat else dropIndex)
                         movedPage (delete dragIndex (pageOrder st)))
                    (JS.splice_insert
                       (if (dragIndex <? dropIndex)%nat
                        then (dropIndex - 1)%nat else dropIndex)
                       movedAnn (delete dragIndex (annotations st)))
                  = JS.splice_insert
                      (if (dragIndex <? dropIndex)%nat
                       then (dropIndex - 1)%nat else dropIndex)
                      (movedPage, movedAnn)
                      (delete dragIndex (zip (pageOrder st) (annotations st)))).
    { rewrite zip_splice_insert, zip_delete; [done |].
      rewrite !length_delete by eauto. lia. }
    split; [exact Heq |]. split.
    + rewrite Heq. by apply splice_insert_Permutation.
    + unfold JS.splice_insert. rewrite !length_app. cbn.
      rewrite !length_take, !length_drop, !length_delete by eauto. lia.
Qed.

(** ** Resizing an image *)

Lemma lookupZ_of_nat {A} (i : nat) (l : list A) :
  lookupZ (Z.of_nat i) l = l !! i.
Proof.
  unfold lookupZ. replace (Z.of_nat i <? 0)%Z with false
    by (symmetry; apply Z.ltb_ge; lia).
  by rewrite Nat2Z.id.
Qed.

Lemma onMouseMove_resize_eq (pos : Point) (st : AppState)
    (pageIndex i : nat) (pageAnns : list Annotation) (img : ImageAnnotation) :
  dragMode st = DragResize ->
  pageIndexOf st = Some pageIndex ->
  annotations st !! pageIndex = Some pageAnns ->
  selectedAnnotationIndex st = Z.of_nat i ->
  pageAnns !! i = Some (AImage img) ->
  onMouseMove (Some pos) st
  = Some (set_annotations
            (<[pageIndex := <[i := resized pos st img]> pageAnns]>
               (annotations st)) st).
Proof.
  intros Hmode Hpage Hanns Hsel Himg.
  unfold onMouseMove. rewrite Hmode, Hpage, Hsel.
  replace (Z.of_nat i =? -1)%Z with false by (symmetry; apply Z.eqb_neq; lia).
  rewrite Hanns. cbn [mbind option_bind]. rewrite lookupZ_of_nat, Himg.
  cbn [mbind option_bind]. rewrite Nat2Z.id.
  by destruct (isDrawing st).
Qed.

Lemma onMouseMove_resizes_image (pos : Point) (st : AppState)
    (pageIndex i : nat) (pageAnns : list Annotation) (img : ImageAnnotation) :
  dragMode st = DragResize ->
  pageIndexOf st = Some pageIndex ->
  annotations st !! pageIndex = Some pageAnns ->
  selectedAnnotationIndex st = Z.of_nat i ->
  pageAnns !! i = Some (AImage img) ->
  exists st',
    onMouseMove (Some pos) st = Some st'
    /\ annotationAt pageIndex i st' = Some (resized pos st img)
    /\ ((candidateWidth pos st <= 10)%Q -> annotations st' = annotations st).
Proof.
  intros Hmode Hpage Hanns Hsel Himg.
  eexists. split; [by eapply onMouseMove_resize_eq |].
  assert (Hlt1 : (pageIndex < length (annotations st))%nat)
    by eauto using lookup_lt_Some.
  assert (Hlt2 : (i < length pageAnns)%nat) by eauto using lookup_lt_Some.
  split.
  - unfold annotationAt. cbn [annotations set_annotations].
    rewrite list_lookup_insert_eq by done. cbn [mbind option_bind].
    by rewrite list_lookup_insert_eq.
  - intros Hle. cbn [annotations set_annotations]. unfold resized.
    destruct (Qlt_le_dec 10 (candidateWidth pos st)) as [Hlt | _]; [lra |].
    by rewrite (list_insert_id pageAnns), list_insert_id.
Qed.

(** C4.  Whenever a pointer move in resize mode is applied to the selected
    image, the image afterwards has height = width * originalAspectRatio,
    the stored ratio is the one it had, and height / width equals it. *)
Theorem resize_keeps_aspect_ratio (pos : Point) (st : AppState)
    (pageIndex i : nat) (pageAnns : list Annotation) (img : ImageAnnotation) :
  dragMode st = DragResize ->
  pageIndexOf st = Some pageIndex ->
  annotations st !! pageIndex = Some pageAnns ->
  selectedAnnotationIndex st = Z.of_nat i ->
  pageAnns !! i = Some (AImage img) ->
  (10 < candidateWidth pos st)%Q ->
  exists st' img',
    onMouseMove (Some pos) st = Some st'
    /\ annotationAt pageIndex i st' = Some (AImage img')
    /\ i_width img' = candidateWidth pos st
    /\ i_height img' = (i_width img' * i_originalAspectRatio img')%Q
    /\ i_originalAspectRatio img' = i_originalAspectRatio img
    /\ (i_height img' / i_width img' == i_originalAspectRatio img)%Q.
Proof.
  intros Hmode Hpage Hanns Hsel Himg Hwide.
  destruct (onMouseMove_resizes_image pos st pageIndex i pageAnns img)
    as (st' & Hmove & Hat & _); try done.
  unfold resized in Hat.
  destruct (Qlt_le_dec 10 (candidateWidth pos st)) as [_ | Hle]; [| lra].
  eexists st', _. split; [exact Hmove |]. split; [exact Hat |].
  cbn [i_width i_height i_originalAspectRatio].
  repeat split. field. lra.
Qed.

(** C5.  A pointer move in resize mode whose candidate width is not above
    10 leaves the image, and the whole model, as they were; the new width
    and the aspect-locked height are stored exactly when the candidate
    width exceeds 10. *)
Theorem resize_below_threshold_is_ignored (pos : Point) (st : AppState)
    (pageIndex i : nat) (pageAnns : list Annotation) (img : ImageAnnotation) :
  dragMode st = DragResize ->
  pageIndexOf st = Some pageIndex ->
  annotations st !! pageIndex = Some pageAnns ->
  selectedAnnotationIndex st = Z.of_nat i ->
  pageAnns !! i = Some (AImage img) ->
  exists st' img',
    onMouseMove (Some pos) st = Some st'
    /\ annotationAt pageIndex i st' = Some (AImage img')
    /\ ((candidateWidth pos st <= 10)%Q ->
        img' = img /\ annotations st' = annotations st)
    /\ ((10 < candidateWidth pos st)%Q ->
        i_width img' = candidateWidth pos st
        /\ i_height img'
           = (candidateWidth pos st * i_originalAspectRatio img)%Q)
    /\ (img' <> img -> (10 < candidateWidth pos st)%Q).
Proof.
  intros Hmode Hpage Hanns Hsel Himg.
  destruct (onMouseMove_resizes_image pos st pageIndex i pageAnns img)
    as (st' & Hmove & Hat & Hsame); try done.
  unfold resized in Hat.
  destruct (Qlt_le_dec 10 (candidateWidth pos st)) as [Hlt | Hle].
  - eexists st', _. split; [exact Hmove |]. split; [exact Hat |].
    split; [intros; exfalso; lra |]. split; [intros; split; reflexivity |].
    done.
  - exists st', img. split; [exact Hmove |]. split; [exact Hat |].
    split; [| split; [intros; exfalso; lra | done]].
    intros _. split; [done | by apply Hsame].
Qed.

(** ** Blank text edits *)

Lemma trimStart_blank (s : JS.jsstring) :
  forallb JS.isWhiteSpace s = true -> JS.trimStart s = [].
Proof.
  induction s as [| c s IH]; [done |]. cbn.
  intros [Hc Hs]%andb_prop. rewrite Hc. auto.
Qed.

Lemma trimStart_nil_blank (s : JS.jsstring) :
  JS.trimStart s = [] -> forallb JS.isWhiteSpace s = true.
Proof.
  induction s as [| c s IH]; [done |]. cbn.
  destruct (JS.isWhiteSpace c); [auto | done].
Qed.

Lemma trimStart_head (s : JS.jsstring) (c : N) (s' : JS.jsstring) :
  JS.trimStart s = c :: s' -> JS.isWhiteSpace c = false.
Proof.
  induction s as [| d s IH]; [done |]. cbn.
  destruct (JS.isWhiteSpace d) eqn:Hd; [auto |]. by intros [= <- _].
Qed.

(** [!text.trim()] holds exactly for the empty and the white-space-only
    strings. *)
Lemma trim_falsy (s : JS.jsstring) :
  JS.falsy (JS.trim s) = forallb JS.isWhiteSpace s.
Proof.
  destruct (forallb JS.isWhiteSpace s) eqn:Hs.
  - unfold JS.trim. by rewrite trimStart_blank.
  - unfold JS.trim, JS.trimEnd.
    destruct (JS.trimStart s) as [| c t] eqn:Ht.
    { apply trimStart_nil_blank in Ht. congruence. }
    destruct (rev (JS.trimStart (rev (c :: t)))) as [| d u] eqn:Hr; [| done].
    exfalso.
    assert (Hnil : JS.trimStart (rev (c :: t)) = []).
    { by rewrite <- (rev_involutive (JS.trimStart _)), Hr. }
    apply trimStart_nil_blank in Hnil.
    rewrite forallb_forall in Hnil.
    specialize (Hnil c). rewrite <- in_rev in Hnil.
    apply trimStart_head in Ht. rewrite Hnil in Ht; [done | by left].
Qed.

(** C6.  Finalizing a text edit whose buffer is empty or white space only
    adds no annotation, changes none, and leaves both history stacks
    alone: while the overlay is open the edit is cancelled, otherwise
    nothing happens at all. *)
Theorem finalize_blank_text_is_cancelled (st : AppState) :
  blankBuffer st ->
  exists st',
    finalizeTextAnnotation st = Some st'
    /\ annotations st' = annotations st
    /\ undoStack st' = undoStack st
    /\ redoStack st' = redoStack st
    /\ (isEditingText st = true -> st' = cancelTextAnnotation st)
    /\ (isEditingText st = false -> st' = st).
Proof.
  unfold blankBuffer, finalizeTextAnnotation. intros Hblank.
  destruct (isEditingText st) eqn:Hedit; cbn [negb].
  - exists (cancelTextAnnotation st).
    split; [| by repeat split].
    destruct (textEditingState st) as [state |]; [| done].
    by rewrite trim_falsy, Hblank.
  - exists st. by repeat split.
Qed.

(** ** Page-structure operations ask first *)

Lemma confirm_declined action (st : AppState) :
  hasAnnotations st = true ->
  confirmAndProceedWithOrganize false action st
  = (st, [ConfirmDiscardAnnotations]).
Proof.
  unfold confirmAndProceedWithOrganize, hasAnnotations. by intros ->.
Qed.

Lemma confirm_asked_first answer action (st : AppState) :
  hasAnnotations st = true ->
  exists st' shown,
    confirmAndProceedWithOrganize answer action st
    = (st', ConfirmDiscardAnnotations :: shown).
Proof.
  unfold confirmAndProceedWithOrganize, hasAnnotations. intros ->.
  destruct answer; [| by eexists _, _].
  destruct (action st) as [st' shown]. by eexists _, _.
Qed.

(** C7, as the code has it.  While some page has an annotation, rotating,
    duplicating, inserting, and deleting a page of a document that has
    more than one, all start by asking for confirmation, and when the user
    declines they return the state they were given: page order,
    annotations, history and document are untouched.  Deleting from a
    document of at most one page never asks: it is refused with an alert,
    and likewise changes nothing. *)
Theorem structural_operations_ask_first (st : AppState) :
  hasAnnotations st = true ->
  (forall answer degrees page, exists st' shown,
      rotatePage answer degrees page st
      = (st', ConfirmDiscardAnnotations :: shown))
  /\ (forall answer page, exists st' shown,
        duplicatePage answer page st
        = (st', ConfirmDiscardAnnotations :: shown))
  /\ (forall answer buffer index, exists st' shown,
        processAndInsertPdf answer buffer index st
        = (st', ConfirmDiscardAnnotations :: shown))
  /\ (forall answer page, (1 < totalPages st)%nat -> exists st' shown,
        deletePage answer page st
        = (st', ConfirmDiscardAnnotations :: shown))
  /\ (forall degrees page,
        rotatePage false degrees page st = (st, [ConfirmDiscardAnnotations]))
  /\ (forall page,
        duplicatePage false page st = (st, [ConfirmDiscardAnnotations]))
  /\ (forall buffer index,
        processAndInsertPdf false buffer index st
        = (st, [ConfirmDiscardAnnotations]))
  /\ (forall page, (1 < totalPages st)%nat ->
        deletePage false page st = (st, [ConfirmDiscardAnnotations]))
  /\ (forall answer page, (totalPages st <= 1)%nat ->
        deletePage answer page st = (st, [AlertLastPage])).
Proof.
  intros Hanns.
  assert (Hgt : forall n, (1 < n)%nat -> (n <=? 1)%nat = false)
    by (intros; apply Nat.leb_gt; lia).
  repeat split; intros.
  - by apply confirm_asked_first.
  - by apply confirm_asked_first.
  - by apply confirm_asked_first.
  - unfold deletePage. rewrite Hgt by done. by apply confirm_asked_first.
  - by apply confirm_declined.
  - by apply confirm_declined.
  - by apply confirm_declined.
  - unfold deletePage. rewrite Hgt by done. by apply confirm_declined.
  - unfold deletePage.
    by replace (totalPages st <=? 1)%nat with true
      by (symmetry; apply Nat.leb_le; lia).
Qed.

(** ** The delete key *)

(** C8.  With an annotation selected, the delete key removes exactly that
    index from the current page's list (earlier entries stay, later ones
    move up by one, other pages are untouched), after pushing the model it
    found on the undo stack and emptying the redo stack, and clears the
    selection.  With nothing selected and the page-organization tab
    active, the key is the page-delete operation on the current page when
    a document of more than one page is loaded; on a document of at most
    one page neither the key nor the page-delete operation changes the
    state. *)
Theorem delete_key_removes_selection_or_page (answer : bool) (st : AppState) :
  (forall pageIndex pageAnns,
      (-1 < selectedAnnotationIndex st)%Z ->
      pageIndexOf st = Some pageIndex ->
      annotations st !! pageIndex = Some pageAnns ->
      exists st',
        onDeleteKeyPressed answer st = Some (st', [])
        /\ annotations st' !! pageIndex
           = Some (delete (Z.to_nat (selectedAnnotationIndex st)) pageAnns)
        /\ (forall j,
              annotationAt pageIndex j st'
              = if (j <? Z.to_nat (selectedAnnotationIndex st))%nat
                then pageAnns !! j else pageAnns !! S j)
        /\ (forall q, q <> pageIndex ->
              annotations st' !! q = annotations st !! q)
        /\ undoStack st' = undoStack st ++ [annotations st]
        /\ redoStack st' = []
        /\ selectedAnnotationIndex st' = (-1)%Z
        /\ pageOrder st' = pageOrder st)
  /\ ((selectedAnnotationIndex st <= -1)%Z ->
      activeTab st = TabOrganize ->
      (isPdfLoaded st = true -> (1 < totalPages st)%nat ->
       onDeleteKeyPressed answer st
       = Some (deletePage answer (currentPageNum st) st))
      /\ ((totalPages st <= 1)%nat ->
          onDeleteKeyPressed answer st = Some (st, [])
          /\ forall page, deletePage answer page st = (st, [AlertLastPage]))).
Proof.
  split.
  - intros pageIndex pageAnns Hsel Hpage Hanns.
    assert (Hlt : (pageIndex < length (annotations st))%nat)
      by eauto using lookup_lt_Some.
    unfold onDeleteKeyPressed.
    apply Z.ltb_lt in Hsel. rewrite Hsel.
    change (pageIndexOf (pushHistory st)) with (pageIndexOf st).
    rewrite Hpage.
    change (annotations (pushHistory st)) with (annotations st).
    rewrite Hanns. cbn [mbind option_bind].
    eexists. split; [reflexivity |].
    cbn [annotations set_annotations set_selectedAnnotationIndex].
    split; [by rewrite list_lookup_insert_eq |]. split.
    { intros j. unfold annotationAt.
      cbn [annotations set_annotations set_selectedAnnotationIndex].
      rewrite list_lookup_insert_eq by done. cbn [mbind option_bind].
      destruct (j <? Z.to_nat (selectedAnnotationIndex st))%nat eqn:Hj.
      - apply Nat.ltb_lt in Hj. by rewrite list_lookup_delete_lt.
      - apply Nat.ltb_ge in Hj. by rewrite list_lookup_delete_ge. }
    split; [intros q Hq; by rewrite list_lookup_insert_ne |].
    by repeat split.
  - intros Hsel Htab.
    assert (Hnone : (-1 <? selectedAnnotationIndex st)%Z = false)
      by (apply Z.ltb_ge; lia).
    split.
    + intros Hloaded Hmany. unfold onDeleteKeyPressed.
      rewrite Hnone, Htab, Hloaded.
      apply Nat.ltb_lt in Hmany. by rewrite Hmany.
    + intros Hone. split.
      * unfold onDeleteKeyPressed. rewrite Hnone, Htab.
        replace (1 <? totalPages st)%nat with false
          by (symmetry; apply Nat.ltb_ge; lia).
        by rewrite andb_false_r.
      * intros page. unfold deletePage.
        by replace (totalPages st <=? 1)%nat with true
          by (symmetry; apply Nat.leb_le; lia).
Qed.

End EngineProperties.


(** * Export coordinates *)

Lemma exportAnnotation_exportedAs (pdfPageHeight : Q) (ann : Annotation) :
  drawable ann ->
  exists call,
    exportAnnotation pdfPageHeight ann = Some call
    /\ exportedAs pdfPageHeight ann call.
Proof.
  destruct ann as [t | d | i]; cbn.
  - intros _. by eexists.
  - intros Hpath. destruct (d_path d) as [| p0 rest] eqn:Hd; [done |].
    eexists. split; [reflexivity |]. eexists _, _. split; [reflexivity |].
    cbn. f_equal. by rewrite map_map.
  - intros _. by eexists.
Qed.

Lemma mapM_exportAnnotation (pdfPageHeight : Q) (pageAnns : list Annotation) :
  Forall drawable pageAnns ->
  exists calls,
    mapM (exportAnnotation pdfPageHeight) pageAnns = Some calls
    /\ Forall2 (exportedAs pdfPageHeight) pageAnns calls.
Proof.
  induction 1 as [| ann pageAnns Hann _ (calls & Hcalls & Hall)].
  - by exists [].
  - destruct (exportAnnotation_exportedAs pdfPageHeight ann Hann)
      as (call & Hcall & Has).
    exists (call :: calls). split; [| by constructor].
    cbn. rewrite Hcall. cbn. by rewrite Hcalls.
Qed.

(** C1.  Provided no stroke has an empty path, the export succeeds with
    one list of calls per page, and the call of every annotation keeps x
    and has y = pageHeight - y - size for a text and y = pageHeight - y -
    height for an image, while a stroke's points are flipped one by one to
    (x, pageHeight - y); the stroke (10,10), (20,10), (20,20) on a page of
    height 100 is drawn through (10,90), (20,90), (20,80). *)
Theorem export_flips_y (pageHeights : list Q) (anns : Annotations) :
  Forall (Forall drawable) anns ->
  exists calls,
    exportAnnotations pageHeights anns = Some calls
    /\ length calls = length pageHeights
    /\ (forall i pdfPageHeight pageAnns j ann,
          pageHeights !! i = Some pdfPageHeight ->
          anns !! i = Some pageAnns ->
          pageAnns !! j = Some ann ->
          exists call,
            calls !! i ≫= (.!! j) = Some call
            /\ exportedAs pdfPageHeight ann call)
    /\ (forall color lineWidth,
          svgPoints
            <$> exportAnnotation 100
                  (ADraw (mkDraw [mkPoint 10 10; mkPoint 20 10; mkPoint 20 20]
                            color lineWidth))
          = Some [(10, 90); (20, 90); (20, 80)]%Q).
Proof.
  assert (Hexample : forall color lineWidth,
            svgPoints
              <$> exportAnnotation 100
                    (ADraw (mkDraw [mkPoint 10 10; mkPoint 20 10; mkPoint 20 20]
                              color lineWidth))
            = Some [(10, 90); (20, 90); (20, 80)]%Q) by (intros; reflexivity).
  revert anns. induction pageHeights as [| h hs IH]; intros anns Hok.
  - exists []. split; [done |]. split; [done |]. split; [| exact Hexample].
    intros i ? ? ? ? Hi. by destruct i.
  - assert (Hhead : Forall drawable (default [] (head anns))).
    { destruct Hok; [constructor | done]. }
    assert (Htail : Forall (Forall drawable) (tail anns)).
    { destruct Hok; [constructor | done]. }
    destruct (mapM_exportAnnotation h _ Hhead) as (calls & Hcalls & Hall).
    destruct (IH _ Htail) as (others & Hothers & Hlen & Hrest & _).
    exists (calls :: others). cbn [exportAnnotations].
    rewrite Hcalls. cbn [mbind option_bind]. rewrite Hothers.
    split; [done |]. split; [cbn; by rewrite Hlen |].
    split; [| exact Hexample].
    intros i H pageAnns j ann Hi Hpage Hann. destruct i as [| i].
    + injection Hi as <-. destruct anns as [| first anns]; [done |].
      injection Hpage as <-. cbn in Hall |- *.
      destruct (Forall2_lookup_l _ _ _ _ _ Hall Hann) as (call & Hcall & Has).
      by exists call.
    + destruct anns as [| first anns]; [done |].
      by apply (Hrest i H pageAnns j ann).
Qed.

(** * Watermark: preview against export *)

Section WatermarkProperties.

Import Watermark.
Local Open Scope R_scope.

Lemma cos_PI4_pos : 0 < cos (PI / 4).
Proof. apply cos_gt_0; pose proof PI_RGT_0; Lra.lra. Qed.

(** The two rotations are the same on the page: a point at the offset
    [(u, v)] (document units, [v] upwards) from the centre of rotation is
    shown at the same page location by the canvas, turned by -45 degrees
    about its centre with y pointing down, and by the PDF operators, which
    turn by +45 degrees about the page centre with y pointing up. *)
Lemma watermark_rotations_agree (width height scale pixelRatio u v : R) :
  scale * pixelRatio <> 0 ->
  canvasToPage scale pixelRatio
    (apply
       (previewTransform (width * scale * pixelRatio)
          (height * scale * pixelRatio))
       (width * scale * pixelRatio / 2 + u * (scale * pixelRatio),
        height * scale * pixelRatio / 2 - v * (scale * pixelRatio)))
  = pdfToPage height (apply (exportTransform width height) (u, v)).
Proof.
  intros Hk.
  assert (Hs : scale <> 0) by (intros ->; apply Hk; ring).
  assert (Hp : pixelRatio <> 0) by (intros ->; apply Hk; ring).
  unfold canvasToPage, pdfToPage, previewTransform, exportTransform,
    rotateDegrees, rotate, translate, concat, apply, identity.
  cbn [fst snd m_a m_b m_c m_d m_e m_f].
  replace (45 * PI / 180) with (PI / 4) by field.
  replace (- PI / 4) with (- (PI / 4)) by field.
  rewrite cos_neg, sin_neg.
  f_equal; field; auto.
Qed.

(** When the two font engines agree on where the middle of the text is,
    the exported watermark is the previewed one enlarged 1.5 times about
    the page centre: the preview font is [size / 1.5] document units, the
    exported one [size]. *)
Lemma watermark_export_is_preview_enlarged (m : Metrics)
    (width height scale pixelRatio size alpha beta : R) :
  scale * pixelRatio <> 0 ->
  middle m = ascent m - totalHeight m / 2 ->
  let centre := (width / 2, height / 2) in
  let preview := previewPoint m width height scale pixelRatio size alpha beta in
  let export := exportPoint m width height size alpha beta in
  fst export - fst centre = 1.5 * (fst preview - fst centre)
  /\ snd export - snd centre = 1.5 * (snd preview - snd centre).
Proof.
  intros Hk Hmid.
  assert (Hs : scale <> 0) by (intros ->; apply Hk; ring).
  assert (Hp : pixelRatio <> 0) by (intros ->; apply Hk; ring).
  unfold previewPoint, exportPoint, canvasToPage, pdfToPage, previewTransform,
    exportTransform, rotateDegrees, rotate, translate, concat, apply, identity.
  cbn [fst snd m_a m_b m_c m_d m_e m_f]. rewrite Hmid.
  replace (45 * PI / 180) with (PI / 4) by field.
  replace (- PI / 4) with (- (PI / 4)) by field.
  rewrite cos_neg, sin_neg.
  split; field; repeat split; auto; Lra.lra.
Qed.

(** C9: where the code departs from it.  For the default watermark (size
    100) on a 600 by 800 page at the default zoom 1.5 and pixel ratio 1,
    whatever the metrics of the font: the preview and the export cannot
    both put the start of the baseline and the point one font size along
    it at the same page location.  The two points are 100 / 1.5 units
    apart in the preview and 100 units apart in the export. *)
Theorem watermark_preview_and_export_differ (m : Metrics) :
  ~ (previewPoint m 600 800 1.5 1 100 0 0 = exportPoint m 600 800 100 0 0
     /\ previewPoint m 600 800 1.5 1 100 1 0 = exportPoint m 600 800 100 1 0).
Proof.
  intros [Hstart Hnext].
  apply (f_equal fst) in Hstart, Hnext. revert Hstart Hnext.
  unfold previewPoint, exportPoint, canvasToPage, pdfToPage, previewTransform,
    exportTransform, rotateDegrees, rotate, translate, concat, apply, identity.
  cbn [fst snd m_a m_b m_c m_d m_e m_f].
  replace (45 * PI / 180) with (PI / 4) by field.
  replace (- PI / 4) with (- (PI / 4)) by field.
  rewrite cos_neg, sin_neg.
  pose proof cos_PI4_pos as Hcos.
  set (c := cos (PI / 4)) in *. set (s := sin (PI / 4)) in *.
  intros Hstart Hnext. Lra.lra.
Qed.

End WatermarkProperties.

(** * The examples, checked *)

Lemma zoom_scale_stays_in_range_witness :
  (scale (opened 3) == 1.5)%Q
  /\ (0.25 <= scale (fold_left applyZoom
                       (repeat ZoomIn 20 ++ repeat ZoomOut 30) (opened 3))
       <= 5)%Q.
Proof.
  assert (Hinit : (scale (opened 3) == 1.5)%Q) by reflexivity.
  split; [exact Hinit |].
  exact (proj1 (zoom_scale_stays_in_range
                  (repeat ZoomIn 20 ++ repeat ZoomOut 30) (opened 3) Hinit)).
Defined.

Lemma export_flips_y_witness :
  Forall (Forall drawable) [[stroke]; [note; photo]]
  /\ exists calls,
       exportAnnotations [100; 800]%Q [[stroke]; [note; photo]] = Some calls
       /\ length calls = 2%nat.
Proof.
  assert (H : Forall (Forall drawable) [[stroke]; [note; photo]])
    by (repeat constructor; discriminate).
  split; [exact H |].
  destruct (export_flips_y [100; 800]%Q [[stroke]; [note; photo]] H)
    as (calls & Hcalls & Hlen & _).
  by exists calls.
Defined.

(** The calls of those two pages, computed. *)
Lemma export_example :
  exportAnnotations [100; 800]%Q [[stroke]; [note; photo]]
  = Some [[DrawSvgPath [SvgMoveTo 10 90; SvgLineTo 20 90; SvgLineTo 20 80]
             (2 / 1.5)];
          [DrawText (JS.lit "Hi") 10 764 (JS.lit "Helvetica") 16
             (JS.lit "#000000") (16 * 1.2);
           DrawImage Png (JS.lit "data:image/png;base64,AAAA") 50 640 200
             100]].
Proof. reflexivity. Qed.

(** The history of [noteAndPhoto]: two commits from the opened page. *)
Lemma noteAndPhoto_run :
  run [annotations (opened 1); annotations oneNote] (opened 1) noteAndPhoto.
Proof.
  change [annotations (opened 1); annotations oneNote]
    with ([annotations (opened 1)] ++ [annotations oneNote]).
  apply run_commit with (st1 := oneNote).
  - apply (run_commit [] (opened 1) (opened 1) oneNote).
    + apply run_start.
    + apply commits_add with (annotation := note). evaluate.
  - apply commits_add with (annotation := photo). evaluate.
Qed.

Lemma undo_redo_after_mutations_witness :
  run [annotations (opened 1); annotations oneNote] (opened 1) noteAndPhoto
  /\ (1 <= 2)%nat
  /\ annotations (undo noteAndPhoto) = annotations oneNote
  /\ annotations (undo (undo noteAndPhoto)) = annotations (opened 1)
  /\ annotations (redo (undo noteAndPhoto)) = annotations noteAndPhoto.
Proof.
  assert (Hle : (1 <= length [annotations (opened 1); annotations oneNote])%nat)
    by (cbn [length]; lia).
  destruct (undo_redo_after_mutations
              [annotations (opened 1); annotations oneNote]
              (opened 1) noteAndPhoto 1 noteAndPhoto_run Hle)
    as (Hback & Hfirst & Hforth & _).
  split; [exact noteAndPhoto_run |]. split; [lia |].
  vm_compute in Hback, Hfirst, Hforth.
  split; [| split]; vm_compute; congruence.
Defined.

(** C2 as stated fails: one mutation, one undo, one redo.  The model is
    then the one after the mutation, not the one before it. *)
Lemma undo_then_redo_shows_the_later_model :
  run [annotations (opened 1)] (opened 1) oneNote
  /\ annotations (opened 1) = [[]]
  /\ annotations (Nat.iter 1 redo (Nat.iter 1 undo oneNote)) = [[note]]
  /\ timeline [annotations (opened 1)] oneNote !! (1 - 1)%nat
     <> Some (annotations (Nat.iter 1 redo (Nat.iter 1 undo oneNote))).
Proof.
  split; [| split; [evaluate | split; [evaluate | evaluate]]].
  apply (run_commit [] (opened 1) (opened 1) oneNote).
  - apply run_start.
  - apply commits_add with (annotation := note). evaluate.
Qed.

Lemma reorderPages_moves_both_alike_witness :
  pageOrder fourPages !! 0%nat = Some 1%nat
  /\ annotations fourPages !! 0%nat = Some [note]
  /\ length (pageOrder fourPages) = length (annotations fourPages)
  /\ exists st',
       reorderPages 0 2 fourPages = Some st'
       /\ pageOrder st'
          = JS.splice_insert 1 1%nat (delete 0%nat (pageOrder fourPages))
       /\ zip (pageOrder st') (annotations st')
          ≡ₚ zip (pageOrder fourPages) (annotations fourPages).
Proof.
  assert (Hp : pageOrder fourPages !! 0%nat = Some 1%nat) by evaluate.
  assert (Ha : annotations fourPages !! 0%nat = Some [note]) by evaluate.
  assert (Hl : length (pageOrder fourPages) = length (annotations fourPages))
    by evaluate.
  destruct (reorderPages_moves_both_alike 0 2 fourPages 1 [note] Hp Ha Hl)
    as (_ & Hmove & _).
  destruct Hmove as (st' & adj & -> & Hre & Hpo & _ & _ & Hperm & _);
    [lia | lia |].
  repeat (split; [assumption |]). by exists st'.
Defined.

(** The same move, computed. *)
Lemma reorder_example :
  reorderPages 0 2 fourPages
  = Some (set_annotations [[photo]; [note]; [stroke]; []]
            (set_pageOrder [2; 1; 3; 4]%nat fourPages)).
Proof. evaluate. Qed.

(** C3 as stated fails: moving the page at index 0 to drop index 2 of four
    pages p0 = 1, p1 = 2, p2 = 3, p3 = 4 gives [p1; p0; p2; p3], not
    [p1; p2; p0; p3]. *)
Lemma reorder_0_to_2_gives_p1_p0_p2_p3 :
  pageOrder fourPages = [1; 2; 3; 4]%nat
  /\ pageOrder <$> reorderPages 0 2 fourPages = Some [2; 1; 3; 4]%nat
  /\ pageOrder <$> reorderPages 0 2 fourPages <> Some [2; 3; 1; 4]%nat.
Proof. split; [evaluate | split; evaluate]. Qed.

Lemma resize_keeps_aspect_ratio_witness :
  dragMode resizing = DragResize
  /\ pageIndexOf resizing = Some 0%nat
  /\ annotations resizing !! 0%nat = Some [note; photo]
  /\ selectedAnnotationIndex resizing = Z.of_nat 1
  /\ (10 < candidateWidth (mkPoint 525 300) resizing)%Q
  /\ exists st' img',
       onMouseMove (Some (mkPoint 525 300)) resizing = Some st'
       /\ annotationAt 0 1 st' = Some (AImage img')
       /\ (i_width img' == 300)%Q
       /\ (i_height img' == 150)%Q.
Proof.
  assert (Hmode : dragMode resizing = DragResize) by evaluate.
  assert (Hpage : pageIndexOf resizing = Some 0%nat) by evaluate.
  assert (Hanns : annotations resizing !! 0%nat = Some [note; photo])
    by evaluate.
  assert (Hsel : selectedAnnotationIndex resizing = Z.of_nat 1) by evaluate.
  assert (Himg : [note; photo] !! 1%nat
                 = Some (AImage (mkImage 50 60 200 100
                                   (JS.lit "data:image/png;base64,AAAA") 0.5)))
    by reflexivity.
  assert (Hwide : (10 < candidateWidth (mkPoint 525 300) resizing)%Q)
    by evaluate.
  destruct (resize_keeps_aspect_ratio (mkPoint 525 300) resizing 0 1
              [note; photo] _ Hmode Hpage Hanns Hsel Himg Hwide)
    as (st' & img' & Hmove & Hat & Hw & Hh & Hr & _).
  repeat (split; [assumption |]).
  exists st', img'. split; [exact Hmove |]. split; [exact Hat |].
  rewrite Hh, Hr, Hw. split; vm_compute; reflexivity.
Defined.

Lemma resize_below_threshold_is_ignored_witness :
  dragMode resizing = DragResize
  /\ pageIndexOf resizing = Some 0%nat
  /\ annotations resizing !! 0%nat = Some [note; photo]
  /\ selectedAnnotationIndex resizing = Z.of_nat 1
  /\ (candidateWidth (mkPoint 45 300) resizing <= 10)%Q
  /\ exists st',
       onMouseMove (Some (mkPoint 45 300)) resizing = Some st'
       /\ annotationAt 0 1 st' = Some photo
       /\ annotations st' = annotations resizing.
Proof.
  assert (Hmode : dragMode resizing = DragResize) by evaluate.
  assert (Hpage : pageIndexOf resizing = Some 0%nat) by evaluate.
  assert (Hanns : annotations resizing !! 0%nat = Some [note; photo])
    by evaluate.
  assert (Hsel : selectedAnnotationIndex resizing = Z.of_nat 1) by evaluate.
  assert (Himg : [note; photo] !! 1%nat
                 = Some (AImage (mkImage 50 60 200 100
                                   (JS.lit "data:image/png;base64,AAAA") 0.5)))
    by reflexivity.
  assert (Hlow : (candidateWidth (mkPoint 45 300) resizing <= 10)%Q)
    by (vm_compute; discriminate).
  destruct (resize_below_threshold_is_ignored (mkPoint 45 300) resizing 0 1
              [note; photo] _ Hmode Hpage Hanns Hsel Himg)
    as (st' & img' & Hmove & Hat & Hsame & _).
  destruct (Hsame Hlow) as [-> Hmodel].
  repeat (split; [assumption |]).
  exists st'. split; [exact Hmove |]. split; [exact Hat | exact Hmodel].
Defined.

Lemma finalize_blank_text_is_cancelled_witness :
  blankBuffer typingSpaces
  /\ finalizeTextAnnotation typingSpaces
     = Some (cancelTextAnnotation typingSpaces)
  /\ annotations (cancelTextAnnotation typingSpaces) = annotations typingSpaces
  /\ undoStack (cancelTextAnnotation typingSpaces) = undoStack typingSpaces
  /\ redoStack (cancelTextAnnotation typingSpaces) = redoStack typingSpaces.
Proof.
  assert (Hblank : blankBuffer typingSpaces) by evaluate.
  destruct (finalize_blank_text_is_cancelled typingSpaces Hblank)
    as (st' & Hfin & Ha & Hu & Hr & Hopen & _).
  assert (Hedit : isEditingText typingSpaces = true) by evaluate.
  specialize (Hopen Hedit). subst st'.
  split; [exact Hblank |]. split; [exact Hfin |]. split; [exact Ha |].
  split; [exact Hu | exact Hr].
Defined.

Lemma structural_operations_ask_first_witness :
  hasAnnotations twoPagesOneNote = true
  /\ rotatePage false 90 None twoPagesOneNote
     = (twoPagesOneNote, [ConfirmDiscardAnnotations])
  /\ deletePage false 2 twoPagesOneNote
     = (twoPagesOneNote, [ConfirmDiscardAnnotations])
  /\ exists st' shown,
       deletePage true 2 twoPagesOneNote
       = (st', ConfirmDiscardAnnotations :: shown).
Proof.
  assert (Hanns : hasAnnotations twoPagesOneNote = true) by evaluate.
  assert (Hmany : (1 < totalPages twoPagesOneNote)%nat) by evaluate.
  destruct (structural_operations_ask_first twoPagesOneNote Hanns)
    as (_ & _ & _ & Hdelete & Hrotate & _ & _ & Hdeclined & _).
  split; [exact Hanns |]. split; [apply Hrotate |].
  split; [apply Hdeclined; exact Hmany | apply Hdelete; exact Hmany].
Defined.

(** C7 as stated fails: on a one-page document with an annotation,
    deleting the page shows no confirmation; it is refused with an alert
    (and the state is left as it was). *)
Lemma deleting_the_only_page_is_not_confirmed :
  hasAnnotations oneNote = true
  /\ totalPages oneNote = 1%nat
  /\ deletePage true 1 oneNote
     = (oneNote, [AlertLastPage])
  /\ ~ In ConfirmDiscardAnnotations
       (snd (deletePage true 1 oneNote)).
Proof.
  split; [evaluate |]. split; [evaluate |]. split; [evaluate |].
  vm_compute. intros [H | []]. discriminate H.
Qed.

(** The delete key on the selected photo of [resizing]: the photo goes,
    the note stays, the model it found is on the undo stack. *)
Lemma delete_key_example :
  (-1 < selectedAnnotationIndex resizing)%Z
  /\ exists st',
       onDeleteKeyPressed true resizing = Some (st', [])
       /\ annotations st' !! 0%nat = Some [note]
       /\ undoStack st' = undoStack resizing ++ [annotations resizing]
       /\ redoStack st' = []
       /\ selectedAnnotationIndex st' = (-1)%Z.
Proof.
  assert (Hsel : (-1 < selectedAnnotationIndex resizing)%Z) by evaluate.
  assert (Hpage : pageIndexOf resizing = Some 0%nat) by evaluate.
  assert (Hanns : annotations resizing !! 0%nat = Some [note; photo])
    by evaluate.
  destruct (proj1 (delete_key_removes_selection_or_page true resizing)
              0%nat [note; photo] Hsel Hpage Hanns)
    as (st' & Hkey & Hlist & _ & _ & Hu & Hr & Hs & _).
  split; [exact Hsel |]. exists st'. split; [exact Hkey |].
  split; [| split; [exact Hu | split; [exact Hr | exact Hs]]].
  rewrite Hlist. vm_compute. reflexivity.
Defined.

(** C8 as stated fails: on a one-page document, with nothing selected and
    the page-organization tab active, the delete key is not the
    page-delete operation.  The key does nothing and shows nothing; the
    page-delete operation shows its refusal. *)
Lemma delete_key_on_the_only_page_is_not_routed :
  selectedAnnotationIndex (set_activeTab TabOrganize oneNote) = (-1)%Z
  /\ activeTab (set_activeTab TabOrganize oneNote) = TabOrganize
  /\ isPdfLoaded (set_activeTab TabOrganize oneNote) = true
  /\ totalPages (set_activeTab TabOrganize oneNote) = 1%nat
  /\ onDeleteKeyPressed true (set_activeTab TabOrganize oneNote)
     = Some (set_activeTab TabOrganize oneNote, [])
  /\ deletePage true 1 (set_activeTab TabOrganize oneNote)
     = (set_activeTab TabOrganize oneNote, [AlertLastPage])
  /\ onDeleteKeyPressed true (set_activeTab TabOrganize oneNote)
     <> Some (deletePage true
                (currentPageNum (set_activeTab TabOrganize oneNote))
                (set_activeTab TabOrganize oneNote)).
Proof.
  split; [evaluate |]. split; [evaluate |]. split; [evaluate |].
  split; [evaluate |]. split; [evaluate |]. split; [evaluate |].
  vm_compute. intros H. discriminate H.
Qed.

(** * The session invariant *)

Section SessionProperties.

Context {collaborators : Collaborators} {library : PdfLib}.

(** ** Page positions *)

Lemma indexOf_lookup (v : nat) (arr : list nat) (i : nat) :
  JS.indexOf v arr = Some i -> arr !! i = Some v.
Proof.
  revert i. induction arr as [| a arr IH]; intros i; cbn; [done |].
  destruct (a =? v)%nat eqn:Heq.
  - intros [= <-]. apply Nat.eqb_eq in Heq. by subst.
  - destruct (JS.indexOf v arr) as [j |]; [| done].
    intros [= <-]. cbn. by apply IH.
Qed.

Lemma indexOf_None (v : nat) (arr : list nat) (i : nat) :
  JS.indexOf v arr = None -> arr !! i <> Some v.
Proof.
  revert i. induction arr as [| a arr IH]; intros i; cbn; [done |].
  destruct (a =? v)%nat eqn:Heq; [done |].
  destruct (JS.indexOf v arr) as [j |] eqn:Hj; [done |]. intros _.
  destruct i as [| i]; cbn; [| by apply IH].
  intros [= ->]. by rewrite Nat.eqb_refl in Heq.
Qed.

Lemma indexOf_NoDup (v : nat) (arr : list nat) (i : nat) :
  NoDup arr -> arr !! i = Some v -> JS.indexOf v arr = Some i.
Proof.
  intros Hnodup Hi. destruct (JS.indexOf v arr) as [j |] eqn:Hj.
  - f_equal. apply indexOf_lookup in Hj. by eapply NoDup_lookup.
  - by destruct (indexOf_None v arr i Hj).
Qed.

(** ** Building blocks *)

(** Consistency looks at eight fields only. *)
Lemma consistent_ext (st st' : AppState) :
  scale st' = scale st ->
  pageOrder st' = pageOrder st ->
  totalPages st' = totalPages st ->
  currentPageNum st' = currentPageNum st ->
  annotations st' = annotations st ->
  undoStack st' = undoStack st ->
  redoStack st' = redoStack st ->
  selectedAnnotationIndex st' = selectedAnnotationIndex st ->
  consistent st -> consistent st'.
Proof.
  intros Hs Ho Ht Hc Ha Hu Hr Hi [? ? ? ? ? ? Hsel].
  split; rewrite ?Hs, ?Ho, ?Ht, ?Ha, ?Hu, ?Hr; try done.
  unfold selectionInRange, pageIndexOf in *. by rewrite Hi, Hc, Ho, Ha.
Qed.

Lemma consistent_unselect (page : nat) (st : AppState) :
  consistent st ->
  consistent (set_selectedAnnotationIndex (-1)%Z (set_currentPageNum page st)).
Proof. intros [? ? ? ? ? ? _]. split; try done. by left. Qed.

Lemma consistent_scale (s : Q) (st : AppState) :
  (0 < s)%Q -> consistent st -> consistent (set_scale s st).
Proof. intros Hs [? ? ? ? ? ? ?]. by split. Qed.

Lemma consistent_pushHistory (st : AppState) :
  consistent st -> consistent (pushHistory st).
Proof.
  intros [? ? ? ? ? ? ?]. split; try done; cbn.
  apply Forall_app. split; [done |]. by apply Forall_singleton.
Qed.

Lemma selection_cases (st : AppState) (pageIndex : nat)
    (pageAnns : list Annotation) :
  selectionInRange st ->
  pageIndexOf st = Some pageIndex ->
  annotations st !! pageIndex = Some pageAnns ->
  selectedAnnotationIndex st = (-1)%Z
  \/ (0 <= selectedAnnotationIndex st < Z.of_nat (length pageAnns))%Z.
Proof.
  intros [Hnone | (p & l & Hp & Hl & Hrange)] Hpage Hanns; [by left |].
  right. congruence.
Qed.

(** Replacing the list of the current page. *)
Lemma consistent_page_update (st : AppState) (pageIndex : nat)
    (pageAnns pageAnns' : list Annotation) (selection : Z) :
  consistent st ->
  pageIndexOf st = Some pageIndex ->
  annotations st !! pageIndex = Some pageAnns ->
  Forall stored pageAnns' ->
  selection = (-1)%Z \/ (0 <= selection < Z.of_nat (length pageAnns'))%Z ->
  consistent
    (set_selectedAnnotationIndex selection
       (set_annotations (<[pageIndex := pageAnns']> (annotations st)) st)).
Proof.
  intros [? ? ? [Hlen Hall] ? ? ?] Hpage Hanns Hstored Hsel.
  split; try done; cbn.
  - split; [by rewrite length_insert |]. by apply Forall_insert.
  - destruct Hsel as [-> | Hsel]; [by left |]. right.
    exists pageIndex, pageAnns'. split; [done |]. split; [| done].
    apply list_lookup_insert_eq. by eapply lookup_lt_Some.
Qed.

(** The model of a freshly loaded document of [n] pages. *)
Lemma consistent_loaded (n page : nat) (st : AppState) :
  consistent st ->
  consistent
    (set_selectedAnnotationIndex (-1)%Z
       (set_redoStack []
          (set_undoStack []
             (set_currentPageNum page
                (set_pageOrder (seq 1 n)
                   (set_annotations (replicate n [])
                      (set_totalPages n st))))))).
Proof.
  intros [? ? ? ? ? ? ?]. split; cbn; try done.
  - by rewrite length_seq.
  - by rewrite length_seq.
  - rewrite length_seq. split; [by rewrite length_replicate |].
    apply Forall_replicate. constructor.
  - by left.
Qed.

Lemma consistent_unloaded (st : AppState) :
  consistent st -> consistent (set_totalPages 0%nat st).
Proof. intros [? ? ? ? ? ? ?]. split; try done. cbn. lia. Qed.

Lemma consistent_undo (st : AppState) : consistent st -> consistent (undo st).
Proof.
  intros Hst. unfold undo.
  destruct (last (undoStack st)) as [lastState |] eqn:Hlast; [| done].
  destruct Hst as [? ? ? ? Hundo ? ?].
  apply last_Some in Hlast as [stack Hstack].
  split; cbn; try done.
  - rewrite Hstack in Hundo. apply Forall_app in Hundo as [_ Htop].
    by rewrite Forall_singleton in Htop.
  - unfold JS.slice_init. rewrite Hstack, length_app, Nat.add_sub.
    rewrite take_app_length. rewrite Hstack in Hundo.
    by apply Forall_app in Hundo as [? _].
  - apply Forall_app. split; [done |]. by apply Forall_singleton.
  - by left.
Qed.

Lemma consistent_redo (st : AppState) : consistent st -> consistent (redo st).
Proof.
  intros Hst. unfold redo.
  destruct (last (redoStack st)) as [nextState |] eqn:Hlast; [| done].
  destruct Hst as [? ? ? ? ? Hredo ?].
  apply last_Some in Hlast as [stack Hstack].
  split; cbn; try done.
  - rewrite Hstack in Hredo. apply Forall_app in Hredo as [_ Htop].
    by rewrite Forall_singleton in Htop.
  - apply Forall_app. split; [done |]. by apply Forall_singleton.
  - unfold JS.slice_init. rewrite Hstack, length_app, Nat.add_sub.
    rewrite take_app_length. rewrite Hstack in Hredo.
    by apply Forall_app in Hredo as [? _].
  - by left.
Qed.

(** ** Reordering *)

Lemma reorderPages_inv (dragIndex dropIndex : nat) (st st' : AppState) :
  reorderPages dragIndex dropIndex st = Some st' ->
  st' = st
  \/ exists movedPage movedAnn adjustedDropIndex,
       pageOrder st !! dragIndex = Some movedPage
       /\ annotations st !! dragIndex = Some movedAnn
       /\ st' = set_annotations
                  (JS.splice_insert adjustedDropIndex movedAnn
                     (delete dragIndex (annotations st)))
                  (set_pageOrder
                     (JS.splice_insert adjustedDropIndex movedPage
                        (delete dragIndex (pageOrder st))) st).
Proof.
  unfold reorderPages, JS.splice_remove.
  destruct ((dropIndex =? dragIndex)%nat || (dropIndex =? dragIndex + 1)%nat);
    [intros [= <-]; by left |].
  destruct (pageOrder st !! dragIndex) as [movedPage |]; [| done].
  destruct (annotations st !! dragIndex) as [movedAnn |]; [| done].
  cbn. intros [= <-]. right. by eexists _, _, _.
Qed.

Lemma length_splice_insert_delete {A} (i j : nat) (x : A) (l : list A) :
  l !! j = Some x -> length (JS.splice_insert i x (delete j l)) = length l.
Proof.
  intros Hx. by rewrite (Permutation_length (splice_insert_Permutation i j x l Hx)).
Qed.

Lemma consistent_reorderPages (dragIndex dropIndex : nat) (st st' : AppState) :
  consistent st ->
  reorderPages dragIndex dropIndex st = Some st' ->
  consistent st'.
Proof.
  intros Hst Hreorder.
  destruct (reorderPages_inv _ _ _ _ Hreorder)
    as [-> | (movedPage & movedAnn & adjusted & Hpage & Hann & ->)]; [done |].
  destruct Hst as [Hscale Horder Htotal [Hlen Hall] Hundo Hredo Hsel].
  pose proof (length_splice_insert_delete adjusted _ _ _ Hpage) as Hlen'.
  pose proof (splice_insert_Permutation adjusted _ _ _ Hpage) as Hperm.
  pose proof (splice_insert_Permutation adjusted _ _ _ Hann) as HpermA.
  split; cbn; rewrite ?Hlen'; try done.
  - by rewrite Hperm.
  - split; [by rewrite length_splice_insert_delete |]. by rewrite HpermA.
  - destruct Hsel as [Hnone | (p & l & Hp & Hl & Hrange)]; [by left |].
    right. unfold pageIndexOf in *. cbn.
    assert (Hnodup : NoDup (pageOrder st)).
    { rewrite Horder. apply NoDup_seq. }
    assert (Hin : (currentPageNum st, l) ∈ zip (pageOrder st) (annotations st)).
    { apply (list_elem_of_lookup_2 _ p). rewrite lookup_zip_with.
      by rewrite (indexOf_lookup _ _ _ Hp), Hl. }
    assert (Hzip :
      zip (JS.splice_insert adjusted movedPage (delete dragIndex (pageOrder st)))
          (JS.splice_insert adjusted movedAnn (delete dragIndex (annotations st)))
      ≡ₚ zip (pageOrder st) (annotations st)).
    { rewrite zip_splice_insert by (rewrite !length_delete; [lia | by eauto ..]).
      rewrite zip_delete. apply splice_insert_Permutation.
      by rewrite lookup_zip_with, Hpage, Hann. }
    rewrite <- Hzip in Hin. apply list_elem_of_lookup_1 in Hin as [p' Hp'].
    rewrite lookup_zip_with in Hp'.
    destruct (JS.splice_insert adjusted movedPage _ !! p') as [page |] eqn:Hpage';
      [| done].
    destruct (JS.splice_insert adjusted movedAnn _ !! p') as [l' |] eqn:Hl';
      [| done].
    cbn in Hp'. injection Hp' as -> ->.
    exists p', l. split; [| done].
    apply indexOf_NoDup; [| done]. by rewrite Hperm.
Qed.

(** ** Trimmed texts *)

Lemma trimStart_idem (s : JS.jsstring) :
  JS.trimStart (JS.trimStart s) = JS.trimStart s.
Proof.
  induction s as [| c s IH]; [done |]. cbn.
  destruct (JS.isWhiteSpace c) eqn:Hc; [done |]. cbn. by rewrite Hc.
Qed.

Lemma trimStart_snoc (s : JS.jsstring) (c : N) :
  JS.isWhiteSpace c = false -> exists s', JS.trimStart (s ++ [c]) = s' ++ [c].
Proof.
  intros Hc. induction s as [| d s IH]; cbn.
  - rewrite Hc. by exists [].
  - destruct (JS.isWhiteSpace d); [done |]. by exists (d :: s).
Qed.

Lemma trimEnd_idem (s : JS.jsstring) :
  JS.trimEnd (JS.trimEnd s) = JS.trimEnd s.
Proof. unfold JS.trimEnd. by rewrite rev_involutive, trimStart_idem. Qed.

(** [trim] gives a string that [trim] leaves alone. *)
Lemma trim_idem (s : JS.jsstring) : JS.trim (JS.trim s) = JS.trim s.
Proof.
  unfold JS.trim.
  destruct (JS.trimStart s) as [| c t] eqn:Hs; [done |].
  pose proof (trimStart_head _ _ _ Hs) as Hc.
  assert (Hfixed : JS.trimStart (JS.trimEnd (c :: t)) = JS.trimEnd (c :: t)).
  { unfold JS.trimEnd. cbn [rev].
    destruct (trimStart_snoc (rev t) c Hc) as [s' ->].
    rewrite rev_app_distr. cbn. by rewrite Hc. }
  by rewrite Hfixed, trimEnd_idem.
Qed.

(** ** Each handler keeps the state consistent *)

Ltac same_as H := refine (consistent_ext _ _ _ _ _ _ _ _ _ _ H); reflexivity.

Lemma consistent_page (st : AppState) (pageIndex : nat)
    (pageAnns : list Annotation) :
  consistent st -> annotations st !! pageIndex = Some pageAnns ->
  Forall stored pageAnns.
Proof.
  intros [_ _ _ [_ Hall] _ _ _] Hanns.
  by apply (Forall_lookup_1 _ _ _ _ Hall Hanns).
Qed.

(** In a consistent state the current page, if it is in the page order,
    has its list. *)
Lemma consistent_page_list (st : AppState) (pageIndex : nat) :
  consistent st -> pageIndexOf st = Some pageIndex ->
  exists pageAnns, annotations st !! pageIndex = Some pageAnns.
Proof.
  intros [_ _ _ [Hlen _] _ _ _] Hpage. apply indexOf_lt in Hpage.
  apply lookup_lt_is_Some_2. by rewrite Hlen.
Qed.

Lemma lookupZ_Some {A} (i : Z) (l : list A) (x : A) :
  lookupZ i l = Some x ->
  (0 <= i < Z.of_nat (length l))%Z /\ l !! Z.to_nat i = Some x.
Proof.
  unfold lookupZ. destruct (i <? 0)%Z eqn:Hneg; [done |].
  intros Hx. split; [| done]. apply lookup_lt_Some in Hx.
  apply Z.ltb_ge in Hneg. lia.
Qed.

Lemma consistent_select (selection : Z) (st : AppState) :
  consistent st ->
  (exists pageIndex pageAnns,
     pageIndexOf st = Some pageIndex
     /\ annotations st !! pageIndex = Some pageAnns
     /\ (0 <= selection < Z.of_nat (length pageAnns))%Z) ->
  consistent (set_selectedAnnotationIndex selection st).
Proof. intros [? ? ? ? ? ? _] Hsel. split; try done. by right. Qed.

Lemma consistent_addAnnotation (annotation : Annotation) (st st' : AppState) :
  consistent st -> stored annotation ->
  addAnnotation annotation st = Some st' -> consistent st'.
Proof.
  intros Hst Hann. unfold addAnnotation.
  pose proof (consistent_pushHistory st Hst) as Hpush.
  destruct (pageIndexOf (pushHistory st)) as [pageIndex |] eqn:Hpage;
    [| by intros [= <-]].
  destruct (annotations (pushHistory st) !! pageIndex) as [pageAnns |] eqn:Hanns;
    [| done].
  cbn. intros [= <-].
  assert (Hnew : consistent
    (set_selectedAnnotationIndex (selectedAnnotationIndex st)
       (set_annotations
          (<[pageIndex := pageAnns ++ [annotation]]> (annotations (pushHistory st)))
          (pushHistory st)))).
  { eapply consistent_page_update; try done.
    - apply Forall_app. split; [by eapply consistent_page |].
      by apply Forall_singleton.
    - destruct (selection_cases st pageIndex pageAnns) as [? | ?];
        [by destruct Hst | done | done | by left |].
      right. rewrite length_app. cbn. lia. }
  same_as Hnew.
Qed.

Lemma consistent_onMouseMove (pos : option Point) (st st' : AppState) :
  consistent st -> onMouseMove pos st = Some st' -> consistent st'.
Proof.
  intros Hst. unfold onMouseMove.
  assert (Hdraw : forall path, consistent (set_currentDrawingPath path st)).
  { intros path. same_as Hst. }
  destruct (dragMode st) eqn:Hmode, (isDrawing st), pos as [p |];
    try (by intros [= <-]); try (intros [= <-]; apply Hdraw).
  all: destruct (pageIndexOf st) as [pageIndex |] eqn:Hpage;
    [| by intros [= <-]].
  all: destruct (selectedAnnotationIndex st =? -1)%Z; [by intros [= <-] |].
  all: destruct (annotations st !! pageIndex) as [pageAnns |] eqn:Hanns;
    [| done].
  all: cbn;
    destruct (lookupZ (selectedAnnotationIndex st) pageAnns) as [ann |] eqn:Hann;
    [| done].
  all: cbn; intros [= <-]; apply lookupZ_Some in Hann as [Hrange Hann].
  all: pose proof (consistent_page _ _ _ Hst Hanns) as Hall.
  all: pose proof (Forall_lookup_1 _ _ _ _ Hall Hann) as Hstored.
  all: refine (consistent_ext _ _ _ _ _ _ _ _ _ _
                 (consistent_page_update st pageIndex pageAnns _
                    (selectedAnnotationIndex st) Hst Hpage Hanns _ _));
    try reflexivity; [| right; by rewrite length_insert].
  all: apply Forall_insert; [done |].
  all: destruct ann as [t | d | i]; try done.
  all: destruct (Qlt_le_dec _ _); [| done]; cbn; reflexivity.
Qed.

Lemma consistent_onMouseUp (st st' : AppState) :
  consistent st -> onMouseUp st = Some st' -> consistent st'.
Proof.
  intros Hst. unfold onMouseUp.
  assert (Hst1 : consistent (set_isDrawing false (set_dragMode DragNone st)))
    by same_as Hst.
  change (isDrawing (set_dragMode DragNone st)) with (isDrawing st).
  destruct (isDrawing st); [| intros [= <-]; same_as Hst].
  destruct (1 <? length _)%nat eqn:Hlen; cbn.
  - destruct (addAnnotation _ _) as [st3 |] eqn:Hadd; [| done].
    cbn. intros [= <-].
    apply consistent_addAnnotation in Hadd; [same_as Hadd | done |].
    cbn. by apply Nat.ltb_lt in Hlen.
  - intros [= <-]. same_as Hst.
Qed.

Lemma consistent_finalizeTextAnnotation (st st' : AppState) :
  consistent st -> finalizeTextAnnotation st = Some st' -> consistent st'.
Proof.
  intros Hst. unfold finalizeTextAnnotation, cancelTextAnnotation.
  destruct (isEditingText st); cbn; [| by intros [= <-]].
  destruct (textEditingState st) as [state |]; [| intros [= <-]; same_as Hst].
  destruct (JS.falsy (JS.trim (e_text state))) eqn:Hblank;
    [intros [= <-]; same_as Hst |].
  destruct (measureText (e_text state) (textSettings st) st) as [width height].
  assert (Htext : forall x y,
    stored (AText (mkText x y (JS.trim (e_text state))
                     (ts_size (textSettings st)) (ts_color (textSettings st))
                     (ts_font (textSettings st)) (ts_bold (textSettings st))
                     (width / (scale st * devicePixelRatio))
                     (height / (scale st * devicePixelRatio))))).
  { intros x y. split; cbn; [apply trim_idem |].
    by destruct (JS.trim (e_text state)). }
  assert (Hadd : forall x y st3,
    addAnnotation
      (AText (mkText x y (JS.trim (e_text state))
                (ts_size (textSettings st)) (ts_color (textSettings st))
                (ts_font (textSettings st)) (ts_bold (textSettings st))
                (width / (scale st * devicePixelRatio))
                (height / (scale st * devicePixelRatio)))) st = Some st3 ->
    consistent (set_textEditingState None (set_isEditingText false st3))).
  { intros x y st3 Hst3.
    apply consistent_addAnnotation in Hst3; [same_as Hst3 | done | done]. }
  destruct (-1 <? selectedAnnotationIndex st)%Z eqn:Hsel; cbn.
  - destruct (pageIndexOf st) as [pageIndex |] eqn:Hpage; cbn.
    + destruct (annotations st !! pageIndex) as [pageAnns |] eqn:Hanns;
        [| done].
      cbn.
      destruct (lookupZ (selectedAnnotationIndex st) pageAnns)
        as [[t | d | i] |] eqn:Hann; cbn.
      2-4: destruct (addAnnotation _ st) as [st3 |] eqn:Hst3; [| done];
        cbn; intros [= <-]; by eapply Hadd.
      intros [= <-].
      apply lookupZ_Some in Hann as [Hrange Hann].
      pose proof (consistent_pushHistory st Hst) as Hpush.
      refine (consistent_ext _ _ _ _ _ _ _ _ _ _
                (consistent_page_update (pushHistory st) pageIndex pageAnns _
                   (selectedAnnotationIndex st) Hpush Hpage Hanns _ _));
        try reflexivity; [| right; by rewrite length_insert].
      apply Forall_insert; [by eapply consistent_page |]. apply Htext.
    + destruct (addAnnotation _ st) as [st3 |] eqn:Hst3; [| done].
      cbn. intros [= <-]. by eapply Hadd.
  - destruct (pageIndexOf st);
      (destruct (addAnnotation _ st) as [st3 |] eqn:Hst3; [| done]);
      cbn; intros [= <-]; by eapply Hadd.
Qed.

Lemma consistent_updateTextSetting (change : TextSettingChange)
    (st : AppState) :
  consistent st -> consistent (updateTextSetting change st).
Proof.
  intros Hst. unfold updateTextSetting.
  set (st1 := set_textSettings (changeSetting change (textSettings st)) st).
  assert (Hst1 : consistent st1) by same_as Hst.
  destruct (pageIndexOf st1) as [pageIndex |] eqn:Hpage; [| done].
  destruct (selectedAnnotationIndex st1 =? -1)%Z; [done |].
  destruct (annotations st1 !! pageIndex) as [pageAnns |] eqn:Hanns; [| done].
  destruct (lookupZ (selectedAnnotationIndex st1) pageAnns)
    as [[t | d | i] |] eqn:Hann; try done.
  destruct (measureText (t_text t) (textSettings st1) st1) as [width height].
  apply lookupZ_Some in Hann as [Hrange Hann].
  pose proof (consistent_page _ _ _ Hst1 Hanns) as Hall.
  refine (consistent_ext _ _ _ _ _ _ _ _ _ _
            (consistent_page_update st1 pageIndex pageAnns _
               (selectedAnnotationIndex st1) Hst1 Hpage Hanns _ _));
    try reflexivity; [| right; by rewrite length_insert].
  apply Forall_insert; [done |].
  apply (Forall_lookup_1 _ _ _ _ Hall Hann).
Qed.

(** ** Loading and the page-structure operations *)

Lemma consistent_loadPdf (pdfBytes : PdfBytes) (pageToLoad : option nat)
    (st st' : AppState) (shown : list Dialog) :
  consistent st -> loadPdf pdfBytes true pageToLoad st = (st', shown) ->
  consistent st'.
Proof.
  intros Hst. unfold loadPdf.
  destruct (loadDocuments pdfBytes) as [[pdf pdfLib] |]; intros [= <- _].
  - pose proof (consistent_loaded (numPages pdf) (default 1%nat pageToLoad) st Hst)
      as Hnew.
    same_as Hnew.
  - pose proof (consistent_unloaded st Hst) as Hnew. same_as Hnew.
Qed.

Lemma consistent_saveAndReload (mutated : option PdfLibDoc)
    (pageToLoad : PdfLibDoc -> option nat) (failed : Dialog)
    (st st' : AppState) (shown : list Dialog) :
  consistent st -> saveAndReload mutated pageToLoad failed st = (st', shown) ->
  consistent st'.
Proof.
  intros Hst. unfold saveAndReload.
  destruct mutated as [doc |]; [| intros [= <- _]; same_as Hst].
  destruct (saveDocument doc) as [pdfBytes |]; [| intros [= <- _]; same_as Hst].
  destruct (loadPdf pdfBytes true (pageToLoad doc) (set_pdfLibDoc (Some doc) st))
    as [st1 shown1] eqn:Hload.
  intros [= <- _]. apply consistent_loadPdf in Hload; [same_as Hload |].
  same_as Hst.
Qed.

Lemma consistent_confirmAndProceedWithOrganize (confirmAnswer : bool)
    (action : AppState -> AppState * list Dialog) (st st' : AppState)
    (shown : list Dialog) :
  (forall st1 shown1, action st = (st1, shown1) -> consistent st1) ->
  consistent st ->
  confirmAndProceedWithOrganize confirmAnswer action st = (st', shown) ->
  consistent st'.
Proof.
  intros Haction Hst. unfold confirmAndProceedWithOrganize.
  destruct (existsb _ _); [| by apply Haction].
  destruct confirmAnswer; [| by intros [= <- _]].
  destruct (action st) as [st1 shown1] eqn:Hact. intros [= <- _].
  by eapply Haction.
Qed.

Lemma consistent_rotatePage (confirmAnswer : bool) (degrees : Z)
    (pageNumToRotate : option nat) (st st' : AppState) (shown : list Dialog) :
  consistent st ->
  rotatePage confirmAnswer degrees pageNumToRotate st = (st', shown) ->
  consistent st'.
Proof.
  intros Hst. apply consistent_confirmAndProceedWithOrganize; [| done].
  intros st1 shown1. destruct (pdfLibDoc st); [| by intros [= <- _]].
  by apply consistent_saveAndReload.
Qed.

Lemma consistent_deletePage (confirmAnswer : bool) (pageNumToDelete : nat)
    (st st' : AppState) (shown : list Dialog) :
  consistent st ->
  deletePage confirmAnswer pageNumToDelete st = (st', shown) ->
  consistent st'.
Proof.
  intros Hst. unfold deletePage.
  destruct (totalPages st <=? 1)%nat; [by intros [= <- _] |].
  apply consistent_confirmAndProceedWithOrganize; [| done].
  intros st1 shown1. destruct (pdfLibDoc st); [| by intros [= <- _]].
  by apply consistent_saveAndReload.
Qed.

Lemma consistent_duplicatePage (confirmAnswer : bool) (pageNumToDuplicate : nat)
    (st st' : AppState) (shown : list Dialog) :
  consistent st ->
  duplicatePage confirmAnswer pageNumToDuplicate st = (st', shown) ->
  consistent st'.
Proof.
  intros Hst. apply consistent_confirmAndProceedWithOrganize; [| done].
  intros st1 shown1. destruct (pdfLibDoc st); [| by intros [= <- _]].
  by apply consistent_saveAndReload.
Qed.

Lemma consistent_processAndInsertPdf (confirmAnswer : bool)
    (pdfBuffer : PdfBytes) (insertionIndex : nat) (st st' : AppState)
    (shown : list Dialog) :
  consistent st ->
  processAndInsertPdf confirmAnswer pdfBuffer insertionIndex st = (st', shown) ->
  consistent st'.
Proof.
  intros Hst. apply consistent_confirmAndProceedWithOrganize; [| done].
  intros st1 shown1.
  destruct (pdfLibDoc st); [| intros [= <- _]; same_as Hst].
  by apply consistent_saveAndReload.
Qed.

Lemma consistent_onDeleteKeyPressed (confirmAnswer : bool)
    (st st' : AppState) (shown : list Dialog) :
  consistent st ->
  onDeleteKeyPressed confirmAnswer st = Some (st', shown) ->
  consistent st'.
Proof.
  intros Hst. unfold onDeleteKeyPressed.
  destruct (-1 <? selectedAnnotationIndex st)%Z.
  - pose proof (consistent_pushHistory st Hst) as Hpush.
    destruct (pageIndexOf (pushHistory st)) as [pageIndex |] eqn:Hpage; cbn.
    + destruct (annotations st !! pageIndex) as [pageAnns |] eqn:Hanns;
        [| done].
      cbn. intros [= <- _].
      refine (consistent_ext _ _ _ _ _ _ _ _ _ _
                (consistent_page_update (pushHistory st) pageIndex pageAnns _
                   (-1)%Z Hpush Hpage Hanns _ _));
        try reflexivity; [| by left].
      apply Forall_delete. by eapply consistent_page.
    + intros [= <- _].
      pose proof (consistent_unselect (currentPageNum st) _ Hpush) as Hnew.
      same_as Hnew.
  - destruct (activeTab st); try (by intros [= <- _]).
    destruct (isPdfLoaded st && (1 <? totalPages st)%nat);
      [| by intros [= <- _]].
    intros [= Hdel]. by eapply consistent_deletePage.
Qed.

(** ** Navigation, zoom and insertion *)

Lemma consistent_goToPage (num : Z) (st st' : AppState) :
  consistent st -> goToPage num st = Some st' -> consistent st'.
Proof.
  intros Hst. unfold goToPage.
  destruct (lookupZ (num - 1) (pageOrder st)) as [page |]; [| done].
  cbn. intros [= <-]. by apply consistent_unselect.
Qed.

Lemma consistent_zoomIn (st : AppState) : consistent st -> consistent (zoomIn st).
Proof.
  intros Hst. apply consistent_scale; [| done].
  destruct Hst as [Hscale _ _ _ _ _ _].
  apply Q.min_glb_lt; [done |]. lra.
Qed.

Lemma consistent_zoomOut (st : AppState) :
  consistent st -> consistent (zoomOut st).
Proof.
  intros Hst. apply consistent_scale; [| done].
  apply Qlt_le_trans with (y := 0.25%Q); [done |]. apply Q.le_max_l.
Qed.

Lemma consistent_fitToPage (viewport viewerContainer : option (Q * Q))
    (st : AppState) :
  (forall width height, viewport = Some (width, height) ->
     0 < width /\ 0 < height)%Q ->
  (forall clientWidth clientHeight,
     viewerContainer = Some (clientWidth, clientHeight) ->
     32 < clientWidth /\ 32 < clientHeight)%Q ->
  consistent st -> consistent (fitToPage viewport viewerContainer st).
Proof.
  intros Hviewport Hcontainer Hst. unfold fitToPage.
  destruct (pdfDoc st); [| done].
  destruct viewerContainer as [[clientWidth clientHeight] |]; [| done].
  destruct viewport as [[width height] |]; [| done].
  destruct (Hviewport _ _ eq_refl) as [Hw Hh].
  destruct (Hcontainer _ _ eq_refl) as [Hcw Hch].
  apply consistent_scale; [| done].
  apply Q.min_glb_lt; apply Qlt_shift_div_l; lra.
Qed.

Lemma imageBox_proportional (width height scale : Q) :
  (0 < width)%Q -> (0 < height)%Q -> (0 < scale)%Q ->
  (snd (imageBox width height scale)
   == fst (imageBox width height scale) * (height / width))%Q.
Proof.
  intros Hw Hh Hs. unfold imageBox.
  destruct (Qlt_le_dec (height / scale) (width / scale));
    destruct (Qlt_le_dec 200 _); cbn; field; repeat split; lra.
Qed.

Lemma consistent_addAndSelect (annotation : Annotation) (st st' : AppState) :
  consistent st -> stored annotation ->
  addAndSelect annotation st = Some st' -> consistent st'.
Proof.
  intros Hst Hann. unfold addAndSelect, addAnnotation.
  pose proof (consistent_pushHistory st Hst) as Hpush.
  change (pageIndexOf (pushHistory st)) with (pageIndexOf st).
  destruct (pageIndexOf st) as [pageIndex |] eqn:Hpage; cbn.
  - destruct (annotations st !! pageIndex) as [pageAnns |] eqn:Hanns; [| done].
    cbn. unfold pageIndexOf in *. cbn. rewrite Hpage. cbn.
    assert (Hlt : (pageIndex < length (annotations st))%nat)
      by by eapply lookup_lt_Some.
    rewrite list_lookup_insert_eq by done.
    cbn. intros [= <-].
    refine (consistent_ext _ _ _ _ _ _ _ _ _ _
              (consistent_page_update (pushHistory st) pageIndex pageAnns
                 (pageAnns ++ [annotation])
                 (Z.of_nat (length (pageAnns ++ [annotation])) - 1)%Z
                 Hpush Hpage Hanns _ _));
      try reflexivity.
    + apply Forall_app. split; [by eapply consistent_page |].
      by apply Forall_singleton.
    + right. rewrite length_app. cbn. lia.
  - unfold pageIndexOf in *. cbn. by rewrite Hpage.
Qed.

Lemma consistent_onImageSelected (imageData : JS.jsstring) (width height : Q)
    (drawCanvas : option (Q * Q)) (st st' : AppState) :
  (0 < width)%Q -> (0 < height)%Q -> consistent st ->
  onImageSelected imageData width height drawCanvas st = Some st' ->
  consistent st'.
Proof.
  intros Hw Hh Hst. unfold onImageSelected.
  pose proof (imageBox_proportional width height (scale st) Hw Hh
                ltac:(by destruct Hst)) as Hbox.
  destruct (imageBox width height (scale st)) as [pointWidth pointHeight].
  destruct drawCanvas as [[clientWidth clientHeight] |]; [| by intros [= <-]].
  by apply consistent_addAndSelect.
Qed.

Lemma consistent_createSignature (canvas : option Signature.Bitmap)
    (imageData : JS.jsstring) (drawCanvas : option (Q * Q))
    (pad pad' : Signature.Pad) (st st' : AppState) :
  consistent st ->
  createSignature canvas imageData drawCanvas pad st = Some (pad', st') ->
  consistent st'.
Proof.
  intros Hst. unfold createSignature.
  destruct canvas as [bitmap |]; [| by intros [= _ <-]].
  destruct (length _ =? 0)%nat; [by intros [= _ <-] |].
  destruct (Signature.getSignatureBounds bitmap) as [bounds |];
    [| by intros [= _ <-]].
  destruct drawCanvas as [[clientWidth clientHeight] |]; [| by intros [= _ <-]].
  destruct (addAndSelect _ st) as [st1 |] eqn:Hadd; [| done].
  cbn. intros [= _ <-].
  apply consistent_addAndSelect in Hadd; [done | done |]. cbn. reflexivity.
Qed.

Lemma consistent_onDrop (draggedPageIndex : Z) (dropIndex : nat)
    (st st' : AppState) :
  consistent st -> onDrop draggedPageIndex dropIndex st = Some st' ->
  consistent st'.
Proof.
  intros Hst. unfold onDrop.
  destruct (-1 <? draggedPageIndex)%Z; [| by intros [= <-]].
  by apply consistent_reorderPages.
Qed.

(** ** Pressing and double-clicking *)

Lemma consistent_onMouseDown (activeTool activeTool' : Tool)
    (isPageNumberPanelOpen : bool) (pos : option Point) (st st' : AppState) :
  consistent st ->
  onMouseDown activeTool isPageNumberPanelOpen pos st = Some (st', activeTool') ->
  consistent st'.
Proof.
  intros Hst. unfold onMouseDown.
  destruct (_ || _ || _); [by intros [= <- _] |].
  destruct pos as [pos |]; [| by intros [= <- _]].
  destruct (pageIndexOf st) as [pageIndex |] eqn:Hpage; [| by intros [= <- _]].
  destruct (annotations st !! pageIndex) as [pageAnns |] eqn:Hanns; [| done].
  cbn. destruct (hitScan _ _ _ _) as [[newSelection mode] |].
  - destruct (pageAnns !! newSelection) as [ann |] eqn:Hann; [| done].
    cbn. intros [= <- _].
    assert (Hnew : consistent
      (set_selectedAnnotationIndex (Z.of_nat newSelection) st)).
    { apply consistent_select; [done |]. exists pageIndex, pageAnns.
      split; [done |]. split; [done |]. apply lookup_lt_Some in Hann. lia. }
    same_as Hnew.
  - pose proof (consistent_unselect (currentPageNum st) st Hst) as Hnew.
    intros [= <- _]. destruct activeTool; same_as Hnew.
Qed.

Lemma textScan_Some (posUnscaled : Point) (pageAnns : list Annotation)
    (n i : nat) (t : TextAnnotation) :
  textScan posUnscaled pageAnns n = Some (i, t) ->
  pageAnns !! i = Some (AText t) /\ (i < n)%nat
  /\ inRect posUnscaled (t_x t) (t_y t) (t_width t) (t_height t) = true.
Proof.
  induction n as [| n IH]; cbn; [done |].
  assert (Hrec : textScan posUnscaled pageAnns n = Some (i, t) ->
                 pageAnns !! i = Some (AText t) /\ (i < S n)%nat
                 /\ inRect posUnscaled (t_x t) (t_y t) (t_width t) (t_height t)
                    = true).
  { intros H. destruct (IH H) as (? & ? & ?). repeat split; [done | lia | done]. }
  destruct (pageAnns !! n) as [[u | d | img] |] eqn:Hn; try done.
  destruct (inRect posUnscaled (t_x u) (t_y u) (t_width u) (t_height u)) eqn:Hin;
    [| done].
  intros [= <- <-]. repeat split; [done | lia | done].
Qed.

Lemma consistent_onDblClick (isPageNumberPanelOpen : bool) (pos : option Point)
    (st st' : AppState) :
  consistent st -> onDblClick isPageNumberPanelOpen pos st = Some st' ->
  consistent st'.
Proof.
  intros Hst. unfold onDblClick.
  destruct (_ || _); [by intros [= <-] |].
  destruct pos as [pos |]; [| by intros [= <-]].
  destruct (pageIndexOf st) as [pageIndex |] eqn:Hpage; [| by intros [= <-]].
  destruct (annotations st !! pageIndex) as [pageAnns |] eqn:Hanns; [| done].
  cbn. destruct (textScan _ _ _) as [[editIndex annToEdit] |] eqn:Hscan;
    [| by intros [= <-]].
  intros [= <-]. apply textScan_Some in Hscan as (Hann & Hlt & _).
  assert (Hnew : consistent
    (set_selectedAnnotationIndex (Z.of_nat editIndex) st)).
  { apply consistent_select; [done |]. exists pageIndex, pageAnns.
    split; [done |]. split; [done |]. lia. }
  same_as Hnew.
Qed.

(** ** Every action keeps the state consistent *)

Lemma consistent_initialState : consistent initialState.
Proof.
  split; cbn; try done. by left.
Qed.

Lemma acts_consistent (st st' : AppState) :
  acts st st' -> consistent st -> consistent st'.
Proof.
  intros Hacts Hst. destruct Hacts.
  - by eapply consistent_loadPdf.
  - by apply consistent_zoomIn.
  - by apply consistent_zoomOut.
  - by apply consistent_fitToPage.
  - destruct pageNum as [pageNum |]; cbn in *; [| congruence].
    destruct (_ && _)%Z; [by eapply consistent_goToPage | congruence].
  - unfold goToPrevPage in *.
    destruct (0 <? _)%Z; [by eapply consistent_goToPage | congruence].
  - unfold goToNextPage in *.
    destruct (_ <? _)%Z; [by eapply consistent_goToPage | congruence].
  - same_as Hst.
  - pose proof (consistent_unselect (currentPageNum st) st Hst) as Hnew.
    same_as Hnew.
  - eapply consistent_onImageSelected; cycle 3;
      [eassumption | assumption ..].
  - by eapply consistent_createSignature.
  - by eapply consistent_onMouseDown.
  - by eapply consistent_onMouseMove.
  - by eapply consistent_onMouseUp.
  - by eapply consistent_onDblClick.
  - same_as Hst.
  - unfold handleTextEnter in *.
    destruct (_ && _); [by eapply consistent_finalizeTextAnnotation | congruence].
  - by eapply consistent_finalizeTextAnnotation.
  - same_as Hst.
  - by apply consistent_updateTextSetting.
  - by eapply consistent_onDeleteKeyPressed.
  - by apply consistent_undo.
  - by apply consistent_redo.
  - by eapply consistent_onDrop.
  - by eapply consistent_rotatePage.
  - by eapply consistent_deletePage.
  - by eapply consistent_duplicatePage.
  - by eapply consistent_processAndInsertPdf.
Qed.

(** ** What consistency gives *)

(** X1.  Every state a session reaches from the component's initial state,
    whatever the user does (opening files, zooming, navigating, inserting
    images and signatures, pressing, dragging, releasing and
    double-clicking the pointer, typing and finalizing text, restyling,
    the delete key, undo, redo, dropping a page, the four page-structure
    operations), is consistent: the zoom is positive, the page order is a
    permutation of 1..n, the model and every history snapshot have one
    list per page, every stored text is trimmed and not empty, every
    stroke has two points or more, every image has height = width x
    aspect ratio, and the selection is none or an index of the current
    page's list.  (The sizes the browser reports are taken positive: an
    image's pixel size, the page fitted, and the viewer container less its
    32 pixels of padding.) *)
Theorem reachable_states_are_consistent (st : AppState) :
  reachable st -> consistent st.
Proof.
  induction 1 as [| st st' _ IH Hacts];
    [apply consistent_initialState | by eapply acts_consistent].
Qed.

Lemma stored_drawable (ann : Annotation) : stored ann -> drawable ann.
Proof.
  destruct ann as [t | d | i]; cbn; try done.
  intros Hlen Hnil. rewrite Hnil in Hlen. cbn in Hlen. lia.
Qed.

(** ** The export through pdf-lib *)

Lemma cacheGet_app (fontId id : JS.jsstring) (pdfFont : PdfFont)
    (fontCache : FontCache) :
  cacheGet fontId (fontCache ++ [(id, pdfFont)])
  = match cacheGet fontId fontCache with
    | Some cached => Some cached
    | None => if bool_decide (id = fontId) then Some pdfFont else None
    end.
Proof.
  induction fontCache as [| [id' font'] rest IH]; cbn; [done |].
  by destruct (bool_decide (id' = fontId)).
Qed.

Lemma getFont_embedFont (fontId : JS.jsstring) (fontCache : FontCache) :
  filledByGetFont fontCache ->
  match embedFont fontId with
  | Some pdfFont =>
      exists fontCache',
        getFont fontId fontCache = Some (pdfFont, fontCache')
        /\ filledByGetFont fontCache'
  | None => getFont fontId fontCache = None
  end.
Proof.
  intros Hfilled. unfold getFont.
  destruct (cacheGet fontId fontCache) as [cached |] eqn:Hget.
  - rewrite (Hfilled _ _ Hget). by exists fontCache.
  - destruct (embedFont fontId) as [pdfFont |] eqn:Hembed; cbn; [| done].
    eexists. split; [reflexivity |]. intros id font. rewrite cacheGet_app.
    destruct (cacheGet id fontCache) as [cached |] eqn:Hid.
    + intros [= <-]. by apply Hfilled.
    + case_bool_decide as Heq; [| done]. intros [= <-]. by subst id.
Qed.

Lemma savePdfAnnotation_call (pdfPageHeight : Q) (ann : Annotation)
    (fontCache fontCache' : FontCache) (call : DrawCall) :
  savePdfAnnotation pdfPageHeight ann fontCache = Some (call, fontCache') ->
  exportAnnotation pdfPageHeight ann = Some call.
Proof.
  destruct ann as [t | d | i]; unfold savePdfAnnotation.
  - destruct (getFont _ _) as [[pdfFont cache1] |]; cbn; [| done].
    destruct (encodes _ _); cbn; [| done]. by intros [= <- _].
  - destruct (exportAnnotation _ _); cbn; [| done]. by intros [= <- _].
  - destruct (if JS.startsWith _ _ then _ else _); cbn; [| done].
    by intros [= <- _].
Qed.

Lemma savePdfPage_calls (pdfPageHeight : Q) (pageAnns : list Annotation)
    (fontCache fontCache' : FontCache) (calls : list DrawCall) :
  savePdfPage pdfPageHeight pageAnns fontCache = Some (calls, fontCache') ->
  mapM (exportAnnotation pdfPageHeight) pageAnns = Some calls.
Proof.
  revert fontCache fontCache' calls.
  induction pageAnns as [| ann rest IH]; intros fontCache fontCache' calls;
    cbn.
  - by intros [= <- _].
  - destruct (savePdfAnnotation _ ann _) as [[call cache1] |] eqn:Hann;
      cbn; [| done].
    destruct (savePdfPage _ rest _) as [[others cache2] |] eqn:Hrest;
      cbn; [| done].
    intros [= <- _]. rewrite (savePdfAnnotation_call _ _ _ _ _ Hann). cbn.
    by rewrite (IH _ _ _ Hrest).
Qed.

Lemma savePdfAnnotations_calls (pageHeights : list Q) (anns : Annotations)
    (fontCache fontCache' : FontCache) (calls : list (list DrawCall)) :
  savePdfAnnotations pageHeights anns fontCache = Some (calls, fontCache') ->
  exportAnnotations pageHeights anns = Some calls.
Proof.
  revert anns fontCache fontCache' calls.
  induction pageHeights as [| h hs IH];
    intros anns fontCache fontCache' calls; cbn.
  - by intros [= <- _].
  - destruct (savePdfPage _ _ _) as [[first cache1] |] eqn:Hpage;
      cbn; [| done].
    destruct (savePdfAnnotations hs _ _) as [[others cache2] |] eqn:Hrest;
      cbn; [| done].
    intros [= <- _]. rewrite (savePdfPage_calls _ _ _ _ _ Hpage). cbn.
    by rewrite (IH _ _ _ _ Hrest).
Qed.

Lemma savePdfAnnotation_Some (pdfPageHeight : Q) (ann : Annotation)
    (fontCache fontCache' : FontCache) (call : DrawCall) :
  filledByGetFont fontCache ->
  savePdfAnnotation pdfPageHeight ann fontCache = Some (call, fontCache') ->
  accepted ann /\ filledByGetFont fontCache'.
Proof.
  intros Hfilled. destruct ann as [t | d | i]; unfold savePdfAnnotation.
  - pose proof (getFont_embedFont (exportFontId t) fontCache Hfilled) as Hget.
    destruct (embedFont (exportFontId t)) as [pdfFont |] eqn:Hembed.
    + destruct Hget as (cache1 & -> & Hfilled1). cbn.
      destruct (encodes pdfFont (t_text t)) eqn:Henc; cbn; [| done].
      intros [= _ <-]. split; [| done]. exists pdfFont.
      by rewrite Hembed.
    + by rewrite Hget.
  - destruct (exportAnnotation _ _); cbn; [| done]. by intros [= _ <-].
  - destruct (if JS.startsWith _ _ then _ else _) eqn:Himage; cbn; [| done].
    intros [= _ <-]. split; [| done]. cbn. by rewrite Himage.
Qed.

Lemma savePdfAnnotation_accepted (pdfPageHeight : Q) (ann : Annotation)
    (fontCache : FontCache) :
  filledByGetFont fontCache -> drawable ann -> accepted ann ->
  is_Some (savePdfAnnotation pdfPageHeight ann fontCache).
Proof.
  intros Hfilled Hdrawable Haccepted.
  destruct ann as [t | d | i]; unfold savePdfAnnotation.
  - destruct Haccepted as (pdfFont & Hembed & Henc).
    pose proof (getFont_embedFont (exportFontId t) fontCache Hfilled) as Hget.
    rewrite Hembed in Hget. destruct Hget as (cache1 & -> & _). cbn.
    by rewrite Henc.
  - cbn in Hdrawable |- *. by destruct (d_path d).
  - destruct Haccepted as [image Himage]. by rewrite Himage.
Qed.

Lemma savePdfPage_Some (pdfPageHeight : Q) (pageAnns : list Annotation)
    (fontCache fontCache' : FontCache) (calls : list DrawCall) :
  filledByGetFont fontCache ->
  savePdfPage pdfPageHeight pageAnns fontCache = Some (calls, fontCache') ->
  Forall accepted pageAnns /\ filledByGetFont fontCache'.
Proof.
  revert fontCache fontCache' calls.
  induction pageAnns as [| ann rest IH];
    intros fontCache fontCache' calls Hfilled; cbn.
  - by intros [= _ <-].
  - destruct (savePdfAnnotation _ ann _) as [[call cache1] |] eqn:Hann;
      cbn; [| done].
    destruct (savePdfPage _ rest _) as [[others cache2] |] eqn:Hrest;
      cbn; [| done].
    intros [= _ <-].
    destruct (savePdfAnnotation_Some _ _ _ _ _ Hfilled Hann) as [Hok Hfilled1].
    destruct (IH _ _ _ Hfilled1 Hrest) as [Hall Hfilled2].
    split; [by constructor | done].
Qed.

Lemma savePdfPage_accepted (pdfPageHeight : Q) (pageAnns : list Annotation)
    (fontCache : FontCache) :
  filledByGetFont fontCache -> Forall drawable pageAnns ->
  Forall accepted pageAnns ->
  is_Some (savePdfPage pdfPageHeight pageAnns fontCache).
Proof.
  intros Hfilled Hdrawable. revert fontCache Hfilled.
  induction Hdrawable as [| ann rest Hann _ IH]; intros fontCache Hfilled Hall;
    cbn; [done |].
  apply Forall_cons in Hall as [Hok Hall].
  destruct (savePdfAnnotation_accepted pdfPageHeight ann fontCache Hfilled
              Hann Hok) as [[call cache1] Hcall].
  rewrite Hcall. cbn.
  destruct (savePdfAnnotation_Some _ _ _ _ _ Hfilled Hcall) as [_ Hfilled1].
  destruct (IH cache1 Hfilled1 Hall) as [[others cache2] ->]. by cbn.
Qed.

(** X2.  The annotation loop of the export raises only where pdf-lib
    does.  In a consistent state, starting from a font cache that only
    [getFont] has filled and whatever the heights of the pages, the loop
    runs to its end exactly when pdf-lib takes every annotation of the
    exported pages: it embeds the font of the id built for each text and
    that font encodes the text, and it embeds each image in the format the
    start of its data URL names.  The loop's own code does not raise (no
    stored stroke has an empty path).  When the loop runs to its end it
    has made the calls of [exportAnnotations]: one list per page and one
    call per annotation. *)
Theorem export_raises_only_where_pdf_lib_does (st : AppState)
    (pageHeights : list Q) (fontCache : FontCache) :
  consistent st ->
  filledByGetFont fontCache ->
  (is_Some (savePdfAnnotations pageHeights (annotations st) fontCache)
   <-> forall i pageAnns,
         (i < length pageHeights)%nat ->
         annotations st !! i = Some pageAnns ->
         Forall accepted pageAnns)
  /\ (forall calls fontCache',
        savePdfAnnotations pageHeights (annotations st) fontCache
        = Some (calls, fontCache') ->
        exportAnnotations pageHeights (annotations st) = Some calls
        /\ length calls = length pageHeights
        /\ (forall i pageAnns pageCalls,
              annotations st !! i = Some pageAnns ->
              calls !! i = Some pageCalls ->
              length pageCalls = length pageAnns)
        /\ filledByGetFont fontCache').
Proof.
  intros [_ _ _ [_ Hall] _ _ _].
  assert (Hok : Forall (Forall drawable) (annotations st)).
  { eapply Forall_impl; [exact Hall |]. intros pageAnns Hpage.
    eapply Forall_impl; [exact Hpage |]. apply stored_drawable. }
  clear Hall. revert Hok fontCache. generalize (annotations st) as anns.
  induction pageHeights as [| h hs IH]; intros anns Hok fontCache Hfilled.
  - split; [split; [intros _ i pageAnns Hi; cbn in Hi; lia | done] |].
    cbn. intros calls fontCache' [= <- <-]. by repeat split.
  - assert (Hhead : Forall drawable (default [] (head anns)))
      by (destruct Hok; [constructor | done]).
    assert (Htail : Forall (Forall drawable) (tail anns))
      by (destruct Hok; [constructor | done]).
    cbn [savePdfAnnotations].
    destruct (savePdfPage h (default [] (head anns)) fontCache)
      as [[first cache1] |] eqn:Hpage.
    + destruct (savePdfPage_Some _ _ _ _ _ Hfilled Hpage)
        as [Hfirst Hfilled1].
      destruct (IH (tail anns) Htail cache1 Hfilled1) as [Hiff Hcalls].
      cbn [mbind option_bind].
      destruct (savePdfAnnotations hs (tail anns) cache1)
        as [[others cache2] |] eqn:Hrest; cbn [mbind option_bind].
      * split.
        { split; [| done]. intros _ i pageAnns Hi Hlook.
          destruct anns as [| firstAnns anns]; [done |]. destruct i as [| i].
          - injection Hlook as <-. exact Hfirst.
          - apply (proj1 Hiff ltac:(done) i); [cbn in Hi; lia | done]. }
        intros calls fontCache' [= <- <-].
        destruct (Hcalls others cache2 eq_refl)
          as (Hexport & Hlen & Hcount & Hfilled2).
        split.
        { cbn [exportAnnotations].
          rewrite (savePdfPage_calls _ _ _ _ _ Hpage). cbn.
          by rewrite Hexport. }
        split; [cbn; by rewrite Hlen |]. split; [| done].
        intros i pageAnns pageCalls Hi Hc.
        destruct anns as [| firstAnns anns]; [done |]. destruct i as [| i].
        -- injection Hi as <-. injection Hc as <-. cbn in Hpage.
           apply savePdfPage_calls in Hpage.
           symmetry. by eapply length_mapM.
        -- by eapply Hcount.
      * split; [| done]. split; [by intros [? ?] |]. intros Hacc.
        assert (Hsome : is_Some (@None (list (list DrawCall) * FontCache))).
        { apply Hiff. intros i pageAnns Hi Hlook.
          destruct anns as [| firstAnns anns]; [done |].
          apply (Hacc (S i)); [cbn; lia | done]. }
        by destruct Hsome.
    + cbn [mbind option_bind]. split; [| done].
      split; [by intros [? ?] |]. intros Hacc.
      assert (Hfirst : Forall accepted (default [] (head anns))).
      { destruct anns as [| firstAnns anns]; [constructor |].
        apply (Hacc 0%nat); [cbn; lia | done]. }
      destruct (savePdfPage_accepted h _ fontCache Hfilled Hhead Hfirst)
        as [? Hsome]. congruence.
Qed.

(** The page indices [savePdf] hands to [copyPages]. *)
Lemma pageIndices_Permutation (order : list nat) (n : nat) :
  order ≡ₚ seq 1 n -> map (fun p => (p - 1)%nat) order ≡ₚ seq 0 n.
Proof.
  intros ->. apply Permutation_refl'.
  assert (Hseq : forall k,
            map (fun p => (p - 1)%nat) (seq (S k) n) = seq k n);
    [| apply Hseq].
  induction n as [| n IH]; intros k; cbn [seq map]; [done |].
  f_equal; [lia | apply IH].
Qed.

(** X3.  In a consistent state the page order lists every page of the
    document once: the zero-based indices the export copies the pages by
    are a permutation of 0..n-1, and two positions of the page strip never
    show the same page. *)
Theorem export_copies_every_page_once (st : AppState) :
  consistent st ->
  map (fun p => (p - 1)%nat) (pageOrder st)
  ≡ₚ seq 0 (length (pageOrder st))
  /\ NoDup (pageOrder st)
  /\ forall page, page ∈ pageOrder st ->
       (1 <= page <= length (pageOrder st))%nat.
Proof.
  intros [_ Horder _ _ _ _ _]. split; [by apply pageIndices_Permutation |].
  split; [rewrite Horder; apply NoDup_seq |].
  intros page Hin. rewrite Horder in Hin. apply elem_of_seq in Hin. lia.
Qed.

(** ** Hit testing *)

Lemma hitScan_Some (posUnscaled : Point) (scale : Q)
    (pageAnns : list Annotation) (n i : nat) (mode : DragMode) :
  hitScan posUnscaled scale pageAnns n = Some (i, mode) ->
  (i < n)%nat
  /\ pageAnns !! i ≫= hitPart posUnscaled scale = Some mode
  /\ forall j, (i < j < n)%nat ->
       pageAnns !! j ≫= hitPart posUnscaled scale = None.
Proof.
  induction n as [| n IH]; cbn; [done |].
  destruct (pageAnns !! n ≫= hitPart posUnscaled scale) as [m |] eqn:Hn.
  - intros [= <- <-]. split; [lia |]. split; [done |]. intros j Hj. lia.
  - intros H. destruct (IH H) as (Hlt & Hhit & Habove).
    split; [lia |]. split; [done |]. intros j Hj.
    destruct (decide (j = n)) as [-> | Hne]; [done |]. apply Habove. lia.
Qed.

Lemma hitScan_None (posUnscaled : Point) (scale : Q)
    (pageAnns : list Annotation) (n : nat) :
  hitScan posUnscaled scale pageAnns n = None ->
  forall j, (j < n)%nat -> pageAnns !! j ≫= hitPart posUnscaled scale = None.
Proof.
  induction n as [| n IH]; cbn; [intros _ j Hj; lia |].
  destruct (pageAnns !! n ≫= hitPart posUnscaled scale) as [m |] eqn:Hn;
    [done |].
  intros H j Hj. destruct (decide (j = n)) as [-> | Hne]; [done |].
  apply IH; [done | lia].
Qed.

(** ** No handler raises *)

Lemma onMouseDown_succeeds (activeTool : Tool) (isPageNumberPanelOpen : bool)
    (pos : option Point) (st : AppState) :
  consistent st ->
  is_Some (onMouseDown activeTool isPageNumberPanelOpen pos st).
Proof.
  intros Hst. unfold onMouseDown.
  destruct (_ || _ || _); [done |].
  destruct pos as [pos |]; [| done].
  destruct (pageIndexOf st) as [pageIndex |] eqn:Hpage; [| done].
  destruct (consistent_page_list _ _ Hst Hpage) as [pageAnns ->]. cbn.
  destruct (hitScan _ _ _ _) as [[newSelection mode] |] eqn:Hscan; [| done].
  apply hitScan_Some in Hscan as (_ & Hhit & _).
  destruct (pageAnns !! newSelection) as [ann |]; done.
Qed.

Lemma onMouseMove_succeeds (pos : option Point) (st : AppState) :
  consistent st -> is_Some (onMouseMove pos st).
Proof.
  intros Hst. unfold onMouseMove.
  destruct (dragMode st), (isDrawing st), pos as [p |]; try done.
  all: destruct (pageIndexOf st) as [pageIndex |] eqn:Hpage; [| done].
  all: destruct (selectedAnnotationIndex st =? -1)%Z eqn:Hsel; [done |].
  all: destruct (consistent_page_list _ _ Hst Hpage) as [pageAnns Hanns].
  all: rewrite Hanns; cbn.
  all: destruct (selection_cases st pageIndex pageAnns) as [Hnone | Hrange];
    [by destruct Hst | done | done | apply Z.eqb_neq in Hsel; lia |].
  all: unfold lookupZ.
  all: replace (selectedAnnotationIndex st <? 0)%Z with false
    by (symmetry; apply Z.ltb_ge; lia).
  all: destruct (lookup_lt_is_Some_2 pageAnns
                   (Z.to_nat (selectedAnnotationIndex st))) as [ann ->];
    [lia | done].
Qed.

Lemma consistent_lockstep (st : AppState) :
  consistent st -> length (pageOrder st) = length (annotations st).
Proof. by intros [_ _ _ [-> _] _ _ _]. Qed.

Lemma onMouseUp_succeeds (st : AppState) :
  consistent st -> is_Some (onMouseUp st).
Proof.
  intros Hst. unfold onMouseUp.
  change (isDrawing (set_dragMode DragNone st)) with (isDrawing st).
  destruct (isDrawing st); [| done].
  destruct (1 <? length _)%nat; [| done].
  edestruct addAnnotation_succeeds as [st3 ->]; [| done].
  cbn. by apply consistent_lockstep.
Qed.

Lemma onDblClick_succeeds (isPageNumberPanelOpen : bool) (pos : option Point)
    (st : AppState) :
  consistent st -> is_Some (onDblClick isPageNumberPanelOpen pos st).
Proof.
  intros Hst. unfold onDblClick.
  destruct (_ || _); [done |].
  destruct pos as [pos |]; [| done].
  destruct (pageIndexOf st) as [pageIndex |] eqn:Hpage; [| done].
  destruct (consistent_page_list _ _ Hst Hpage) as [pageAnns ->]. cbn.
  by destruct (textScan _ _ _) as [[editIndex annToEdit] |].
Qed.

Lemma finalizeTextAnnotation_succeeds (st : AppState) :
  consistent st -> is_Some (finalizeTextAnnotation st).
Proof.
  intros Hst. unfold finalizeTextAnnotation.
  destruct (isEditingText st); cbn; [| done].
  destruct (textEditingState st) as [state |]; [| done].
  destruct (JS.falsy _); [done |].
  destruct (measureText _ _ _) as [width height].
  assert (Hadd : forall annotation,
            exists st3, addAnnotation annotation st = Some st3).
  { intros annotation. apply addAnnotation_succeeds.
    by apply consistent_lockstep. }
  destruct (-1 <? selectedAnnotationIndex st)%Z; cbn.
  - destruct (pageIndexOf st) as [pageIndex |] eqn:Hpage; cbn.
    + destruct (consistent_page_list _ _ Hst Hpage) as [pageAnns Hanns].
      rewrite Hanns. cbn.
      destruct (lookupZ _ pageAnns) as [[t | d | i] |]; cbn;
        try (by edestruct Hadd as [st3 ->]).
      done.
    + by edestruct Hadd as [st3 ->].
  - destruct (pageIndexOf st); by edestruct Hadd as [st3 ->].
Qed.

Lemma onDeleteKeyPressed_succeeds (confirmAnswer : bool) (st : AppState) :
  consistent st -> is_Some (onDeleteKeyPressed confirmAnswer st).
Proof.
  intros Hst. unfold onDeleteKeyPressed.
  destruct (-1 <? selectedAnnotationIndex st)%Z.
  - change (pageIndexOf (pushHistory st)) with (pageIndexOf st).
    destruct (pageIndexOf st) as [pageIndex |] eqn:Hpage; [| done].
    destruct (consistent_page_list _ _ Hst Hpage) as [pageAnns Hanns].
    cbn. by rewrite Hanns.
  - destruct (activeTab st); try done. by destruct (_ && _).
Qed.

Lemma goToPage_succeeds (num : Z) (st : AppState) :
  (1 <= num <= Z.of_nat (length (pageOrder st)))%Z ->
  is_Some (goToPage num st).
Proof.
  intros Hnum. unfold goToPage, lookupZ.
  replace (num - 1 <? 0)%Z with false by (symmetry; apply Z.ltb_ge; lia).
  destruct (lookup_lt_is_Some_2 (pageOrder st) (Z.to_nat (num - 1)))
    as [page ->]; [lia | done].
Qed.

Lemma pagePosition_range (st : AppState) :
  (-1 <= pagePosition st < Z.of_nat (length (pageOrder st)))%Z.
Proof.
  unfold pagePosition.
  destruct (pageIndexOf st) as [pageIndex |] eqn:Hpage; [| lia].
  apply indexOf_lt in Hpage. lia.
Qed.

Lemma goToPrevPage_succeeds (st : AppState) : is_Some (goToPrevPage st).
Proof.
  unfold goToPrevPage. pose proof (pagePosition_range st).
  destruct (0 <? pagePosition st)%Z eqn:Hpos; [| done].
  apply Z.ltb_lt in Hpos. apply goToPage_succeeds. lia.
Qed.

Lemma goToNextPage_succeeds (st : AppState) : is_Some (goToNextPage st).
Proof.
  unfold goToNextPage. pose proof (pagePosition_range st).
  destruct (pagePosition st <? _)%Z eqn:Hpos; [| done].
  apply Z.ltb_lt in Hpos. apply goToPage_succeeds. lia.
Qed.

(** X4.  In a consistent state none of these handlers raises: pressing,
    moving, releasing and double-clicking the pointer, finalizing a text,
    the delete key, stepping to the previous or the next page, and typing
    a page number; dropping a page that is being dragged does not raise
    either. *)
Theorem handlers_do_not_raise (st : AppState) :
  consistent st ->
  (forall activeTool isPageNumberPanelOpen pos,
     is_Some (onMouseDown activeTool isPageNumberPanelOpen pos st))
  /\ (forall pos, is_Some (onMouseMove pos st))
  /\ is_Some (onMouseUp st)
  /\ (forall isPageNumberPanelOpen pos,
        is_Some (onDblClick isPageNumberPanelOpen pos st))
  /\ is_Some (finalizeTextAnnotation st)
  /\ (forall confirmAnswer, is_Some (onDeleteKeyPressed confirmAnswer st))
  /\ is_Some (goToPrevPage st)
  /\ is_Some (goToNextPage st)
  /\ (forall pageNum, is_Some (onPageInput pageNum st))
  /\ (forall draggedPageIndex dropIndex,
        (draggedPageIndex < Z.of_nat (length (pageOrder st)))%Z ->
        is_Some (onDrop draggedPageIndex dropIndex st)).
Proof.
  intros Hst.
  split; [intros; by apply onMouseDown_succeeds |].
  split; [intros; by apply onMouseMove_succeeds |].
  split; [by apply onMouseUp_succeeds |].
  split; [intros; by apply onDblClick_succeeds |].
  split; [by apply finalizeTextAnnotation_succeeds |].
  split; [intros; by apply onDeleteKeyPressed_succeeds |].
  split; [apply goToPrevPage_succeeds |].
  split; [apply goToNextPage_succeeds |].
  split.
  - intros [pageNum |]; cbn; [| done].
    destruct (_ && _)%Z eqn:Hrange; [| done].
    apply andb_prop in Hrange as [Hlow Hhigh].
    apply Z.leb_le in Hlow, Hhigh. apply goToPage_succeeds.
    destruct Hst as [_ _ Htotal _ _ _ _]. lia.
  - intros draggedPageIndex dropIndex Hlt. unfold onDrop.
    destruct (-1 <? draggedPageIndex)%Z eqn:Hdrag; [| done].
    apply Z.ltb_lt in Hdrag. unfold reorderPages, JS.splice_remove.
    destruct (_ || _); [done |].
    destruct (lookup_lt_is_Some_2 (pageOrder st) (Z.to_nat draggedPageIndex))
      as [movedPage ->]; [lia |].
    destruct (lookup_lt_is_Some_2 (annotations st) (Z.to_nat draggedPageIndex))
      as [movedAnn ->]; [rewrite <- consistent_lockstep by done; lia |].
    done.
Qed.

(** ** Pressing the pointer *)

Lemma inRect_within (p : Point) (x y width height : Q) :
  inRect p x y width height = true <-> within p x y width height.
Proof.
  unfold inRect, within. rewrite !andb_true_iff, !Qle_bool_iff. tauto.
Qed.

Lemma hitPart_under (p : Point) (scale : Q) (ann : Annotation) :
  (under p scale ann <-> is_Some (hitPart p scale ann))
  /\ (forall mode, hitPart p scale ann = Some mode ->
        (mode = DragResize <-> exists i, ann = AImage i /\ onHandle p scale i)
        /\ (mode = DragMove \/ mode = DragResize)).
Proof.
  destruct ann as [t | d | i]; cbn [under hitPart].
  - pose proof (inRect_within p (t_x t) (t_y t) (t_width t) (t_height t))
      as Hbox.
    destruct (inRect p (t_x t) (t_y t) (t_width t) (t_height t)).
    + split; [split; [done | intros _; by apply Hbox] |].
      intros mode [= <-]. split; [| by left].
      split; [done | by intros (i & Hi & _)].
    + split; [| done]. split; [| by intros [? ?]].
      intros H. apply Hbox in H. done.
  - split; [| done]. split; [done | by intros [? ?]].
  - pose proof (inRect_within p (i_x i + i_width i - 10 / scale / 2)
                  (i_y i + i_height i - 10 / scale / 2) (10 / scale)
                  (10 / scale)) as Hhandle.
    pose proof (inRect_within p (i_x i) (i_y i) (i_width i) (i_height i))
      as Hbox.
    fold (onHandle p scale i) in Hhandle.
    destruct (inRect p (i_x i + i_width i - 10 / scale / 2) _ _ _).
    + split; [split; [done | intros _; left; by apply Hhandle] |].
      intros mode [= <-]. split; [| by right].
      split; [| done]. intros _. exists i. split; [done | by apply Hhandle].
    + destruct (inRect p (i_x i) (i_y i) (i_width i) (i_height i)).
      * split; [split; [done | intros _; right; by apply Hbox] |].
        intros mode [= <-]. split; [| by left].
        split; [done |]. intros (i' & [= <-] & Hon).
        apply Hhandle in Hon. done.
      * split; [| done]. split; [| by intros [? ?]].
        intros [Hon | Hin]; [apply Hhandle in Hon | apply Hbox in Hin]; done.
Qed.

(** X5.  A press on the page, in the edit tab with no text being edited
    and the page-number panel closed, selects the topmost text or image
    under the pointer.  A text is under the pointer when the pointer, in
    document units, is in its box, borders included; an image when the
    pointer is in its box or on its resize handle, the square of 10
    pixels centred on the bottom-right corner of the box; a stroke never
    is.  If some annotation of the page is under the pointer, the one
    selected is under the pointer and none after it in the list is; the
    drag mode is resize when it is an image pressed on its handle and
    move otherwise, the press point and the annotation's box are
    remembered in document units and the tool becomes the select tool.
    If none is, the selection is cleared and the tool is kept.  Either
    way the model and the history are left alone. *)
Theorem press_selects_the_topmost (activeTool : Tool) (pos : Point)
    (st : AppState) (pageIndex : nat) (pageAnns : list Annotation) :
  isEditingText st = false ->
  activeTab st = TabEdit ->
  pageIndexOf st = Some pageIndex ->
  annotations st !! pageIndex = Some pageAnns ->
  let posUnscaled := mkPoint (pt_x pos / scale st) (pt_y pos / scale st) in
  exists st' activeTool',
    onMouseDown activeTool false (Some pos) st = Some (st', activeTool')
    /\ annotations st' = annotations st
    /\ undoStack st' = undoStack st
    /\ redoStack st' = redoStack st
    /\ ((selectedAnnotationIndex st' = (-1)%Z
         /\ activeTool' = activeTool
         /\ forall j ann, pageAnns !! j = Some ann ->
              ~ under posUnscaled (scale st) ann)
        \/ exists i ann,
             selectedAnnotationIndex st' = Z.of_nat i
             /\ pageAnns !! i = Some ann
             /\ under posUnscaled (scale st) ann
             /\ (forall j ann', (i < j)%nat -> pageAnns !! j = Some ann' ->
                   ~ under posUnscaled (scale st) ann')
             /\ (dragMode st' = DragResize
                 <-> exists img,
                       ann = AImage img
                       /\ onHandle posUnscaled (scale st) img)
             /\ (dragMode st' = DragMove \/ dragMode st' = DragResize)
             /\ activeTool' = ToolSelect
             /\ dragStartPos st' = posUnscaled
             /\ dragStartAnn st' = grabbedRect ann (dragStartAnn st)).
Proof.
  intros Hedit Htab Hpage Hanns posUnscaled. unfold onMouseDown.
  rewrite Hedit, Htab, Hpage, Hanns. cbn [orb mbind option_bind].
  fold posUnscaled.
  destruct (hitScan posUnscaled (scale st) pageAnns (length pageAnns))
    as [[i mode] |] eqn:Hscan.
  - apply hitScan_Some in Hscan as (Hlt & Hhit & Habove).
    destruct (pageAnns !! i) as [ann |] eqn:Hann; [| done].
    cbn in Hhit |- *. eexists _, _. split; [reflexivity |].
    split; [done |]. split; [done |]. split; [done |].
    destruct (hitPart_under posUnscaled (scale st) ann) as [Hunder Hmode].
    destruct (Hmode mode Hhit) as [Hresize Heither].
    right. exists i, ann.
    split; [done |]. split; [done |].
    split; [apply Hunder; by rewrite Hhit |].
    split; [| split; [exact Hresize | split; [exact Heither | done]]].
    intros j ann' Hj Hann' Hun.
    apply (hitPart_under posUnscaled (scale st) ann') in Hun as [m Hm].
    assert (Hjlt : (j < length pageAnns)%nat) by by eapply lookup_lt_Some.
    specialize (Habove j (conj Hj Hjlt)). rewrite Hann' in Habove.
    cbn in Habove. congruence.
  - pose proof (hitScan_None _ _ _ _ Hscan) as Hnone.
    eexists _, _. split; [reflexivity |].
    split; [by destruct activeTool |]. split; [by destruct activeTool |].
    split; [by destruct activeTool |].
    left. split; [by destruct activeTool |]. split; [done |].
    intros j ann Hann Hun.
    apply (hitPart_under posUnscaled (scale st) ann) in Hun as [m Hm].
    specialize (Hnone j (lookup_lt_Some _ _ _ Hann)).
    rewrite Hann in Hnone. cbn in Hnone. congruence.
Qed.

(** ** Dragging *)

Lemma onMouseMove_move (pos : Point) (st : AppState) (pageIndex i : nat)
    (pageAnns : list Annotation) (ann : Annotation) :
  dragMode st = DragMove ->
  pageIndexOf st = Some pageIndex ->
  annotations st !! pageIndex = Some pageAnns ->
  selectedAnnotationIndex st = Z.of_nat i ->
  pageAnns !! i = Some ann ->
  onMouseMove (Some pos) st
  = Some (set_annotations
            (<[pageIndex :=
                 <[i := placedAt
                          (r_x (dragStartAnn st)
                           + (pt_x pos / scale st - pt_x (dragStartPos st)))
                          (r_y (dragStartAnn st)
                           + (pt_y pos / scale st - pt_y (dragStartPos st)))
                          ann]> pageAnns]> (annotations st)) st).
Proof.
  intros Hmode Hpage Hanns Hsel Hann. unfold onMouseMove.
  rewrite Hmode, Hpage, Hsel.
  replace (Z.of_nat i =? -1)%Z with false by (symmetry; apply Z.eqb_neq; lia).
  rewrite Hanns. cbn [mbind option_bind]. rewrite lookupZ_of_nat, Hann.
  cbn [mbind option_bind]. rewrite Nat2Z.id.
  by destruct (isDrawing st), ann.
Qed.

Lemma placedAt_placedAt (x y x' y' : Q) (ann : Annotation) :
  placedAt x' y' (placedAt x y ann) = placedAt x' y' ann.
Proof. by destruct ann. Qed.

(** X6.  Moving a grabbed text or image: after any sequence of pointer
    moves, the annotation's corner is where it was at the press plus what
    the pointer has travelled since, in document units; only the last
    pointer position counts, not the path to it.  Its size and content,
    every other annotation, the selection and both history stacks are as
    they were: a move is not recorded in the history. *)
Theorem move_drag_follows_the_pointer (moves : list Point) (pos : Point)
    (st : AppState) (pageIndex i : nat) (pageAnns : list Annotation)
    (ann : Annotation) :
  dragMode st = DragMove ->
  pageIndexOf st = Some pageIndex ->
  annotations st !! pageIndex = Some pageAnns ->
  selectedAnnotationIndex st = Z.of_nat i ->
  pageAnns !! i = Some ann ->
  drag (moves ++ [pos]) st
  = Some (set_annotations
            (<[pageIndex :=
                 <[i := placedAt
                          (r_x (dragStartAnn st)
                           + (pt_x pos / scale st - pt_x (dragStartPos st)))
                          (r_y (dragStartAnn st)
                           + (pt_y pos / scale st - pt_y (dragStartPos st)))
                          ann]> pageAnns]> (annotations st)) st).
Proof.
  intros Hmode Hpage Hanns Hsel Hann.
  assert (Hlt : (pageIndex < length (annotations st))%nat)
    by by eapply lookup_lt_Some.
  assert (Hi : (i < length pageAnns)%nat) by by eapply lookup_lt_Some.
  revert pos. induction moves as [| previous moves IH] using rev_ind;
    intros pos; unfold drag in *.
  - cbn. by apply onMouseMove_move.
  - rewrite foldl_app. cbn [foldl]. rewrite IH. cbn [mbind option_bind].
    match goal with
    | |- onMouseMove _ (set_annotations (<[_ := <[_ := ?moved]> _]> _) _) = _ =>
        rewrite (onMouseMove_move pos _ pageIndex i (<[i := moved]> pageAnns)
                   moved)
    end; try done.
    + cbn [annotations set_annotations dragStartAnn dragStartPos scale].
      by rewrite !list_insert_insert_eq, placedAt_placedAt.
    + cbn [annotations set_annotations]. by apply list_lookup_insert_eq.
    + by apply list_lookup_insert_eq.
Qed.

(** ** Typing a text *)

Lemma hitScan_misses (posUnscaled : Point) (scale : Q)
    (pageAnns : list Annotation) (n : nat) :
  (forall j ann, pageAnns !! j = Some ann ->
     hitPart posUnscaled scale ann = None) ->
  hitScan posUnscaled scale pageAnns n = None.
Proof.
  intros Hnone. induction n as [| n IH]; cbn; [done |].
  destruct (pageAnns !! n) as [ann |] eqn:Hann; cbn; [| done].
  by rewrite (Hnone n ann Hann).
Qed.

(** X7.  A text typed at a click.  With the text tool, a press on an empty
    spot of the page opens the overlay there; once a text that is not
    blank is typed and finalized, the current page has one more
    annotation, last in its list: the trimmed text, in the current text
    settings, at the document point under the click (its corner times the
    zoom is the click point).  The model before is pushed on the undo
    stack, the redo stack is emptied and the overlay is closed. *)
Theorem typed_text_lands_at_the_click (pos : Point) (value : JS.jsstring)
    (st : AppState) (pageIndex : nat) (pageAnns : list Annotation) :
  isEditingText st = false ->
  activeTab st = TabEdit ->
  pageIndexOf st = Some pageIndex ->
  annotations st !! pageIndex = Some pageAnns ->
  (forall j ann, pageAnns !! j = Some ann ->
     hitPart (mkPoint (pt_x pos / scale st) (pt_y pos / scale st)) (scale st)
       ann = None) ->
  forallb JS.isWhiteSpace value = false ->
  ~ (scale st == 0)%Q ->
  exists st1 st3 t,
    onMouseDown ToolText false (Some pos) st = Some (st1, ToolText)
    /\ isEditingText st1 = true
    /\ textEditingState st1 = Some (mkEditing (pt_x pos) (pt_y pos) 150 [])
    /\ finalizeTextAnnotation (onTextInput value st1) = Some st3
    /\ annotations st3 = <[pageIndex := pageAnns ++ [AText t]]> (annotations st)
    /\ t_text t = JS.trim value
    /\ settingsOf t = textSettings st
    /\ (t_x t * scale st == pt_x pos)%Q
    /\ (t_y t * scale st == pt_y pos)%Q
    /\ undoStack st3 = undoStack st ++ [annotations st]
    /\ redoStack st3 = []
    /\ isEditingText st3 = false
    /\ textEditingState st3 = None.
Proof.
  intros Hedit Htab Hpage Hanns Hnone Hvalue Hscale.
  set (st1 := set_textEditingState
                (Some (mkEditing (pt_x pos) (pt_y pos) 150 []))
                (set_isEditingText true
                   (set_selectedAnnotationIndex (-1)%Z st))).
  destruct (measureText value (textSettings st) (onTextInput value st1))
    as [width height] eqn:Hmeasure.
  set (t := mkText (pt_x pos / scale st) (pt_y pos / scale st) (JS.trim value)
              (ts_size (textSettings st)) (ts_color (textSettings st))
              (ts_font (textSettings st)) (ts_bold (textSettings st))
              (width / (scale st * devicePixelRatio))
              (height / (scale st * devicePixelRatio))).
  exists st1,
    (set_textEditingState None
       (set_isEditingText false
          (set_annotations
             (<[pageIndex := pageAnns ++ [AText t]]> (annotations st))
             (pushHistory (onTextInput value st1))))), t.
  split.
  { unfold onMouseDown. rewrite Hedit, Htab, Hpage, Hanns.
    cbn [orb mbind option_bind]. by rewrite (hitScan_misses _ _ _ _ Hnone). }
  split; [done |]. split; [done |]. split.
  { unfold finalizeTextAnnotation, addAnnotation, pageIndexOf in *.
    cbn -[JS.trim JS.falsy measureText onTextInput st1].
    change (isEditingText (onTextInput value st1)) with true.
    change (textEditingState (onTextInput value st1))
      with (Some (mkEditing (pt_x pos) (pt_y pos) 150 value)).
    cbn -[JS.trim JS.falsy measureText onTextInput st1].
    rewrite trim_falsy, Hvalue.
    change (textSettings (onTextInput value st1)) with (textSettings st).
    rewrite Hmeasure.
    change (selectedAnnotationIndex (onTextInput value st1)) with (-1)%Z.
    cbn -[JS.trim onTextInput st1].
    change (currentPageNum (onTextInput value st1)) with (currentPageNum st).
    change (pageOrder (onTextInput value st1)) with (pageOrder st).
    rewrite Hpage.
    change (annotations (onTextInput value st1)) with (annotations st).
    rewrite Hanns. reflexivity. }
  split; [done |]. split; [done |]. split; [by destruct (textSettings st) |].
  split; [cbn; by field |]. split; [cbn; by field |]. done.
Qed.

(** ** Editing a text in place *)

Lemma textScan_topmost (posUnscaled : Point) (pageAnns : list Annotation)
    (n i : nat) (t : TextAnnotation) :
  pageAnns !! i = Some (AText t) ->
  inRect posUnscaled (t_x t) (t_y t) (t_width t) (t_height t) = true ->
  (forall j t', (i < j)%nat -> pageAnns !! j = Some (AText t') ->
     inRect posUnscaled (t_x t') (t_y t') (t_width t') (t_height t') = false) ->
  (i < n)%nat ->
  textScan posUnscaled pageAnns n = Some (i, t).
Proof.
  intros Hi Hin Habove. induction n as [| n IH]; [lia |]. intros Hlt. cbn.
  destruct (decide (i = n)) as [-> | Hne].
  - by rewrite Hi, Hin.
  - destruct (pageAnns !! n) as [[t' | d | img] |] eqn:Hn;
      try (apply IH; lia).
    rewrite (Habove n t') by (done || lia). apply IH. lia.
Qed.

(** X8.  Editing a text in place.  A double click on a text (the topmost
    text under the pointer, whatever images or strokes lie over it) opens
    the overlay on its content, at its corner in logical space, with the
    text settings taken from it.  Finalizing straight away replaces the
    annotation by one with the same corner, content and settings (only its
    measured box is recomputed), and still pushes the model on the undo
    stack. *)
Theorem editing_without_change_keeps_the_text (pos : Point) (st : AppState)
    (pageIndex i : nat) (pageAnns : list Annotation) (t : TextAnnotation) :
  activeTab st = TabEdit ->
  pageIndexOf st = Some pageIndex ->
  annotations st !! pageIndex = Some pageAnns ->
  let posUnscaled := mkPoint (pt_x pos / scale st) (pt_y pos / scale st) in
  pageAnns !! i = Some (AText t) ->
  inRect posUnscaled (t_x t) (t_y t) (t_width t) (t_height t) = true ->
  (forall j t', (i < j)%nat -> pageAnns !! j = Some (AText t') ->
     inRect posUnscaled (t_x t') (t_y t') (t_width t') (t_height t') = false) ->
  stored (AText t) ->
  exists st1 st2 t',
    onDblClick false (Some pos) st = Some st1
    /\ isEditingText st1 = true
    /\ textEditingState st1
       = Some (mkEditing (t_x t * scale st) (t_y t * scale st)
                 (t_width t * scale st + 20) (t_text t))
    /\ selectedAnnotationIndex st1 = Z.of_nat i
    /\ textSettings st1 = settingsOf t
    /\ finalizeTextAnnotation st1 = Some st2
    /\ annotations st2
       = <[pageIndex := <[i := AText t']> pageAnns]> (annotations st)
    /\ t_x t' = t_x t /\ t_y t' = t_y t /\ t_text t' = t_text t
    /\ settingsOf t' = settingsOf t
    /\ undoStack st2 = undoStack st ++ [annotations st]
    /\ redoStack st2 = []
    /\ isEditingText st2 = false.
Proof.
  intros Htab Hpage Hanns posUnscaled Hi Hin Habove [Htrim Hfilled].
  cbn in Htrim, Hfilled.
  set (st1 := set_textEditingState
                (Some (mkEditing (t_x t * scale st) (t_y t * scale st)
                         (t_width t * scale st + 20) (t_text t)))
                (set_isEditingText true
                   (set_textSettings (settingsOf t)
                      (set_selectedAnnotationIndex (Z.of_nat i) st)))).
  destruct (measureText (t_text t) (settingsOf t) st1)
    as [width height] eqn:Hmeasure.
  set (t' := mkText (t_x t) (t_y t) (JS.trim (t_text t)) (t_size t) (t_color t)
               (t_font t) (t_bold t) (width / (scale st * devicePixelRatio))
               (height / (scale st * devicePixelRatio))).
  exists st1,
    (set_textEditingState None
       (set_isEditingText false
          (set_annotations
             (<[pageIndex := <[i := AText t']> pageAnns]> (annotations st))
             (pushHistory st1)))), t'.
  split.
  { unfold onDblClick. rewrite Htab, Hpage, Hanns.
    cbn [orb mbind option_bind]. fold posUnscaled.
    by rewrite (textScan_topmost posUnscaled pageAnns (length pageAnns) i t)
      by (done || by eapply lookup_lt_Some). }
  split; [done |]. split; [done |]. split; [done |]. split; [done |]. split.
  { unfold finalizeTextAnnotation, pageIndexOf in *.
    change (isEditingText st1) with true.
    change (textEditingState st1)
      with (Some (mkEditing (t_x t * scale st) (t_y t * scale st)
                    (t_width t * scale st + 20) (t_text t))).
    cbn -[JS.trim JS.falsy measureText st1].
    rewrite trim_falsy.
    replace (forallb JS.isWhiteSpace (t_text t)) with false.
    2: { symmetry. rewrite <- trim_falsy, Htrim. by destruct (t_text t). }
    change (textSettings st1) with (settingsOf t). rewrite Hmeasure.
    change (selectedAnnotationIndex st1) with (Z.of_nat i).
    replace (-1 <? Z.of_nat i)%Z with true by (symmetry; apply Z.ltb_lt; lia).
    change (currentPageNum st1) with (currentPageNum st).
    change (pageOrder st1) with (pageOrder st). rewrite Hpage.
    change (annotations st1) with (annotations st). rewrite Hanns.
    cbn [mbind option_bind]. rewrite lookupZ_of_nat, Hi.
    cbn [mbind option_bind]. rewrite Nat2Z.id. reflexivity. }
  split; [done |]. split; [done |]. split; [done |]. split; [done |].
  split; [done |]. done.
Qed.

(** ** Stepping through the pages *)

(** X9.  While no page occurs twice in the page order: from a page that is
    not the last, the next-page button shows the page one position
    further and clears the selection, and the previous-page button then
    shows the page it started from; the previous-page button on the first
    position and the next-page button on the last one change nothing. *)
Theorem next_then_previous_returns (st : AppState) :
  NoDup (pageOrder st) ->
  (forall i, pageIndexOf st = Some i -> (S i < length (pageOrder st))%nat ->
     exists st1 page,
       goToNextPage st = Some st1
       /\ pageOrder st !! S i = Some page
       /\ currentPageNum st1 = page
       /\ pageIndexOf st1 = Some (S i)
       /\ selectedAnnotationIndex st1 = (-1)%Z
       /\ goToPrevPage st1 = Some (set_selectedAnnotationIndex (-1)%Z st))
  /\ (pageIndexOf st = Some 0%nat -> goToPrevPage st = Some st)
  /\ (forall i, pageIndexOf st = Some i -> S i = length (pageOrder st) ->
        goToNextPage st = Some st).
Proof.
  intros Hnodup. split; [| split].
  - intros i Hi Hlt.
    destruct (lookup_lt_is_Some_2 (pageOrder st) (S i) Hlt) as [page Hpage].
    pose proof (indexOf_lookup _ _ _ Hi) as Hcurrent.
    assert (Hnext : goToNextPage st
                    = Some (set_selectedAnnotationIndex (-1)%Z
                              (set_currentPageNum page st))).
    { unfold goToNextPage, pagePosition, goToPage. rewrite Hi.
      replace (Z.of_nat i <? Z.of_nat (length (pageOrder st)) - 1)%Z with true
        by (symmetry; apply Z.ltb_lt; lia).
      replace (Z.of_nat i + 2 - 1)%Z with (Z.of_nat (S i)) by lia.
      by rewrite lookupZ_of_nat, Hpage. }
    assert (Hposition : JS.indexOf page (pageOrder st) = Some (S i))
      by by apply indexOf_NoDup.
    eexists _, page. split; [exact Hnext |]. split; [done |].
    split; [done |]. split; [exact Hposition |]. split; [done |].
    unfold goToPrevPage, pagePosition, goToPage, pageIndexOf.
    cbn [currentPageNum pageOrder set_selectedAnnotationIndex
           set_currentPageNum].
    rewrite Hposition.
    replace (0 <? Z.of_nat (S i))%Z with true by (symmetry; apply Z.ltb_lt; lia).
    replace (Z.of_nat (S i) - 1)%Z with (Z.of_nat i) by lia.
    rewrite lookupZ_of_nat, Hcurrent. reflexivity.
  - intros Hi. unfold goToPrevPage, pagePosition. by rewrite Hi.
  - intros i Hi Hlast. unfold goToNextPage, pagePosition. rewrite Hi.
    by replace (Z.of_nat i <? Z.of_nat (length (pageOrder st)) - 1)%Z
      with false by (symmetry; apply Z.ltb_ge; lia).
Qed.

(** ** Fitting the page *)

(** X10.  Fit to page, with a document loaded and a page of positive size:
    at the new zoom the page is at most the viewer container less 32
    pixels in both directions, and exactly that in one of them.  The
    result is not clamped to the range of the zoom buttons: in a container
    of 32 pixels or less the zoom becomes zero or negative.  Nothing but
    the zoom changes. *)
Theorem fitToPage_fits (width height clientWidth clientHeight : Q)
    (st : AppState) :
  isPdfLoaded st = true ->
  (0 < width)%Q -> (0 < height)%Q ->
  let st' :=
    fitToPage (Some (width, height)) (Some (clientWidth, clientHeight)) st in
  (width * scale st' <= clientWidth - 32)%Q
  /\ (height * scale st' <= clientHeight - 32)%Q
  /\ ((width * scale st' == clientWidth - 32)%Q
      \/ (height * scale st' == clientHeight - 32)%Q)
  /\ ((clientWidth <= 32)%Q \/ (clientHeight <= 32)%Q -> (scale st' <= 0)%Q)
  /\ st' = set_scale (scale st') st.
Proof.
  intros Hloaded Hw Hh. unfold fitToPage, isPdfLoaded in *.
  destruct (pdfDoc st); [| done]. cbn.
  set (a := ((clientWidth - 32) / width)%Q).
  set (b := ((clientHeight - 32) / height)%Q).
  assert (Ha : (width * a == clientWidth - 32)%Q)
    by (unfold a; field; lra).
  assert (Hb : (height * b == clientHeight - 32)%Q)
    by (unfold b; field; lra).
  pose proof (Q.le_min_l a b) as Hla. pose proof (Q.le_min_r a b) as Hlb.
  split; [rewrite <- Ha; apply Qmult_le_l; done |].
  split; [rewrite <- Hb; apply Qmult_le_l; done |].
  split.
  - destruct (Q.min_dec a b) as [-> | ->]; [by left | by right].
  - split; [| done]. intros [Hcw | Hch].
    + apply Qle_trans with (y := a); [done |]. unfold a.
      apply Qle_shift_div_r; lra.
    + apply Qle_trans with (y := b); [done |]. unfold b.
      apply Qle_shift_div_r; lra.
Qed.

(** ** Inserting an image *)

Lemma imageBox_fits (width height scale : Q) :
  (0 < width)%Q -> (0 < height)%Q -> (0 < scale)%Q ->
  (0 < fst (imageBox width height scale) <= 200)%Q
  /\ (0 < snd (imageBox width height scale) <= 200)%Q
  /\ (fst (imageBox width height scale) <= width / scale)%Q
  /\ (snd (imageBox width height scale) <= height / scale)%Q.
Proof.
  intros Hw Hh Hs. unfold imageBox.
  assert (Hpw : (0 < width / scale)%Q) by (apply Qlt_shift_div_l; lra).
  assert (Hph : (0 < height / scale)%Q) by (apply Qlt_shift_div_l; lra).
  set (pointWidth := (width / scale)%Q) in *.
  set (pointHeight := (height / scale)%Q) in *.
  assert (Hshrink : forall a b : Q,
            (0 < a)%Q -> (0 < b)%Q -> (a <= b)%Q -> (200 < b)%Q ->
            (0 < a * (200 / b) <= 200)%Q /\ (a * (200 / b) <= a)%Q).
  { intros a b Ha Hb Hab Hbig.
    assert (Hq : (0 < 200 / b)%Q) by (apply Qlt_shift_div_l; lra).
    assert (Hq1 : (200 / b <= 1)%Q) by (apply Qle_shift_div_r; lra).
    assert (Heq : (a * (200 / b) == 200 * (a / b))%Q) by (field; lra).
    assert (Hr : (a / b <= 1)%Q) by (apply Qle_shift_div_r; lra).
    split; [split |]; [nra | rewrite Heq; lra | nra]. }
  destruct (Qlt_le_dec pointHeight pointWidth) as [Hwide | Htall];
    destruct (Qlt_le_dec 200 _) as [Hbig | Hsmall]; cbn [fst snd].
  - destruct (Hshrink pointHeight pointWidth) as [[? ?] ?]; try lra;
      repeat split; lra.
  - repeat split; lra.
  - destruct (Hshrink pointWidth pointHeight) as [[? ?] ?]; try lra;
      repeat split; lra.
  - repeat split; lra.
Qed.

Lemma imageBox_size (width height scale : Q) :
  (0 < width)%Q -> (0 < height)%Q -> (0 < scale)%Q ->
  ((width / scale <= 200)%Q -> (height / scale <= 200)%Q ->
   imageBox width height scale = ((width / scale)%Q, (height / scale)%Q))
  /\ ((200 < width / scale)%Q \/ (200 < height / scale)%Q ->
      (Qmax (fst (imageBox width height scale))
         (snd (imageBox width height scale)) == 200)%Q).
Proof.
  intros Hw Hh Hs.
  pose proof (imageBox_fits width height scale Hw Hh Hs)
    as ([_ Hfw] & [_ Hfh] & _ & _).
  revert Hfw Hfh. unfold imageBox.
  set (pointWidth := (width / scale)%Q).
  set (pointHeight := (height / scale)%Q).
  destruct (Qlt_le_dec pointHeight pointWidth) as [Hwide | Htall];
    destruct (Qlt_le_dec 200 _) as [Hbig | Hsmall]; cbn [fst snd];
    intros Hfw Hfh.
  - split; [intros; lra |]. intros _. by apply Q.max_l.
  - split; [done |]. intros [? | ?]; lra.
  - split; [intros; lra |]. intros _. by apply Q.max_r.
  - split; [done |]. intros [? | ?]; lra.
Qed.

Lemma addAndSelect_eq (annotation : Annotation) (st : AppState)
    (pageIndex : nat) (pageAnns : list Annotation) :
  pageIndexOf st = Some pageIndex ->
  annotations st !! pageIndex = Some pageAnns ->
  addAndSelect annotation st
  = Some (set_selectedAnnotationIndex (Z.of_nat (length pageAnns))
            (set_annotations
               (<[pageIndex := pageAnns ++ [annotation]]> (annotations st))
               (pushHistory st))).
Proof.
  intros Hpage Hanns. unfold addAndSelect, addAnnotation, pageIndexOf in *.
  cbn. rewrite Hpage. cbn. rewrite Hanns. cbn. rewrite Hpage. cbn.
  rewrite list_lookup_insert_eq by by eapply lookup_lt_Some.
  cbn. rewrite length_app. cbn. do 2 f_equal. lia.
Qed.

(** X11.  Inserting an image on the current page.  The image is appended to
    the page's list and selected, after the model is pushed on the undo
    stack and the redo stack emptied.  Its box is the image's pixel size
    divided by the zoom when that fits 200 by 200 points; otherwise it is
    shrunk, with its proportions kept, until its longer side is 200
    points.  Either way the box is not larger than the image, height =
    width x aspect ratio, the ratio being the image's height over its
    width, and the box is centred on the draw canvas.  Without a draw
    canvas nothing happens. *)
Theorem inserted_image_fits_and_is_centred (imageData : JS.jsstring)
    (width height clientWidth clientHeight : Q) (st : AppState)
    (pageIndex : nat) (pageAnns : list Annotation) :
  (0 < width)%Q -> (0 < height)%Q -> (0 < scale st)%Q ->
  pageIndexOf st = Some pageIndex ->
  annotations st !! pageIndex = Some pageAnns ->
  onImageSelected imageData width height None st = Some st
  /\ exists st' img,
       onImageSelected imageData width height
         (Some (clientWidth, clientHeight)) st = Some st'
       /\ annotations st'
          = <[pageIndex := pageAnns ++ [AImage img]]> (annotations st)
       /\ selectedAnnotationIndex st' = Z.of_nat (length pageAnns)
       /\ undoStack st' = undoStack st ++ [annotations st]
       /\ redoStack st' = []
       /\ i_imageData img = imageData
       /\ (0 < i_width img <= 200)%Q /\ (0 < i_height img <= 200)%Q
       /\ (i_width img <= width / scale st)%Q
       /\ (i_height img <= height / scale st)%Q
       /\ ((width / scale st <= 200)%Q -> (height / scale st <= 200)%Q ->
           i_width img = (width / scale st)%Q
           /\ i_height img = (height / scale st)%Q)
       /\ ((200 < width / scale st)%Q \/ (200 < height / scale st)%Q ->
           (Qmax (i_width img) (i_height img) == 200)%Q)
       /\ (i_originalAspectRatio img == height / width)%Q
       /\ (i_height img == i_width img * i_originalAspectRatio img)%Q
       /\ (i_x img + i_width img / 2 == clientWidth / scale st / 2)%Q
       /\ (i_y img + i_height img / 2 == clientHeight / scale st / 2)%Q.
Proof.
  intros Hw Hh Hs Hpage Hanns. unfold onImageSelected.
  pose proof (imageBox_fits width height (scale st) Hw Hh Hs)
    as (Hfw & Hfh & Hnw & Hnh).
  pose proof (imageBox_proportional width height (scale st) Hw Hh Hs) as Hprop.
  pose proof (imageBox_size width height (scale st) Hw Hh Hs)
    as [Hnatural Hshrunk].
  destruct (imageBox width height (scale st)) as [pointWidth pointHeight].
  cbn [fst snd] in *. split; [done |].
  rewrite (addAndSelect_eq _ st pageIndex pageAnns Hpage Hanns).
  eexists _, _. split; [reflexivity |].
  cbn [annotations undoStack redoStack selectedAnnotationIndex pushHistory
         set_annotations set_selectedAnnotationIndex set_undoStack
         set_redoStack deepClone i_x i_y i_width i_height i_imageData
         i_originalAspectRatio].
  split; [done |]. split; [done |]. split; [done |]. split; [done |].
  split; [done |]. split; [done |]. split; [done |]. split; [done |].
  cbn [i_x i_y i_width i_height i_imageData i_originalAspectRatio].
  split; [done |].
  split; [intros Hkw Hkh; by injection (Hnatural Hkw Hkh) as -> -> |].
  split; [exact Hshrunk |].
  split; [reflexivity |]. split; [done |].
  split; field; lra.
Qed.


(** ** Opening a file *)

Lemma loadPdf_success (pdfBytes : PdfBytes) (pageToLoad : option nat)
    (st : AppState) (pdf : PdfJsDoc) (pdfLib : PdfLibDoc) :
  loadDocuments pdfBytes = Some (pdf, pdfLib) ->
  exists st',
    loadPdf pdfBytes true pageToLoad st = (st', [])
    /\ freshModel (numPages pdf) st'
    /\ pdfDoc st' = Some pdf
    /\ pdfLibDoc st' = Some pdfLib
    /\ currentPageNum st' = default 1%nat pageToLoad
    /\ scale st' = scale st.
Proof.
  intros Hload. unfold loadPdf. rewrite Hload.
  eexists. split; [reflexivity |]. by repeat split.
Qed.

(** X13.  Opening a file.  When both libraries load it, the editor starts
    afresh on page 1: one empty annotation list per page, pages in
    document order, both history stacks empty, nothing selected, the busy
    flag cleared, no dialog; the zoom is kept.  When a library rejects the
    file, the user is alerted and no document is loaded (the page count is
    0), while the annotations, the page order and the history of the
    previous document stay as they were. *)
Theorem opening_a_file (buffer : PdfBytes) (st : AppState) :
  (forall pdf pdfLib,
     loadDocuments buffer = Some (pdf, pdfLib) ->
     exists st',
       onFileSelected buffer st = (st', [])
       /\ freshModel (numPages pdf) st'
       /\ isPdfLoaded st' = true
       /\ currentPageNum st' = 1%nat
       /\ scale st' = scale st)
  /\ (loadDocuments buffer = None ->
      exists st',
        onFileSelected buffer st = (st', [AlertLoadFailed])
        /\ isPdfLoaded st' = false
        /\ pdfLibDoc st' = None
        /\ totalPages st' = 0%nat
        /\ isSaving st' = false
        /\ annotations st' = annotations st
        /\ pageOrder st' = pageOrder st
        /\ undoStack st' = undoStack st
        /\ redoStack st' = redoStack st).
Proof.
  unfold onFileSelected. split.
  - intros pdf pdfLib Hload.
    destruct (loadPdf_success buffer None st pdf pdfLib Hload)
      as (st' & -> & Hfresh & Hpdf & _ & Hpage & Hscale).
    exists st'. unfold isPdfLoaded. by rewrite Hpdf.
  - intros Hload. unfold loadPdf. rewrite Hload.
    eexists. split; [reflexivity |]. by repeat split.
Qed.

(** ** What a page-structure operation leaves *)

Lemma saveAndReload_success (doc : PdfLibDoc)
    (pageToLoad : PdfLibDoc -> option nat) (failed : Dialog) (st : AppState)
    (pdfBytes : PdfBytes) (pdf : PdfJsDoc) (pdfLib : PdfLibDoc) :
  saveDocument doc = Some pdfBytes ->
  loadDocuments pdfBytes = Some (pdf, pdfLib) ->
  exists st',
    saveAndReload (Some doc) pageToLoad failed st = (st', [])
    /\ freshModel (numPages pdf) st'
    /\ isPdfLoaded st' = true
    /\ currentPageNum st' = default 1%nat (pageToLoad doc).
Proof.
  intros Hsave Hload. unfold saveAndReload. rewrite Hsave.
  destruct (loadPdf_success pdfBytes (pageToLoad doc)
              (set_pdfLibDoc (Some doc) st) pdf pdfLib Hload)
    as (st' & -> & Hfresh & Hpdf & _ & Hpage & _).
  eexists. split; [reflexivity |].
  destruct Hfresh as (? & ? & ? & ? & ? & ? & ?).
  unfold isPdfLoaded. cbn. rewrite Hpdf. by repeat split.
Qed.

Lemma confirm_accepted (action : AppState -> AppState * list Dialog)
    (st : AppState) :
  confirmAndProceedWithOrganize true action st
  = (fst (action st), asked st ++ snd (action st)).
Proof.
  unfold confirmAndProceedWithOrganize, asked, hasAnnotations.
  destruct (existsb _ _); by destruct (action st).
Qed.

(** X14.  A page-structure operation that is let through (confirmed where
    it asks) on a loaded document.  If the library call, the save and the
    reload succeed, the editor starts afresh on the reloaded document:
    every annotation is gone, both history stacks are empty (the operation
    cannot be undone), nothing is selected and the pages are back in
    document order, whatever the page order was; the page shown is the
    current one after a rotation, min(deleted, page count) after a
    deletion, the copy after a duplication and the first inserted page
    after an insertion.  If the library call raises, the only change is
    the busy flag being cleared, and the user is alerted. *)
Theorem structural_operation_outcomes (st : AppState) (doc : PdfLibDoc) :
  pdfLibDoc st = Some doc ->
  (forall degrees page doc' pdfBytes pdf pdfLib,
     rotatePageBy degrees (Z.of_nat (default (currentPageNum st) page) - 1) doc
     = Some doc' ->
     saveDocument doc' = Some pdfBytes ->
     loadDocuments pdfBytes = Some (pdf, pdfLib) ->
     exists st',
       rotatePage true degrees page st = (st', asked st)
       /\ freshModel (numPages pdf) st'
       /\ currentPageNum st' = currentPageNum st)
  /\ (forall page doc' pdfBytes pdf pdfLib,
        (1 < totalPages st)%nat ->
        removePage (Z.of_nat page - 1) doc = Some doc' ->
        saveDocument doc' = Some pdfBytes ->
        loadDocuments pdfBytes = Some (pdf, pdfLib) ->
        exists st',
          deletePage true page st = (st', asked st)
          /\ freshModel (numPages pdf) st'
          /\ currentPageNum st' = Nat.min page (getPageCount doc'))
  /\ (forall page doc' pdfBytes pdf pdfLib,
        copyAndInsertPage (Z.of_nat page - 1) doc = Some doc' ->
        saveDocument doc' = Some pdfBytes ->
        loadDocuments pdfBytes = Some (pdf, pdfLib) ->
        exists st',
          duplicatePage true page st = (st', asked st)
          /\ freshModel (numPages pdf) st'
          /\ currentPageNum st' = S page)
  /\ (forall buffer index doc' pdfBytes pdf pdfLib,
        insertPagesOf buffer index doc = Some doc' ->
        saveDocument doc' = Some pdfBytes ->
        loadDocuments pdfBytes = Some (pdf, pdfLib) ->
        exists st',
          processAndInsertPdf true buffer index st = (st', asked st)
          /\ freshModel (numPages pdf) st'
          /\ currentPageNum st' = S index)
  /\ (forall degrees page,
        rotatePageBy degrees (Z.of_nat (default (currentPageNum st) page) - 1)
          doc = None ->
        rotatePage true degrees page st
        = (set_isSaving false st, asked st ++ [AlertRotateFailed]))
  /\ (forall page,
        (1 < totalPages st)%nat ->
        removePage (Z.of_nat page - 1) doc = None ->
        deletePage true page st
        = (set_isSaving false st, asked st ++ [AlertDeleteFailed]))
  /\ (forall page,
        copyAndInsertPage (Z.of_nat page - 1) doc = None ->
        duplicatePage true page st
        = (set_isSaving false st, asked st ++ [AlertDuplicateFailed]))
  /\ (forall buffer index,
        insertPagesOf buffer index doc = None ->
        processAndInsertPdf true buffer index st
        = (set_isSaving false st, asked st ++ [AlertInsertFailed])).
Proof.
  intros Hdoc.
  assert (Hmany : (1 < totalPages st)%nat -> (totalPages st <=? 1)%nat = false)
    by (intros; apply Nat.leb_gt; lia).
  repeat split.
  - intros degrees page doc' pdfBytes pdf pdfLib Hop Hsave Hload.
    unfold rotatePage. rewrite confirm_accepted, Hdoc, Hop.
    destruct (saveAndReload_success doc' (fun _ => Some (currentPageNum st))
                AlertRotateFailed st pdfBytes pdf pdfLib Hsave Hload)
      as (st' & -> & Hfresh & _ & Hpage).
    exists st'. cbn [fst snd]. by rewrite app_nil_r.
  - intros page doc' pdfBytes pdf pdfLib Htotal Hop Hsave Hload.
    unfold deletePage. rewrite Hmany by done.
    rewrite confirm_accepted, Hdoc, Hop.
    destruct (saveAndReload_success doc'
                (fun doc' => Some (Nat.min page (getPageCount doc')))
                AlertDeleteFailed st pdfBytes pdf pdfLib Hsave Hload)
      as (st' & -> & Hfresh & _ & Hpage).
    exists st'. cbn [fst snd]. by rewrite app_nil_r.
  - intros page doc' pdfBytes pdf pdfLib Hop Hsave Hload.
    unfold duplicatePage. rewrite confirm_accepted, Hdoc, Hop.
    destruct (saveAndReload_success doc'
                (fun _ => Some (Z.to_nat (Z.of_nat page - 1 + 2)))
                AlertDuplicateFailed st pdfBytes pdf pdfLib Hsave Hload)
      as (st' & -> & Hfresh & _ & Hpage).
    exists st'. cbn [fst snd]. rewrite app_nil_r.
    split; [done |]. split; [done |]. rewrite Hpage. cbn. lia.
  - intros buffer index doc' pdfBytes pdf pdfLib Hop Hsave Hload.
    unfold processAndInsertPdf. rewrite confirm_accepted, Hdoc, Hop.
    destruct (saveAndReload_success doc' (fun _ => Some (index + 1)%nat)
                AlertInsertFailed st pdfBytes pdf pdfLib Hsave Hload)
      as (st' & -> & Hfresh & _ & Hpage).
    exists st'. cbn [fst snd]. rewrite app_nil_r.
    split; [done |]. split; [done |]. rewrite Hpage. cbn. lia.
  - intros degrees page Hop. unfold rotatePage.
    by rewrite confirm_accepted, Hdoc, Hop.
  - intros page Htotal Hop. unfold deletePage. rewrite Hmany by done.
    by rewrite confirm_accepted, Hdoc, Hop.
  - intros page Hop. unfold duplicatePage.
    by rewrite confirm_accepted, Hdoc, Hop.
  - intros buffer index Hop. unfold processAndInsertPdf.
    by rewrite confirm_accepted, Hdoc, Hop.
Qed.

(** ** Undo after a reorder *)

(** X15.  Reordering is not recorded in the history, and the snapshots are
    kept by position.  So an undo after a page has been moved installs the
    snapshot as it was taken: each position of the new page order receives
    the list that position had before the move, which is the list of
    another page wherever the move shifted the pages; and the redo that
    follows brings back the reordered model. *)
Theorem undo_after_reorder_keeps_positions (dragIndex dropIndex : nat)
    (st st' : AppState) (stack : list Annotations) (snapshot : Annotations) :
  reorderPages dragIndex dropIndex st = Some st' ->
  undoStack st = stack ++ [snapshot] ->
  undoStack st' = undoStack st
  /\ redoStack st' = redoStack st
  /\ annotations (undo st') = snapshot
  /\ pageOrder (undo st') = pageOrder st'
  /\ annotations (redo (undo st')) = annotations st'
  /\ pageOrder (redo (undo st')) = pageOrder st'.
Proof.
  intros Hreorder Hstack.
  assert (Hu : undoStack st' = undoStack st /\ redoStack st' = redoStack st).
  { destruct (reorderPages_inv _ _ _ _ Hreorder)
      as [-> | (? & ? & ? & _ & _ & ->)]; done. }
  destruct Hu as [Hu Hr]. split; [done |]. split; [done |].
  unfold undo. rewrite Hu, Hstack, last_snoc. cbn.
  split; [done |]. split; [done |].
  unfold redo. cbn. rewrite last_snoc. by cbn.
Qed.

(** ** Restyling *)

(** X16.  Changing a text setting from the toolbar.  The setting is
    stored.  A text of the current page that is selected is replaced by
    the text with the same corner and content in the whole of the new
    settings, its box being the one [measureText] gives for the content
    in the new settings, divided by the zoom times the pixel ratio.
    Every other annotation is kept as it is, and every page keeps the
    length of its list.  The page order, the selection and both history
    stacks are untouched: a restyle is not recorded in the history. *)
Theorem restyling_is_not_recorded (change : TextSettingChange)
    (st : AppState) :
  let st' := updateTextSetting change st in
  let settings := changeSetting change (textSettings st) in
  let totalScale := (scale st * devicePixelRatio)%Q in
  textSettings st' = settings
  /\ undoStack st' = undoStack st
  /\ redoStack st' = redoStack st
  /\ pageOrder st' = pageOrder st
  /\ selectedAnnotationIndex st' = selectedAnnotationIndex st
  /\ (forall p j t,
        pageIndexOf st = Some p ->
        selectedAnnotationIndex st = Z.of_nat j ->
        annotationAt p j st = Some (AText t) ->
        annotationAt p j st'
        = Some (AText (mkText (t_x t) (t_y t) (t_text t) (ts_size settings)
                         (ts_color settings) (ts_font settings)
                         (ts_bold settings)
                         (fst (measureText (t_text t) settings st)
                          / totalScale)
                         (snd (measureText (t_text t) settings st)
                          / totalScale))))
  /\ (forall p j ann,
        annotationAt p j st = Some ann ->
        ~ (pageIndexOf st = Some p
           /\ selectedAnnotationIndex st = Z.of_nat j
           /\ exists t, ann = AText t) ->
        annotationAt p j st' = Some ann)
  /\ (forall p l, annotations st !! p = Some l ->
        exists l', annotations st' !! p = Some l' /\ length l' = length l).
Proof.
  unfold updateTextSetting.
  set (settings := changeSetting change (textSettings st)).
  set (st1 := set_textSettings settings st).
  change (pageIndexOf st1) with (pageIndexOf st).
  change (selectedAnnotationIndex st1) with (selectedAnnotationIndex st).
  change (annotations st1) with (annotations st).
  change (textSettings st1) with settings.
  change (scale st1) with (scale st).
  assert (Hkept : forall p l, annotations st !! p = Some l ->
    exists l', annotations st !! p = Some l' /\ length l' = length l)
    by (intros p l Hl; by exists l).
  destruct (pageIndexOf st) as [pageIndex |] eqn:Hpage; [| by repeat split].
  destruct (selectedAnnotationIndex st =? -1)%Z eqn:Hnone.
  { apply Z.eqb_eq in Hnone. repeat split; try done.
    intros p j t _ Hsel. lia. }
  unfold annotationAt.
  destruct (annotations st !! pageIndex) as [pageAnns |] eqn:Hanns.
  2: { repeat split; try done.
       intros p j t [= <-] _. by rewrite Hanns. }
  destruct (lookupZ (selectedAnnotationIndex st) pageAnns)
    as [ann |] eqn:Hann.
  2: { repeat split; try done.
       intros p j t [= <-] Hsel. rewrite Hanns. cbn.
       rewrite Hsel, lookupZ_of_nat in Hann. by rewrite Hann. }
  apply lookupZ_Some in Hann as [Hrange Hann].
  assert (Hother : (forall t', ann <> AText t') ->
    forall p j t, Some pageIndex = Some p ->
      selectedAnnotationIndex st = Z.of_nat j ->
      annotations st !! p ≫= (.!! j) = Some (AText t) -> False).
  { intros Hne p j t [= <-] Hsel. rewrite Hanns. cbn.
    rewrite Hsel, Nat2Z.id in Hann. rewrite Hann. intros [= ->].
    by eapply Hne. }
  destruct ann as [t | d | i].
  2, 3: repeat split; try done;
    intros p j t' Hp Hsel Hat; exfalso; by eapply (Hother ltac:(done)).
  change (measureText (t_text t) settings st1)
    with (measureText (t_text t) settings st).
  destruct (measureText (t_text t) settings st) as [width height] eqn:Hm.
  cbn [annotations set_annotations textSettings undoStack redoStack pageOrder
       selectedAnnotationIndex set_textSettings].
  repeat split; try done.
  - intros p j t' [= <-] Hsel. rewrite Hanns. cbn.
    rewrite Hsel, Nat2Z.id in Hann |- *. rewrite Hann. intros [= <-].
    rewrite list_lookup_insert_eq by by eapply lookup_lt_Some. cbn.
    rewrite list_lookup_insert_eq by by eapply lookup_lt_Some.
    by rewrite Hm.
  - intros p j ann Hat Hnot.
    destruct (decide (p = pageIndex)) as [-> | Hp].
    + rewrite list_lookup_insert_eq by by eapply lookup_lt_Some.
      rewrite Hanns in Hat. cbn in Hat |- *.
      destruct (decide (j = Z.to_nat (selectedAnnotationIndex st)))
        as [-> | Hj].
      * exfalso. apply Hnot. split; [done |]. split; [lia |].
        exists t. congruence.
      * by rewrite list_lookup_insert_ne.
    + by rewrite list_lookup_insert_ne.
  - intros p l Hl.
    destruct (decide (p = pageIndex)) as [-> | Hp].
    + rewrite list_lookup_insert_eq by by eapply lookup_lt_Some.
      eexists. split; [reflexivity |]. rewrite length_insert. congruence.
    + rewrite list_lookup_insert_ne by done. by exists l.
Qed.

End SessionProperties.

(** * The signature pad *)

Section SignatureProperties.

Import Signature.

Lemma undoSignature_pops (stack : list (list Stroke)) (top : list Stroke)
    (pad : Pad) :
  signatureUndoStack pad = stack ++ [top] ->
  undoSignature pad
  = mkPad (isSignatureModalOpen pad) top (signaturePadCurrentPath pad)
      (isSigning pad) (signatureColor pad) stack
      (signatureRedoStack pad ++ [signaturePadPaths pad]).
Proof.
  intros Hstack. unfold undoSignature, canUndoSignature, JS.slice_init.
  rewrite Hstack, last_snoc, length_app, Nat.add_sub, take_app_length.
  by replace (0 <? length stack + length [top])%nat with true
    by (symmetry; apply Nat.ltb_lt; cbn; lia).
Qed.

Lemma redoSignature_pops (stack : list (list Stroke)) (top : list Stroke)
    (pad : Pad) :
  signatureRedoStack pad = stack ++ [top] ->
  redoSignature pad
  = mkPad (isSignatureModalOpen pad) top (signaturePadCurrentPath pad)
      (isSigning pad) (signatureColor pad)
      (signatureUndoStack pad ++ [signaturePadPaths pad]) stack.
Proof.
  intros Hstack. unfold redoSignature, canRedoSignature, JS.slice_init.
  rewrite Hstack, last_snoc, length_app, Nat.add_sub, take_app_length.
  by replace (0 <? length stack + length [top])%nat with true
    by (symmetry; apply Nat.ltb_lt; cbn; lia).
Qed.

Lemma snoc_of_nonempty {A} (l : list A) :
  l <> [] -> exists init top, l = init ++ [top].
Proof.
  intros Hl. destruct (last l) as [top |] eqn:Hlast.
  - apply last_Some in Hlast as [init ->]. by eexists _, _.
  - apply last_None in Hlast. done.
Qed.

Lemma redoSignature_undoSignature (pad : Pad) :
  signatureUndoStack pad <> [] -> redoSignature (undoSignature pad) = pad.
Proof.
  intros [stack [top Hstack]]%snoc_of_nonempty.
  rewrite (undoSignature_pops stack top pad Hstack).
  erewrite redoSignature_pops by reflexivity. cbn. rewrite <- Hstack.
  by destruct pad.
Qed.

Lemma undoSignature_redoSignature (pad : Pad) :
  signatureRedoStack pad <> [] -> undoSignature (redoSignature pad) = pad.
Proof.
  intros [stack [top Hstack]]%snoc_of_nonempty.
  rewrite (redoSignature_pops stack top pad Hstack).
  erewrite undoSignature_pops by reflexivity. cbn. rewrite <- Hstack.
  by destruct pad.
Qed.

Lemma undoSignature_length (k : nat) (pad : Pad) :
  (k <= length (signatureUndoStack pad))%nat ->
  length (signatureUndoStack (Nat.iter k undoSignature pad))
  = (length (signatureUndoStack pad) - k)%nat.
Proof.
  induction k as [| k IH]; intros Hk; [cbn; lia | rewrite Nat.iter_succ].
  specialize (IH ltac:(lia)).
  destruct (snoc_of_nonempty
              (signatureUndoStack (Nat.iter k undoSignature pad)))
    as (stack & top & Hstack).
  { intros Hnil. rewrite Hnil in IH. cbn in IH. lia. }
  rewrite (undoSignature_pops stack top _ Hstack). cbn.
  rewrite Hstack, length_app in IH. cbn in IH. lia.
Qed.

Lemma redoSignature_length (k : nat) (pad : Pad) :
  (k <= length (signatureRedoStack pad))%nat ->
  length (signatureRedoStack (Nat.iter k redoSignature pad))
  = (length (signatureRedoStack pad) - k)%nat.
Proof.
  induction k as [| k IH]; intros Hk; [cbn; lia | rewrite Nat.iter_succ].
  specialize (IH ltac:(lia)).
  destruct (snoc_of_nonempty
              (signatureRedoStack (Nat.iter k redoSignature pad)))
    as (stack & top & Hstack).
  { intros Hnil. rewrite Hnil in IH. cbn in IH. lia. }
  rewrite (redoSignature_pops stack top _ Hstack). cbn.
  rewrite Hstack, length_app in IH. cbn in IH. lia.
Qed.

(** X17.  The signature pad's own history.  As many undos as there are
    recorded states, or fewer, followed by as many redos, give back the
    pad exactly as it was, and so do redos followed by as many undos.  An
    undo with nothing to undo and a redo with nothing to redo change
    nothing. *)
Theorem signature_undo_redo_round_trip (k : nat) (pad : Pad) :
  ((k <= length (signatureUndoStack pad))%nat ->
   Nat.iter k redoSignature (Nat.iter k undoSignature pad) = pad)
  /\ ((k <= length (signatureRedoStack pad))%nat ->
      Nat.iter k undoSignature (Nat.iter k redoSignature pad) = pad)
  /\ (signatureUndoStack pad = [] -> undoSignature pad = pad)
  /\ (signatureRedoStack pad = [] -> redoSignature pad = pad).
Proof.
  split; [| split; [| split]].
  - induction k as [| k IH]; intros Hk; [done |].
    rewrite Nat.iter_succ_r, Nat.iter_succ.
    rewrite redoSignature_undoSignature; [apply IH; lia |].
    intros Hnil. pose proof (undoSignature_length k pad ltac:(lia)) as Hlen.
    rewrite Hnil in Hlen. cbn in Hlen. lia.
  - induction k as [| k IH]; intros Hk; [done |].
    rewrite Nat.iter_succ_r, Nat.iter_succ.
    rewrite undoSignature_redoSignature; [apply IH; lia |].
    intros Hnil. pose proof (redoSignature_length k pad ltac:(lia)) as Hlen.
    rewrite Hnil in Hlen. cbn in Hlen. lia.
  - intros Hnil. unfold undoSignature, canUndoSignature. by rewrite Hnil.
  - intros Hnil. unfold redoSignature, canRedoSignature. by rewrite Hnil.
Qed.

Lemma moves_keep_signing (moves : list Point) (pad : Pad) :
  isSigning pad = true ->
  foldl (fun pad pos => onSignatureMouseMove (Some pos) pad) pad moves
  = mkPad (isSignatureModalOpen pad) (signaturePadPaths pad)
      (signaturePadCurrentPath pad ++ moves) true (signatureColor pad)
      (signatureUndoStack pad) (signatureRedoStack pad).
Proof.
  revert pad. induction moves as [| pos moves IH]; intros pad Hsigning.
  - cbn. rewrite app_nil_r, <- Hsigning. by destruct pad.
  - cbn [foldl]. rewrite IH.
    + unfold onSignatureMouseMove. rewrite Hsigning. cbn.
      by rewrite <- app_assoc.
    + unfold onSignatureMouseMove. by rewrite Hsigning.
Qed.

(** X18.  Drawing and clearing on the signature pad.  A stroke of two
    points or more is appended to the strokes in the current colour, the
    strokes as they were are pushed on the pad's undo stack and its redo
    stack is emptied, so that an undo removes the stroke again.  A press
    released without a move records nothing.  Clearing removes every
    stroke and empties the redo stack; it is recorded only when there was
    a stroke to clear, and an undo then brings the strokes back. *)
Theorem signature_strokes_and_clearing (start : Point) (moves : list Point)
    (pad : Pad) :
  (moves <> [] ->
   let pad' := drawStroke start moves pad in
   signaturePadPaths pad'
   = signaturePadPaths pad ++ [mkStroke (start :: moves) (signatureColor pad)]
   /\ signatureUndoStack pad' = signatureUndoStack pad ++ [signaturePadPaths pad]
   /\ signatureRedoStack pad' = []
   /\ isSigning pad' = false
   /\ signaturePadPaths (undoSignature pad') = signaturePadPaths pad
   /\ signatureUndoStack (undoSignature pad') = signatureUndoStack pad)
  /\ (let pad' := drawStroke start [] pad in
      signaturePadPaths pad' = signaturePadPaths pad
      /\ signatureUndoStack pad' = signatureUndoStack pad
      /\ signatureRedoStack pad' = signatureRedoStack pad
      /\ isSigning pad' = false)
  /\ (signaturePadPaths (clearSignature pad) = []
      /\ signatureRedoStack (clearSignature pad) = [])
  /\ (signaturePadPaths pad = [] ->
      signatureUndoStack (clearSignature pad) = signatureUndoStack pad)
  /\ (signaturePadPaths pad <> [] ->
      signaturePadPaths (undoSignature (clearSignature pad))
      = signaturePadPaths pad
      /\ signatureUndoStack (undoSignature (clearSignature pad))
         = signatureUndoStack pad).
Proof.
  split; [| split; [| split; [| split]]].
  - intros Hmoves pad'.
    assert (Hpad' : pad'
      = mkPad (isSignatureModalOpen pad)
          (signaturePadPaths pad
           ++ [mkStroke (start :: moves) (signatureColor pad)])
          [] false (signatureColor pad)
          (signatureUndoStack pad ++ [signaturePadPaths pad]) []).
    { unfold pad', drawStroke. rewrite moves_keep_signing by done.
      unfold onSignatureMouseUp. cbn.
      destruct moves as [| pos moves]; [done |]. done. }
    rewrite Hpad'. cbn. repeat split.
    all: by erewrite undoSignature_pops by reflexivity.
  - by repeat split.
  - by split.
  - intros Hempty. unfold clearSignature. by rewrite Hempty.
  - intros Hpaths.
    assert (Hclear : signatureUndoStack (clearSignature pad)
                     = signatureUndoStack pad ++ [signaturePadPaths pad]).
    { unfold clearSignature. cbn.
      by destruct (signaturePadPaths pad). }
    by rewrite (undoSignature_pops _ _ _ Hclear).
Qed.

End SignatureProperties.

(** * The box of the ink *)

Section BoundsProperties.

Import Signature.

Lemma sumsUp_ext (bitmap : Bitmap) (seen seen' : nat -> nat -> Prop)
    (acc : Scan) :
  (forall x y, seen x y <-> seen' x y) ->
  sumsUp bitmap seen acc -> sumsUp bitmap seen' acc.
Proof.
  intros Hext. unfold sumsUp. destruct (foundPixel acc).
  - intros (Hbound & (y1 & ? & ?) & (y2 & ? & ?) & (x1 & ? & ?) & (x2 & ? & ?)).
    split; [intros x y Hxy; apply Hbound; by apply Hext |].
    split; [exists y1; split; [by apply Hext | done] |].
    split; [exists y2; split; [by apply Hext | done] |].
    split; [exists x1; split; [by apply Hext | done] |].
    exists x2. split; [by apply Hext | done].
  - intros [Hnone ->]. split; [| done].
    intros x y Hxy. apply Hnone. by apply Hext.
Qed.

Lemma sumsUp_scanPixel (bitmap : Bitmap) (seen : nat -> nat -> Prop)
    (acc : Scan) (x y : nat) :
  (x < b_w bitmap)%nat -> (y < b_h bitmap)%nat ->
  sumsUp bitmap seen acc ->
  sumsUp bitmap (fun a b => seen a b \/ (a = x /\ b = y))
    (scanPixel bitmap y acc x).
Proof.
  intros Hx Hy. unfold sumsUp, scanPixel.
  destruct (inked bitmap x y) eqn:Hink; cbn [foundPixel minX minY maxX maxY].
  - destruct (foundPixel acc).
    + intros (Hbound & (y1 & ? & ?) & (y2 & ? & ?) & (x1 & ? & ?) & (x2 & ? & ?)).
      split.
      { intros a b [Hab | [-> ->]] Hinked; [| lia].
        destruct (Hbound a b Hab Hinked). lia. }
      split.
      { destruct (Nat.min_spec (minX acc) x) as [[_ ->] | [_ ->]];
          [exists y1 | exists y]; auto. }
      split.
      { destruct (Nat.max_spec (maxX acc) x) as [[_ ->] | [_ ->]];
          [exists y | exists y2]; auto. }
      split.
      { destruct (Nat.min_spec (minY acc) y) as [[_ ->] | [_ ->]];
          [exists x1 | exists x]; auto. }
      destruct (Nat.max_spec (maxY acc) y) as [[_ ->] | [_ ->]];
        [exists x | exists x2]; auto.
    + intros [Hnone ->]. cbn [minX minY maxX maxY].
      rewrite (Nat.min_r _ x), (Nat.min_r _ y) by lia. cbn [Nat.max].
      split.
      { intros a b [Hab | [-> ->]] Hinked; [| lia].
        rewrite (Hnone a b Hab) in Hinked. done. }
      split; [exists y; auto |]. split; [exists y; auto |].
      split; [exists x; auto |]. exists x; auto.
  - destruct (foundPixel acc).
    + intros (Hbound & (y1 & ? & ?) & (y2 & ? & ?) & (x1 & ? & ?) & (x2 & ? & ?)).
      split.
      { intros a b [Hab | [-> ->]] Hinked; [by apply Hbound | congruence]. }
      split; [exists y1; auto |]. split; [exists y2; auto |].
      split; [exists x1; auto |]. exists x2; auto.
    + intros [Hnone ->]. split; [| done].
      intros a b [Hab | [-> ->]]; [by apply Hnone | done].
Qed.

Lemma sumsUp_scanRow (bitmap : Bitmap) (seen : nat -> nat -> Prop)
    (acc : Scan) (y k : nat) :
  (y < b_h bitmap)%nat -> (k <= b_w bitmap)%nat ->
  sumsUp bitmap seen acc ->
  sumsUp bitmap (fun a b => seen a b \/ (a < k)%nat /\ b = y)
    (foldl (scanPixel bitmap y) acc (seq 0 k)).
Proof.
  intros Hy Hk Hacc. induction k as [| k IH].
  - cbn. eapply sumsUp_ext; [| exact Hacc]. intros a b. split; [auto |].
    intros [? | [? _]]; [done | lia].
  - rewrite seq_S, foldl_app. cbn [foldl Nat.add].
    pose proof (sumsUp_scanPixel bitmap _ _ k y ltac:(lia) Hy (IH ltac:(lia)))
      as Hstep.
    eapply sumsUp_ext; [| exact Hstep].
    intros a b. cbn. split.
    + intros [[? | [? ?]] | [-> ->]]; [by left | right; split; [lia | done] |].
      right. split; [lia | done].
    + intros [? | [Ha ->]]; [by left; left |].
      destruct (decide (a = k)) as [-> | Hne]; [by right |].
      left. right. split; [lia | done].
Qed.

Lemma sumsUp_scanRows (bitmap : Bitmap) (k : nat) :
  (k <= b_h bitmap)%nat ->
  sumsUp bitmap (fun a b => (a < b_w bitmap)%nat /\ (b < k)%nat)
    (foldl (scanRow bitmap) (mkScan (b_w bitmap) (b_h bitmap) 0 0 false)
       (seq 0 k)).
Proof.
  induction k as [| k IH]; intros Hk.
  - cbn. split; [| done]. intros x y [_ ?]. lia.
  - rewrite seq_S, foldl_app. cbn [foldl Nat.add]. unfold scanRow at 1.
    pose proof (sumsUp_scanRow bitmap _ _ k (b_w bitmap) ltac:(lia)
                  (le_n _) (IH ltac:(lia))) as Hstep.
    eapply sumsUp_ext; [| exact Hstep].
    intros a b. cbn. split.
    + intros [[? ?] | [? ->]]; split; (done || lia).
    + intros [Ha Hb]. destruct (decide (b = k)) as [-> | Hne];
        [by right | left; split; [done | lia]].
Qed.

(** X19.  The bounding box of a signature.  [getSignatureBounds] answers
    [null] exactly when no pixel of the canvas has a positive alpha.
    Otherwise every inked pixel lies between column [x] and column
    [x + width] and between row [y] and row [y + height], both included,
    and each of these four lines of the canvas holds an inked pixel: the
    box is the smallest one, and its last inked column and row are
    [x + width] and [y + height]. *)
Theorem getSignatureBounds_is_the_ink_box (bitmap : Bitmap) :
  match getSignatureBounds bitmap with
  | None =>
      forall x y, (x < b_w bitmap)%nat -> (y < b_h bitmap)%nat ->
        inked bitmap x y = false
  | Some bounds =>
      (forall x y, (x < b_w bitmap)%nat -> (y < b_h bitmap)%nat ->
         inked bitmap x y = true ->
         (bd_x bounds <= x <= bd_x bounds + bd_width bounds)%nat
         /\ (bd_y bounds <= y <= bd_y bounds + bd_height bounds)%nat)
      /\ (exists y, (y < b_h bitmap)%nat
                    /\ inked bitmap (bd_x bounds) y = true)
      /\ (exists y, (y < b_h bitmap)%nat
                    /\ inked bitmap (bd_x bounds + bd_width bounds) y = true)
      /\ (exists x, (x < b_w bitmap)%nat
                    /\ inked bitmap x (bd_y bounds) = true)
      /\ (exists x, (x < b_w bitmap)%nat
                    /\ inked bitmap x (bd_y bounds + bd_height bounds) = true)
      /\ (bd_x bounds + bd_width bounds < b_w bitmap)%nat
      /\ (bd_y bounds + bd_height bounds < b_h bitmap)%nat
  end.
Proof.
  pose proof (sumsUp_scanRows bitmap (b_h bitmap) (le_n _)) as Hsum.
  unfold getSignatureBounds, scanBitmap. unfold sumsUp in Hsum.
  set (acc := foldl (scanRow bitmap) _ _) in *.
  destruct (foundPixel acc); cbn [negb].
  - destruct Hsum as (Hbound & (y1 & [Hx1 Hy1] & Hi1) & (y2 & [Hx2 Hy2] & Hi2)
                      & (x1 & [Hx3 Hy3] & Hi3) & (x2 & [Hx4 Hy4] & Hi4)).
    cbn [bd_x bd_y bd_width bd_height].
    destruct (Hbound _ _ (conj Hx1 Hy1) Hi1) as [Hmx _].
    destruct (Hbound _ _ (conj Hx3 Hy3) Hi3) as [_ Hmy].
    replace (minX acc + (maxX acc - minX acc))%nat with (maxX acc) by lia.
    replace (minY acc + (maxY acc - minY acc))%nat with (maxY acc) by lia.
    split; [intros x y Hx Hy; by apply Hbound |].
    split; [by exists y1 |]. split; [by exists y2 |].
    split; [by exists x1 |]. split; [by exists x2 |]. done.
  - destruct Hsum as [Hnone _]. intros x y Hx Hy. by apply Hnone.
Qed.

End BoundsProperties.

(** * Colours *)

Section ColourProperties.

Import Colour.

Lemma hexDigit_range (c : N) (v : Z) :
  hexDigit c = Some v -> (0 <= v <= 15)%Z.
Proof.
  unfold hexDigit.
  destruct (N.leb_spec 48 c), (N.leb_spec c 57), (N.leb_spec 97 c),
    (N.leb_spec c 102), (N.leb_spec 65 c), (N.leb_spec c 70); cbn [andb];
    intros [= <-]; lia.
Qed.

Lemma hexPair_range (high low : N) (v : Z) :
  hexPair high low = Some v -> (0 <= v <= 255)%Z.
Proof.
  unfold hexPair.
  destruct (hexDigit high) as [h |] eqn:Hh; [| done].
  destruct (hexDigit low) as [l |] eqn:Hl; [| done].
  cbn. intros [= <-].
  apply hexDigit_range in Hh, Hl. lia.
Qed.

Lemma swapCase_high (c : N) : (123 <= c)%N -> swapCase c = c.
Proof.
  intros Hc. unfold swapCase.
  replace (c <=? 122)%N with false by (symmetry; apply N.leb_gt; lia).
  replace (c <=? 90)%N with false by (symmetry; apply N.leb_gt; lia).
  by rewrite !andb_false_r.
Qed.

Lemma swapCase_low (c : N) :
  (c < 123)%N ->
  hexDigit (swapCase c) = hexDigit c /\ (swapCase c =? 35)%N = (c =? 35)%N.
Proof.
  intros Hc.
  assert (Hall :
    forallb (fun n => let c := N.of_nat n in
               bool_decide (hexDigit (swapCase c) = hexDigit c)
               && Bool.eqb (swapCase c =? 35)%N (c =? 35)%N)
      (seq 0 123) = true) by (vm_compute; reflexivity).
  rewrite forallb_forall in Hall.
  assert (Hin : In (N.to_nat c) (seq 0 123)) by (apply in_seq; lia).
  specialize (Hall _ Hin). rewrite N2Nat.id in Hall. cbn zeta in Hall.
  apply andb_prop in Hall as [Hdigit Hsign].
  apply bool_decide_eq_true in Hdigit. apply Bool.eqb_prop in Hsign.
  by split.
Qed.

Lemma sameLetter_hexDigit (c c' : N) :
  sameLetter c c' ->
  hexDigit c' = hexDigit c /\ (c' =? 35)%N = (c =? 35)%N.
Proof.
  intros [-> | ->]; [done |].
  destruct (N.lt_ge_cases c 123) as [Hlow | Hhigh];
    [by apply swapCase_low | by rewrite swapCase_high].
Qed.

Lemma unit_interval (v : Z) :
  (0 <= v <= 255)%Z -> (0 <= inject_Z v / 255 <= 1)%Q.
Proof.
  intros [Hlow Hhigh]. rewrite Zle_Qle in Hlow, Hhigh. split.
  - apply Qle_shift_div_l; [done |]. by rewrite Qmult_0_l.
  - apply Qle_shift_div_r; [done |]. by rewrite Qmult_1_l.
Qed.

(** X20.  [hexToRgb] always answers a colour: each component lies between
    0 and 1.  The answer does not depend on the case of the letters, nor
    on a leading number sign.  A string of fewer than six or more than
    seven code units (a three-digit shorthand, a colour name) is read as
    black, as is any string that the pattern does not match. *)
Theorem hexToRgb_is_a_colour (hex : JS.jsstring) :
  ((0 <= rgb_r (hexToRgb hex) <= 1)%Q
   /\ (0 <= rgb_g (hexToRgb hex) <= 1)%Q
   /\ (0 <= rgb_b (hexToRgb hex) <= 1)%Q)
  /\ (forall hex', Forall2 sameLetter hex hex' -> hexToRgb hex' = hexToRgb hex)
  /\ (head hex <> Some 35%N -> hexToRgb (35%N :: hex) = hexToRgb hex)
  /\ ((length hex < 6)%nat \/ (7 < length hex)%nat ->
      hexToRgb hex = mkRgb 0 0 0)
  /\ (execHex hex = None -> hexToRgb hex = mkRgb 0 0 0).
Proof.
  split; [| split; [| split; [| split]]].
  - unfold hexToRgb, execHex.
    destruct (match hex with
              | [] => hex
              | c :: rest => if (c =? 35)%N then rest else hex
              end) as [| r1 [| r2 [| g1 [| g2 [| b1 [| b2 [| ? ?]]]]]]];
      try (cbn; repeat split; done).
    destruct (hexPair r1 r2) as [r |] eqn:Hr; [| cbn; repeat split; done].
    destruct (hexPair g1 g2) as [g |] eqn:Hg; [| cbn; repeat split; done].
    destruct (hexPair b1 b2) as [b |] eqn:Hb; [| cbn; repeat split; done].
    cbn. apply hexPair_range in Hr, Hg, Hb.
    split; [| split]; by apply unit_interval.
  - assert (Hdigits : forall l l', Forall2 sameLetter l l' ->
      match l' with
      | [r1; r2; g1; g2; b1; b2] =>
          r ← hexPair r1 r2; g ← hexPair g1 g2; b ← hexPair b1 b2;
          Some (r, g, b)
      | _ => None
      end
      = match l with
        | [r1; r2; g1; g2; b1; b2] =>
            r ← hexPair r1 r2; g ← hexPair g1 g2; b ← hexPair b1 b2;
            Some (r, g, b)
        | _ => None
        end).
    { intros l l' Hl.
      do 6 (destruct Hl as [| ? ? ? ? [? _]%sameLetter_hexDigit Hl]; [done |]).
      destruct Hl; [| done]. unfold hexPair.
      repeat match goal with
             | H : hexDigit _ = hexDigit _ |- _ => rewrite H; clear H
             end.
      reflexivity. }
    intros hex' Hsame. unfold hexToRgb, execHex.
    destruct Hsame as [| c c' rest rest' Hc Hrest]; [done |].
    pose proof (sameLetter_hexDigit _ _ Hc) as [_ ->].
    destruct (c =? 35)%N; [by rewrite (Hdigits _ _ Hrest) |].
    by rewrite (Hdigits (c :: rest) (c' :: rest')
                  ltac:(by constructor)).
  - intros Hhead. unfold hexToRgb, execHex. cbn [N.eqb Pos.eqb].
    destruct hex as [| c rest]; [done |].
    destruct (N.eqb_spec c 35) as [-> | _]; [done |]. done.
  - intros Hlen. unfold hexToRgb, execHex.
    destruct hex as [| c rest]; [done |].
    destruct (c =? 35)%N;
      [destruct rest as [| r1 [| r2 [| g1 [| g2 [| b1 [| b2 [| ? ?]]]]]]]
      | destruct rest as [| r2 [| g1 [| g2 [| b1 [| b2 [| ? ?]]]]]]];
      try done; cbn in Hlen; lia.
  - intros Hnone. unfold hexToRgb. by rewrite Hnone.
Qed.

End ColourProperties.

(** * Page numbers *)

Section PageNumberProperties.

Import PageNumbers.

Local Open Scope Q_scope.

Ltac eval_includes :=
  repeat match goal with
         | |- context [JS.includes ?a ?b] =>
             let v := eval vm_compute in (JS.includes a b) in
             change (JS.includes a b) with v
         end.

(** X21.  Page numbers, preview against export.  For visible page numbers
    and a page shown at position [i] of the page order, the preview and
    the export print the same number, [i] plus the start page, at the
    same size (12 points, times the pixels per point in the preview), and
    with its left end at the same place of the page whatever the width of
    the number: the margin from the left edge, centred, or the margin
    from the right edge.  Vertically, the export puts the baseline where
    an em box standing on the baseline would hang from the preview's
    anchor by its top, its middle or its bottom.  Hidden page numbers are
    drawn by neither. *)
Theorem page_number_preview_matches_export (settings : PageNumberSettings)
    (i : nat) (scale pixelRatio width height textWidth : Q) :
  0 < scale -> 0 < pixelRatio ->
  (visible settings = false ->
   previewPageNumber settings i scale pixelRatio (width * scale * pixelRatio)
     (height * scale * pixelRatio) = None
   /\ exportPageNumber settings i width height textWidth = None)
  /\ (visible settings = true ->
      exists shown drawn,
        previewPageNumber settings i scale pixelRatio
          (width * scale * pixelRatio) (height * scale * pixelRatio)
        = Some shown
        /\ exportPageNumber settings i width height textWidth = Some drawn
        /\ ft_number shown = (Z.of_nat i + startPage settings)%Z
        /\ dn_number drawn = ft_number shown
        /\ dn_size drawn = 12
        /\ ft_fontSize shown == dn_size drawn * (scale * pixelRatio)
        /\ canvasLeftEnd (ft_textAlign shown) (ft_x shown)
             (textWidth * (scale * pixelRatio))
           == dn_x drawn * (scale * pixelRatio)
        /\ ft_y shown
           == (height - dn_y drawn
               - hangingHeight (ft_textBaseline shown) (dn_size drawn))
              * (scale * pixelRatio)).
Proof.
  intros Hscale Hratio. split.
  - intros Hhidden. unfold previewPageNumber, exportPageNumber.
    by rewrite Hhidden.
  - intros Hvisible. unfold previewPageNumber, exportPageNumber.
    rewrite Hvisible. cbn [negb].
    destruct settings as [v p m s]. cbn [position margin startPage].
    destruct p; cbn [positionId]; eval_includes; cbv iota;
      (eexists _, _; split; [reflexivity |]; split; [reflexivity |]);
      cbn [ft_number ft_fontSize ft_x ft_y ft_textAlign ft_textBaseline
             dn_number dn_x dn_y dn_size canvasLeftEnd hangingHeight];
      (split; [reflexivity |]); (split; [reflexivity |]);
      (split; [reflexivity |]); (split; [ring |]); split; field.
Qed.

End PageNumberProperties.

(** * The watermark, once more *)

Section WatermarkPlacement.

Import Watermark.

Local Open Scope R_scope.

(** X22.  The watermark, preview against export.  Both turn the text about
    the centre of the page by the same angle as seen on the page: -45
    degrees on the canvas, whose y axis points down, is +45 degrees in
    the PDF, whose y axis points up.  When the two font engines agree on
    where the middle of the text is, the exported watermark is the
    previewed one enlarged 1.5 times about the page centre, at every zoom:
    the preview divides the font size by 1.5, the export does not. *)
Theorem watermark_same_turn_other_size (m : Metrics)
    (width height scale pixelRatio size : R) :
  scale * pixelRatio <> 0 ->
  middle m = ascent m - totalHeight m / 2 ->
  (forall u v,
     canvasToPage scale pixelRatio
       (apply
          (previewTransform (width * scale * pixelRatio)
             (height * scale * pixelRatio))
          (width * scale * pixelRatio / 2 + u * (scale * pixelRatio),
           height * scale * pixelRatio / 2 - v * (scale * pixelRatio)))
     = pdfToPage height (apply (exportTransform width height) (u, v)))
  /\ (forall alpha beta,
        fst (exportPoint m width height size alpha beta) - width / 2
        = 1.5 * (fst (previewPoint m width height scale pixelRatio size
                        alpha beta) - width / 2)
        /\ snd (exportPoint m width height size alpha beta) - height / 2
           = 1.5 * (snd (previewPoint m width height scale pixelRatio size
                           alpha beta) - height / 2)).
Proof.
  intros Hk Hmiddle. split.
  - intros u v. by apply watermark_rotations_agree.
  - intros alpha beta.
    by apply (watermark_export_is_preview_enlarged m width height scale
                pixelRatio size alpha beta Hk Hmiddle).
Qed.

End WatermarkPlacement.

(** * Annotations, preview against export *)

Section PreviewProperties.

Context {library : PdfLib}.

Lemma preview_of_a_stored_annotation (currentScale pdfPageHeight : Q)
    (ann : Annotation) :
  stored ann ->
  exists drawn,
    exportAnnotation pdfPageHeight ann = Some drawn
    /\ agreesWithCall currentScale pdfPageHeight
         (previewAnnotation currentScale ann) drawn.
Proof.
  destruct ann as [t | d | i]; cbn [stored].
  - intros _. eexists. split; [reflexivity |]. cbn.
    split; [by rewrite length_map |].
    intros index line Hline. rewrite list_lookup_fmap, Hline. cbn.
    eexists _, _, _. split; [reflexivity |]. ring.
  - intros Hlen. unfold exportAnnotation, previewAnnotation.
    destruct (d_path d) as [| p0 rest] eqn:Hpath; [cbn in Hlen; lia |].
    replace (1 <? length (p0 :: rest))%nat with true
      by (symmetry; apply Nat.ltb_lt; lia).
    eexists. split; [reflexivity |]. cbn [agreesWithCall].
    eexists _, _, _. split; [reflexivity |]. split; [| reflexivity].
    cbn [map].
    constructor; [exists (pt_x p0), (pt_y p0); by repeat split |].
    rewrite map_map. cbn [svg_point]. clear Hpath Hlen.
    induction rest as [| p rest IH]; [constructor |].
    cbn [map].
    constructor; [exists (pt_x p), (pt_y p); by repeat split | apply IH].
  - intros _. eexists. split; [reflexivity |]. cbn.
    eexists _, _, _, _. split; [reflexivity |].
    split; [split; cbn; ring |]. split; reflexivity.
Qed.

(** X23.  The preview agrees with the calls of the export.  Take a page
    whose annotations are as the handlers store them, and an export of
    the page that pdf-lib lets through.  While no text is being edited,
    the preview agrees, annotation by annotation and at every canvas
    scale (zoom times pixel ratio), with the call the export makes.  An
    image covers the same rectangle of the page.  A text starts at the
    same x, at the same font size and line spacing, its top edge being
    one font size above the exported baseline.  (Canvas coordinates are
    points times the pixels per point, y pointing down; the coordinates
    of [drawImage] and [drawText] have y pointing up from the bottom of
    the page.)  For a stroke, the canvas polyline and the path string
    handed to [drawSvgPath] list the same stored points, the path with
    [pageHeight - y] for y, and the same line width; where pdf-lib paints
    the path is not said.  While a text is edited in place, the preview
    hides the selected annotation and no other. *)
Theorem preview_agrees_with_the_export_calls (currentScale pdfPageHeight : Q)
    (pageAnnotations : list Annotation) (fontCache fontCache' : FontCache)
    (calls : list DrawCall) :
  Forall stored pageAnnotations ->
  savePdfPage pdfPageHeight pageAnnotations fontCache
  = Some (calls, fontCache') ->
  (forall selected,
     Forall2 (agreesWithCall currentScale pdfPageHeight)
       (previewAnnotations currentScale false selected pageAnnotations) calls)
  /\ (forall i j ann,
        pageAnnotations !! j = Some ann ->
        previewAnnotations currentScale true (Z.of_nat i) pageAnnotations !! j
        = Some (if decide (j = i) then []
                else previewAnnotation currentScale ann)).
Proof.
  intros Hstored Hsaved. apply savePdfPage_calls in Hsaved. split.
  - assert (Hmap : exists calls',
      mapM (exportAnnotation pdfPageHeight) pageAnnotations = Some calls'
      /\ Forall2 (agreesWithCall currentScale pdfPageHeight)
           (map (previewAnnotation currentScale) pageAnnotations) calls').
    { clear Hsaved.
      induction Hstored as [| ann rest Hann _ (calls' & Hcalls & Hall)].
      - exists []. split; [done | constructor].
      - destruct (preview_of_a_stored_annotation currentScale pdfPageHeight
                    ann Hann) as (drawn & Hdrawn & Hsame).
        exists (drawn :: calls'). split; [| by constructor].
        cbn. rewrite Hdrawn. cbn. by rewrite Hcalls. }
    destruct Hmap as (calls' & Hcalls & Hall).
    assert (calls' = calls) as -> by congruence.
    intros selected. unfold previewAnnotations. cbn [andb].
    replace (imap (fun (_ : nat) ann => previewAnnotation currentScale ann)
               pageAnnotations)
      with (map (previewAnnotation currentScale) pageAnnotations); [done |].
    apply list_eq. intros i. rewrite list_lookup_imap.
    change (map ?f ?l) with (f <$> l). rewrite list_lookup_fmap.
    by destruct (pageAnnotations !! i).
  - intros i j ann Hj. unfold previewAnnotations.
    rewrite list_lookup_imap, Hj. cbn. f_equal.
    destruct (decide (j = i)) as [-> | Hne].
    + by rewrite Z.eqb_refl.
    + by replace (Z.of_nat i =? Z.of_nat j)%Z with false
        by (symmetry; apply Z.eqb_neq; lia).
Qed.

End PreviewProperties.

(** * Further examples, checked *)

(** The steps of the session. *)

Lemma opened_acts : acts initialState (opened 2).
Proof. apply (acts_open (2%nat : @PdfBytes toy) initialState []). evaluate. Qed.

Lemma pressedForText_acts : acts (opened 2) pressedForText.
Proof.
  apply (acts_down ToolText false (Some (mkPoint 150 90)) (opened 2)
           pressedForText ToolText).
  evaluate.
Qed.

Lemma typed_acts :
  acts (onTextInput (JS.lit " Hi ") pressedForText) typed.
Proof. apply acts_finalize. evaluate. Qed.

Lemma withImage_acts : acts typed withImage.
Proof.
  apply (acts_image (JS.lit "data:image/png;base64,AAAA") 600 300
           (Some (900, 1200)%Q) typed withImage); evaluate.
Qed.

Lemma grabbed_acts : acts withImage grabbed.
Proof.
  apply (acts_down ToolSelect false (Some (mkPoint 450 600)) withImage grabbed
           ToolSelect).
  evaluate.
Qed.

Lemma typed_reachable : reachable typed.
Proof.
  eapply reachable_acts; [| exact typed_acts].
  eapply reachable_acts; [| apply acts_input].
  eapply reachable_acts; [| exact pressedForText_acts].
  eapply reachable_acts; [| exact opened_acts].
  apply reachable_initial.
Qed.

Lemma typed_consistent : consistent typed.
Proof.
  apply (acts_consistent _ _ typed_acts).
  apply (acts_consistent _ _ (acts_input _ _)).
  apply (acts_consistent _ _ pressedForText_acts).
  apply (acts_consistent _ _ opened_acts).
  apply consistent_initialState.
Qed.

Lemma withImage_consistent : consistent withImage.
Proof. exact (acts_consistent _ _ withImage_acts typed_consistent). Qed.

Lemma grabbed_consistent : consistent grabbed.
Proof. exact (acts_consistent _ _ grabbed_acts withImage_consistent). Qed.

Lemma reachable_states_are_consistent_witness :
  reachable grabbed /\ consistent grabbed.
Proof.
  assert (Hreach : reachable grabbed).
  { eapply reachable_acts; [| exact grabbed_acts].
    eapply reachable_acts; [| exact withImage_acts]. exact typed_reachable. }
  split; [exact Hreach |].
  exact (reachable_states_are_consistent grabbed Hreach).
Defined.

Lemma export_raises_only_where_pdf_lib_does_witness :
  consistent withImage
  /\ filledByGetFont (library := standardLibrary) []
  /\ exists calls fontCache',
       savePdfAnnotations (library := standardLibrary) [800; 800]%Q
         (annotations withImage) [] = Some (calls, fontCache')
       /\ exportAnnotations [800; 800]%Q (annotations withImage) = Some calls
       /\ length calls = 2%nat.
Proof.
  assert (Hempty : filledByGetFont (library := standardLibrary) [])
    by (intros fontId pdfFont Hget; discriminate Hget).
  split; [exact withImage_consistent |]. split; [exact Hempty |].
  destruct (export_raises_only_where_pdf_lib_does (library := standardLibrary)
              withImage [800; 800]%Q [] withImage_consistent Hempty)
    as [Hruns Hcalls].
  assert (Haccepted : forall i pageAnns,
            (i < length [800; 800]%Q)%nat ->
            annotations withImage !! i = Some pageAnns ->
            Forall (accepted (library := standardLibrary)) pageAnns).
  { intros i pageAnns Hi Hlook.
    destruct i as [| [| i]]; [| | cbn in Hi; lia].
    - vm_compute in Hlook. injection Hlook as <-.
      constructor; [eexists; split; vm_compute; reflexivity |].
      constructor; [eexists; vm_compute; reflexivity | constructor].
    - vm_compute in Hlook. injection Hlook as <-. constructor. }
  destruct (proj2 Hruns Haccepted) as [[calls fontCache'] Hsaved].
  destruct (Hcalls calls fontCache' Hsaved) as (Hexport & Hlen & _).
  exists calls, fontCache'.
  split; [exact Hsaved |]. split; [exact Hexport | exact Hlen].
Defined.

Lemma export_copies_every_page_once_witness :
  consistent withImage
  /\ map (fun p => (p - 1)%nat) (pageOrder withImage) ≡ₚ [0; 1]%nat.
Proof.
  split; [exact withImage_consistent |].
  exact (proj1 (export_copies_every_page_once withImage withImage_consistent)).
Defined.

Lemma handlers_do_not_raise_witness :
  consistent grabbed
  /\ is_Some (onMouseMove (Some (mkPoint 480 630)) grabbed)
  /\ is_Some (onMouseUp grabbed)
  /\ is_Some (onDeleteKeyPressed true grabbed).
Proof.
  split; [exact grabbed_consistent |].
  destruct (handlers_do_not_raise grabbed grabbed_consistent)
    as (_ & Hmove & Hup & _ & _ & Hdelete & _).
  split; [apply Hmove |]. split; [exact Hup | apply Hdelete].
Defined.

Lemma press_selects_the_topmost_witness :
  isEditingText withImage = false
  /\ activeTab withImage = TabEdit
  /\ pageIndexOf withImage = Some 0%nat
  /\ is_Some (annotations withImage !! 0%nat)
  /\ exists (st' : Toy) activeTool',
       onMouseDown ToolDraw false (Some (mkPoint 450 600)) withImage
       = Some (st', activeTool')
       /\ annotations st' = annotations withImage
       /\ undoStack st' = undoStack withImage
       /\ selectedAnnotationIndex st' = 1%Z
       /\ dragMode st' = DragMove
       /\ activeTool' = ToolSelect.
Proof.
  assert (Hedit : isEditingText withImage = false) by evaluate.
  assert (Htab : activeTab withImage = TabEdit) by evaluate.
  assert (Hpage : pageIndexOf withImage = Some 0%nat) by evaluate.
  destruct (annotations withImage !! 0%nat) as [pageAnns |] eqn:Hanns;
    [| vm_compute in Hanns; discriminate].
  destruct (press_selects_the_topmost ToolDraw (mkPoint 450 600) withImage 0
              pageAnns Hedit Htab Hpage Hanns)
    as (st' & activeTool' & Hdown & Hmodel & Hundo & _).
  assert (Hgrab : onMouseDown ToolDraw false (Some (mkPoint 450 600)) withImage
                  = Some (grabbed, ToolSelect)) by evaluate.
  do 3 (split; [assumption |]). split; [by eexists |].
  exists st', activeTool'. split; [exact Hdown |].
  split; [exact Hmodel |]. split; [exact Hundo |].
  assert (Hst : Some (st', activeTool') = Some (grabbed, ToolSelect))
    by (rewrite <- Hdown; exact Hgrab).
  assert (Hsel : selectedAnnotationIndex st' = selectedAnnotationIndex grabbed)
    by exact (f_equal (fun r : option (Toy * Tool) =>
                         match r with
                         | Some (s, _) => selectedAnnotationIndex s
                         | None => 0%Z
                         end) Hst).
  assert (Hmode : dragMode st' = dragMode grabbed)
    by exact (f_equal (fun r : option (Toy * Tool) =>
                         match r with
                         | Some (s, _) => dragMode s
                         | None => DragNone
                         end) Hst).
  assert (Htool : activeTool' = ToolSelect)
    by exact (f_equal (fun r : option (Toy * Tool) =>
                         match r with
                         | Some (_, t) => t
                         | None => ToolSelect
                         end) Hst).
  split; [rewrite Hsel; evaluate |]. split; [rewrite Hmode; evaluate |].
  exact Htool.
Defined.

Lemma move_drag_follows_the_pointer_witness :
  dragMode grabbed = DragMove
  /\ pageIndexOf grabbed = Some 0%nat
  /\ selectedAnnotationIndex grabbed = Z.of_nat 1
  /\ exists pageAnns ann,
       annotations grabbed !! 0%nat = Some pageAnns
       /\ pageAnns !! 1%nat = Some ann
       /\ drag ([mkPoint 460 600; mkPoint 900 30] ++ [mkPoint 480 630]) grabbed
          = Some (set_annotations
                    (<[0%nat :=
                         <[1%nat :=
                             placedAt
                               (r_x (dragStartAnn grabbed)
                                + (480 / scale grabbed
                                   - pt_x (dragStartPos grabbed)))
                               (r_y (dragStartAnn grabbed)
                                + (630 / scale grabbed
                                   - pt_y (dragStartPos grabbed)))
                               ann]> pageAnns]> (annotations grabbed))
                    grabbed).
Proof.
  assert (Hmode : dragMode grabbed = DragMove) by evaluate.
  assert (Hpage : pageIndexOf grabbed = Some 0%nat) by evaluate.
  assert (Hsel : selectedAnnotationIndex grabbed = Z.of_nat 1) by evaluate.
  destruct (annotations grabbed !! 0%nat) as [pageAnns |] eqn:Hanns;
    [| vm_compute in Hanns; discriminate].
  destruct (pageAnns !! 1%nat) as [ann |] eqn:Hann.
  2: { vm_compute in Hanns. injection Hanns as <-. vm_compute in Hann.
       discriminate. }
  repeat (split; [assumption |]). exists pageAnns, ann.
  split; [reflexivity |]. split; [assumption |].
  exact (move_drag_follows_the_pointer [mkPoint 460 600; mkPoint 900 30]
           (mkPoint 480 630) grabbed 0 1 pageAnns ann Hmode Hpage Hanns Hsel
           Hann).
Defined.

Lemma typed_text_lands_at_the_click_witness :
  isEditingText typed = false
  /\ activeTab typed = TabEdit
  /\ pageIndexOf typed = Some 0%nat
  /\ annotations typed !! 0%nat = Some [AText hi]
  /\ hitPart (mkPoint (600 / scale typed) (900 / scale typed)) (scale typed)
       (AText hi) = None
  /\ forallb JS.isWhiteSpace (JS.lit "ok ") = false
  /\ ~ (scale typed == 0)%Q
  /\ exists (st3 : Toy) t,
       annotations st3 = <[0%nat := [AText hi] ++ [AText t]]> (annotations typed)
       /\ t_text t = JS.lit "ok"
       /\ (t_x t * scale typed == 600)%Q
       /\ (t_y t * scale typed == 900)%Q.
Proof.
  assert (Hedit : isEditingText typed = false) by evaluate.
  assert (Htab : activeTab typed = TabEdit) by evaluate.
  assert (Hpage : pageIndexOf typed = Some 0%nat) by evaluate.
  assert (Hanns : annotations typed !! 0%nat = Some [AText hi]) by evaluate.
  assert (Hmiss : hitPart (mkPoint (600 / scale typed) (900 / scale typed))
                    (scale typed) (AText hi) = None) by evaluate.
  assert (Hnone : forall j ann, [AText hi] !! j = Some ann ->
            hitPart (mkPoint (pt_x (mkPoint 600 900) / scale typed)
                       (pt_y (mkPoint 600 900) / scale typed)) (scale typed)
              ann = None).
  { intros [| j] ann; [| by destruct j]. intros [= <-]. exact Hmiss. }
  assert (Hvalue : forallb JS.isWhiteSpace (JS.lit "ok ") = false) by evaluate.
  assert (Hscale : ~ (scale typed == 0)%Q) by (vm_compute; discriminate).
  destruct (typed_text_lands_at_the_click (mkPoint 600 900) (JS.lit "ok ")
              typed 0 [AText hi] Hedit Htab Hpage Hanns Hnone Hvalue Hscale)
    as (st1 & st3 & t & _ & _ & _ & _ & Hmodel & Htext & _ & Hx & Hy & _).
  repeat (split; [assumption |]). exists st3, t.
  split; [exact Hmodel |]. split; [rewrite Htext; evaluate |].
  split; [exact Hx | exact Hy].
Defined.

Lemma editing_without_change_keeps_the_text_witness :
  activeTab typed = TabEdit
  /\ pageIndexOf typed = Some 0%nat
  /\ annotations typed !! 0%nat = Some [AText hi]
  /\ inRect (mkPoint (180 / scale typed) (96 / scale typed)) (t_x hi) (t_y hi)
       (t_width hi) (t_height hi) = true
  /\ stored (AText hi)
  /\ exists (st1 st2 : Toy) t',
       onDblClick false (Some (mkPoint 180 96)) typed = Some st1
       /\ finalizeTextAnnotation st1 = Some st2
       /\ annotations st2 = <[0%nat := <[0%nat := AText t']> [AText hi]]>
                              (annotations typed)
       /\ t_text t' = JS.lit "Hi"
       /\ undoStack st2 = undoStack typed ++ [annotations typed].
Proof.
  assert (Htab : activeTab typed = TabEdit) by evaluate.
  assert (Hpage : pageIndexOf typed = Some 0%nat) by evaluate.
  assert (Hanns : annotations typed !! 0%nat = Some [AText hi]) by evaluate.
  assert (Hin : inRect (mkPoint (180 / scale typed) (96 / scale typed))
                  (t_x hi) (t_y hi) (t_width hi) (t_height hi) = true)
    by evaluate.
  assert (Hstored : stored (AText hi)) by (split; evaluate).
  assert (Habove : forall j t', (0 < j)%nat ->
            [AText hi] !! j = Some (AText t') ->
            inRect (mkPoint (pt_x (mkPoint 180 96) / scale typed)
                      (pt_y (mkPoint 180 96) / scale typed))
              (t_x t') (t_y t') (t_width t') (t_height t') = false).
  { intros [| [| j]] t' Hj; [lia | done | done]. }
  destruct (editing_without_change_keeps_the_text (mkPoint 180 96) typed 0 0
              [AText hi] hi Htab Hpage Hanns eq_refl Hin Habove Hstored)
    as (st1 & st2 & t' & Hclick & _ & _ & _ & _ & Hfinal & Hmodel & _ & _
        & Htext & _ & Hundo & _).
  repeat (split; [assumption |]). exists st1, st2, t'.
  split; [exact Hclick |]. split; [exact Hfinal |]. split; [exact Hmodel |].
  split; [| exact Hundo]. rewrite Htext. reflexivity.
Defined.

Lemma next_then_previous_returns_witness :
  NoDup (pageOrder (opened 3))
  /\ pageIndexOf (opened 3) = Some 0%nat
  /\ exists st1 : Toy,
       goToNextPage (opened 3) = Some st1
       /\ currentPageNum st1 = 2%nat
       /\ goToPrevPage st1
          = Some (set_selectedAnnotationIndex (-1)%Z (opened 3)).
Proof.
  assert (Hnodup : NoDup (pageOrder (opened 3))).
  { change (NoDup (seq 1 3)). apply NoDup_seq. }
  assert (Hpage : pageIndexOf (opened 3) = Some 0%nat) by evaluate.
  destruct (proj1 (next_then_previous_returns (opened 3) Hnodup) 0%nat Hpage)
    as (st1 & page & Hnext & Hlookup & Hcurrent & _ & _ & Hprev);
    [vm_compute; lia |].
  repeat (split; [assumption |]). exists st1. split; [exact Hnext |].
  split; [| exact Hprev]. vm_compute in Hlookup. congruence.
Defined.

Lemma fitToPage_fits_witness :
  isPdfLoaded (opened 1) = true
  /\ (0 < 600)%Q /\ (0 < 800)%Q
  /\ (600 * scale (fitToPage (Some (600, 800)%Q) (Some (1000, 700)%Q) (opened 1))
      <= 1000 - 32)%Q
  /\ (800 * scale (fitToPage (Some (600, 800)%Q) (Some (1000, 700)%Q) (opened 1))
      <= 700 - 32)%Q.
Proof.
  assert (Hloaded : isPdfLoaded (opened 1) = true) by evaluate.
  assert (Hw : (0 < 600)%Q) by evaluate.
  assert (Hh : (0 < 800)%Q) by evaluate.
  destruct (fitToPage_fits 600 800 1000 700 (opened 1) Hloaded Hw Hh)
    as (Hfw & Hfh & _).
  repeat (split; [assumption |]). exact Hfh.
Defined.

Lemma inserted_image_fits_and_is_centred_witness :
  (0 < 600)%Q /\ (0 < 300)%Q /\ (0 < scale typed)%Q
  /\ pageIndexOf typed = Some 0%nat
  /\ annotations typed !! 0%nat = Some [AText hi]
  /\ exists (st' : Toy) img,
       onImageSelected (JS.lit "data:image/png;base64,AAAA") 600 300
         (Some (900, 1200)%Q) typed = Some st'
       /\ annotations st' = <[0%nat := [AText hi] ++ [AImage img]]>
                              (annotations typed)
       /\ selectedAnnotationIndex st' = 1%Z
       /\ (i_width img <= 200)%Q /\ (i_height img <= 200)%Q
       /\ (Qmax (i_width img) (i_height img) == 200)%Q
       /\ (i_height img == i_width img * i_originalAspectRatio img)%Q.
Proof.
  assert (Hw : (0 < 600)%Q) by evaluate.
  assert (Hh : (0 < 300)%Q) by evaluate.
  assert (Hs : (0 < scale typed)%Q) by evaluate.
  assert (Hpage : pageIndexOf typed = Some 0%nat) by evaluate.
  assert (Hanns : annotations typed !! 0%nat = Some [AText hi]) by evaluate.
  destruct (proj2 (inserted_image_fits_and_is_centred
                     (JS.lit "data:image/png;base64,AAAA") 600 300 900 1200
                     typed 0 [AText hi] Hw Hh Hs Hpage Hanns))
    as (st' & img & Hinsert & Hmodel & Hsel & _ & _ & _ & [_ Hfw] & [_ Hfh]
        & _ & _ & _ & Hshrunk & _ & Hprop & _).
  assert (Hbig : (200 < 600 / scale typed)%Q) by evaluate.
  repeat (split; [assumption |]). exists st', img.
  split; [exact Hinsert |]. split; [exact Hmodel |]. split; [exact Hsel |].
  split; [exact Hfw |]. split; [exact Hfh |].
  split; [exact (Hshrunk (or_introl Hbig)) | exact Hprop].
Defined.


Lemma structural_operation_outcomes_witness :
  pdfLibDoc withImage = Some (2%nat : @PdfLibDoc toy)
  /\ (exists st' : Toy,
        rotatePage true 90 None withImage = (st', [ConfirmDiscardAnnotations])
        /\ freshModel 2 st'
        /\ currentPageNum st' = 1%nat)
  /\ rotatePage true 90 (Some 5%nat) withImage
     = (set_isSaving false withImage,
        [ConfirmDiscardAnnotations; AlertRotateFailed]).
Proof.
  assert (Hdoc : pdfLibDoc withImage = Some (2%nat : @PdfLibDoc toy))
    by evaluate.
  destruct (structural_operation_outcomes withImage 2%nat Hdoc)
    as (Hrotate & _ & _ & _ & Hfailed & _).
  split; [exact Hdoc |]. split.
  - destruct (Hrotate 90%Z None (2%nat : @PdfLibDoc toy)
                (2%nat : @PdfBytes toy) (2%nat : @PdfJsDoc toy)
                (2%nat : @PdfLibDoc toy) eq_refl eq_refl eq_refl)
      as (st' & Hop & Hfresh & Hcurrent).
    exists st'. split; [exact Hop |]. split; [exact Hfresh |].
    rewrite Hcurrent. evaluate.
  - exact (Hfailed 90%Z (Some 5%nat) eq_refl).
Defined.

Lemma undo_after_reorder_keeps_positions_witness :
  undoStack withImage = [annotations (opened 2)] ++ [annotations typed]
  /\ exists st' : Toy,
       reorderPages 0 2 withImage = Some st'
       /\ pageOrder st' = [2; 1]%nat
       /\ annotations (undo st') = annotations typed
       /\ pageOrder (undo st') = [2; 1]%nat
       /\ annotations (redo (undo st')) = annotations st'.
Proof.
  assert (Hstack : undoStack withImage
                   = [annotations (opened 2)] ++ [annotations typed])
    by evaluate.
  destruct (reorderPages 0 2 withImage) as [st' |] eqn:Hreorder;
    [| vm_compute in Hreorder; discriminate].
  destruct (undo_after_reorder_keeps_positions 0 2 withImage st'
              [annotations (opened 2)] (annotations typed) Hreorder Hstack)
    as (_ & _ & Hundo & Horder & Hredo & _).
  split; [exact Hstack |]. exists st'. split; [reflexivity |].
  assert (Hmoved : pageOrder st' = [2; 1]%nat).
  { vm_compute in Hreorder. injection Hreorder as <-. reflexivity. }
  split; [exact Hmoved |]. split; [exact Hundo |].
  split; [by rewrite Horder | exact Hredo].
Defined.

Lemma page_number_preview_matches_export_witness :
  (0 < 1.5)%Q /\ (0 < 2)%Q
  /\ exists shown drawn,
       PageNumbers.previewPageNumber bottomCentre 0 1.5 2 (600 * 1.5 * 2)
         (800 * 1.5 * 2) = Some shown
       /\ PageNumbers.exportPageNumber bottomCentre 0 600 800 7 = Some drawn
       /\ PageNumbers.ft_number shown = 1%Z
       /\ (PageNumbers.canvasLeftEnd (PageNumbers.ft_textAlign shown)
             (PageNumbers.ft_x shown) (7 * (1.5 * 2))
           == PageNumbers.dn_x drawn * (1.5 * 2))%Q.
Proof.
  assert (Hscale : (0 < 1.5)%Q) by evaluate.
  assert (Hratio : (0 < 2)%Q) by evaluate.
  destruct (proj2 (page_number_preview_matches_export bottomCentre 0 1.5 2 600
                     800 7 Hscale Hratio) eq_refl)
    as (shown & drawn & Hshown & Hdrawn & Hnumber & _ & _ & _ & Hleft & _).
  split; [exact Hscale |]. split; [exact Hratio |]. exists shown, drawn.
  split; [exact Hshown |]. split; [exact Hdrawn |].
  split; [exact Hnumber | exact Hleft].
Defined.

Lemma watermark_same_turn_other_size_witness :
  (1.5 * 1 <> 0)%R
  /\ Watermark.middle evenMetrics
     = (Watermark.ascent evenMetrics - Watermark.totalHeight evenMetrics / 2)%R
  /\ (fst (Watermark.exportPoint evenMetrics 600 800 100 0 0) - 600 / 2
      = 1.5 * (fst (Watermark.previewPoint evenMetrics 600 800 1.5 1 100 0 0)
               - 600 / 2))%R.
Proof.
  assert (Hk : (1.5 * 1 <> 0)%R) by Lra.lra.
  assert (Hmiddle : Watermark.middle evenMetrics
                    = (Watermark.ascent evenMetrics
                       - Watermark.totalHeight evenMetrics / 2)%R)
    by (cbn; Lra.lra).
  split; [exact Hk |]. split; [exact Hmiddle |].
  exact (proj1 (proj2 (watermark_same_turn_other_size evenMetrics 600 800 1.5 1
                         100 Hk Hmiddle) 0%R 0%R)).
Defined.

Lemma preview_agrees_with_the_export_calls_witness :
  Forall stored [AText hi; photo; stroke]
  /\ exists calls fontCache',
       savePdfPage (library := standardLibrary) 800 [AText hi; photo; stroke] []
       = Some (calls, fontCache')
       /\ Forall2 (agreesWithCall (1.5 * 2) 800)
            (previewAnnotations (1.5 * 2) false (-1) [AText hi; photo; stroke])
            calls.
Proof.
  assert (Hstored : Forall stored [AText hi; photo; stroke]).
  { repeat constructor; evaluate. }
  split; [exact Hstored |].
  destruct (savePdfPage (library := standardLibrary) 800
              [AText hi; photo; stroke] []) as [[calls fontCache'] |] eqn:Hsaved;
    [| vm_compute in Hsaved; discriminate].
  exists calls, fontCache'. split; [reflexivity |].
  apply (proj1 (preview_agrees_with_the_export_calls (library := standardLibrary)
                  (1.5 * 2) 800 [AText hi; photo; stroke] [] fontCache' calls
                  Hstored Hsaved)).
Defined.

(** With the standard font names a bold text in Times is not exported:
    the loop asks pdf-lib for the font Times-Roman-Bold, which is none of
    the fourteen (the bold Times is Times-Bold), and the export is
    abandoned. *)
Lemma bold_Times_is_not_exported :
  exportFontId boldTimes = JS.lit "Times-Roman-Bold"
  /\ stored (AText boldTimes)
  /\ @embedFont standardLibrary (exportFontId boldTimes) = None
  /\ savePdfPage (library := standardLibrary) 800 [AText hi; AText boldTimes] []
     = None.
Proof.
  split; [evaluate |]. split; [split; evaluate |].
  split; evaluate.
Qed.
